(** * GenMaki: the makefile format converter of amigazen/Gen

    A shallow embedding of the conversion engine (format detector, the four
    dialect parsers, the option and command mapping, the four emitters and
    the driver in [main]) together with the properties checked against it.

    Conventions of the embedding:
    - a C string is a [string]: the bytes up to, and without, the
      terminating NUL; a pointer into a string is the suffix it points at;
    - [AllocVec] is taken to succeed (the out-of-memory branches are not
      modelled);
    - the fixed arrays [variables], [rules], [commands] and [comments] are
      lists whose length is the corresponding [*_count] field; the capacity
      tests of the source are kept as tests on the length;
    - [strcpy] and [strcat] are string assignment and append; where the
      source sizes the destination by a formula of its own
      ([convert_cflags]) the model records whether the copies stay inside
      the allocation, elsewhere the destination is large enough by
      construction ([strlen] of the source plus a constant);
    - a file is seen through the buffers that successive [FGets] calls
      return, each read as a C string; every parser is a fold of its loop
      body over these buffers.
      [FGets] leaves the line feed at the end of the buffer, and neither
      the detector nor a parser removes it: [trim_whitespace] only cuts
      blanks and tabs.  The statements below are about arbitrary buffers,
      with or without a line feed. *)

From Stdlib Require Import String Ascii ZArith Lia List Bool Permutation.
From stdpp Require Import base list strings.
Import ListNotations.


(** ** C string helpers *)

Module CStr.

Definition TAB : ascii := "009"%char.
Definition NL : ascii := "010"%char.
Definition SPACE : ascii := " "%char.
Definition DQUOTE : ascii := "034"%char.
Definition NUL : ascii := "000"%char.

(** [*p == ' ' || *p == '\t'] *)
Definition is_blank (c : ascii) : bool :=
  Ascii.eqb c SPACE || Ascii.eqb c TAB.

Definition is_empty (s : string) : bool :=
  match s with EmptyString => true | String _ _ => false end.

(** [*s == c] *)
Definition first_is (c : ascii) (s : string) : bool :=
  match s with EmptyString => false | String a _ => Ascii.eqb a c end.

Definition found (p : option string) : bool :=
  match p with Some _ => true | None => false end.

(** [p + 1] for a pointer [p] into a string. *)
Definition tail (s : string) : string :=
  match s with EmptyString => EmptyString | String _ r => r end.

(** [p + n]; past the terminator the read is undefined in C, the model
    yields the empty string. *)
Fixpoint skip (n : nat) (s : string) : string :=
  match n, s with
  | O, _ => s
  | S n', String _ r => skip n' r
  | S _, EmptyString => EmptyString
  end.

Fixpoint last_char (s : string) : option ascii :=
  match s with
  | EmptyString => None
  | String c EmptyString => Some c
  | String _ r => last_char r
  end.

(** [s[strlen(s)-1] = '\0'] *)
Fixpoint chop (s : string) : string :=
  match s with
  | EmptyString => EmptyString
  | String _ EmptyString => EmptyString
  | String c r => String c (chop r)
  end.

Fixpoint skip_whitespace (s : string) : string :=
  match s with
  | EmptyString => EmptyString
  | String c r => if is_blank c then skip_whitespace r else s
  end.

(** The backwards loop of [trim_whitespace]: blanks at the end of [s] are
    cut off. *)
Fixpoint rstrip (s : string) : string :=
  match s with
  | EmptyString => EmptyString
  | String c r =>
      match rstrip r with
      | EmptyString => if is_blank c then EmptyString else String c EmptyString
      | r' => String c r'
      end
  end.

(** [trim_whitespace]: leading blanks are skipped; the backwards loop
    stops at the first character kept ([end > str]). *)
Definition trim_whitespace (s : string) : string :=
  match skip_whitespace s with
  | EmptyString => EmptyString
  | String c r => String c (rstrip r)
  end.

(** [strchr(s, c)]: the suffix starting at the first [c]. *)
Fixpoint strchr (s : string) (c : ascii) : option string :=
  match s with
  | EmptyString => None
  | String a r => if Ascii.eqb a c then Some s else strchr r c
  end.

(** What [s] reads as after [*strchr(s, c) = '\0']. *)
Fixpoint until_char (s : string) (c : ascii) : string :=
  match s with
  | EmptyString => EmptyString
  | String a r => if Ascii.eqb a c then EmptyString else String a (until_char r c)
  end.

(** [strchr(s, c) + 1] *)
Definition after_char (s : string) (c : ascii) : string :=
  match strchr s c with Some p => tail p | None => EmptyString end.

(** [strstr(s, sub)]: the suffix starting at the first occurrence. *)
Fixpoint strstr (s sub : string) : option string :=
  if String.prefix sub s then Some s
  else match s with
       | EmptyString => None
       | String _ r => strstr r sub
       end.

(** What [s] reads as after [*strstr(s, sub) = '\0']. *)
Fixpoint until_str (s sub : string) : string :=
  if String.prefix sub s then EmptyString
  else match s with
       | EmptyString => EmptyString
       | String a r => String a (until_str r sub)
       end.

Definition code (c : ascii) : Z := Z.of_N (N_of_ascii c).

(** [tolower] in the C locale. *)
Definition tolower (c : ascii) : ascii :=
  if ((65 <=? code c) && (code c <=? 90))%Z
  then ascii_of_N (N_of_ascii c + 32) else c.

Fixpoint my_strcmp (s1 s2 : string) : Z :=
  match s1, s2 with
  | String c1 r1, String c2 r2 =>
      if Ascii.eqb c1 c2 then my_strcmp r1 r2 else (code c1 - code c2)%Z
  | String c1 _, EmptyString => code c1
  | EmptyString, String c2 _ => (0 - code c2)%Z
  | EmptyString, EmptyString => 0%Z
  end.

Fixpoint my_stricmp (s1 s2 : string) : Z :=
  match s1, s2 with
  | String c1 r1, String c2 r2 =>
      if Ascii.eqb (tolower c1) (tolower c2) then my_stricmp r1 r2
      else (code (tolower c1) - code (tolower c2))%Z
  | String c1 _, EmptyString => code (tolower c1)
  | EmptyString, String c2 _ => (0 - code (tolower c2))%Z
  | EmptyString, EmptyString => 0%Z
  end.

(** [my_stricmp(a, b) == 0] *)
Definition ieq (a b : string) : bool := (my_stricmp a b =? 0)%Z.

(** [strlen(s) > 0] *)
Definition nonempty (s : string) : bool := negb (is_empty s).

End CStr.

Import CStr.

(** ** What [FGets] returns

    [FGets(file, line, sizeof(line))] of dos.library copies at most
    [MAX_LINE_LENGTH - 1] bytes and stops after a newline, which stays in
    the buffer (the reader of GenIn, in this repository, cuts it off after
    each call; GenMaki does not).  [FGets_buffers] cuts the content of a
    file into the buffers of the successive calls.  [FGets] copies a NUL
    byte of the file like any other byte, and every function that then
    reads the buffer stops at it: [FGets_lines] gives what the buffers read
    as, each one cut in front of its first NUL. *)

Definition MAX_LINE_LENGTH : nat := 512.
Definition MAX_VARIABLES : nat := 64.
Definition MAX_RULES : nat := 128.
Definition MAX_COMMANDS : nat := 256.

Fixpoint FGets_from (s : string) (cur : string) (room : nat) : list string :=
  match s with
  | EmptyString => if is_empty cur then [] else [cur]
  | String c r =>
      if Ascii.eqb c NL then (cur +:+ String c EmptyString) :: FGets_from r EmptyString (MAX_LINE_LENGTH - 1)
      else match room with
           | S (S room') => FGets_from r (cur +:+ String c EmptyString) (S room')
           | _ => (cur +:+ String c EmptyString) :: FGets_from r EmptyString (MAX_LINE_LENGTH - 1)
           end
  end.

Definition FGets_buffers (content : string) : list string :=
  FGets_from content EmptyString (MAX_LINE_LENGTH - 1).

Definition FGets_lines (content : string) : list string :=
  map (fun buffer => until_char buffer NUL) (FGets_buffers content).

(** ** Data model *)

Inductive MakefileFormat : Set :=
| FORMAT_UNKNOWN
| FORMAT_GNU_MAKE
| FORMAT_SAS_C
| FORMAT_DICE
| FORMAT_LATTICE.

Definition format_eqb (a b : MakefileFormat) : bool :=
  match a, b with
  | FORMAT_UNKNOWN, FORMAT_UNKNOWN
  | FORMAT_GNU_MAKE, FORMAT_GNU_MAKE
  | FORMAT_SAS_C, FORMAT_SAS_C
  | FORMAT_DICE, FORMAT_DICE
  | FORMAT_LATTICE, FORMAT_LATTICE => true
  | _, _ => false
  end.

(** [Variable] of the source ([Variable] is reserved in Rocq). *)
Record Var : Set := mkVariable {
  name : string;
  value : string;
  is_immediate : bool
}.

Record Command : Set := mkCommand {
  command : string;
  is_continuation : bool
}.

Record Rule : Set := mkRule {
  targets : string;
  dependencies : string;
  commands : list Command;
  is_pattern_rule : bool;
  is_dice_form4 : bool
}.

(** [comments] is an array of string pointers; a [None] slot is a NULL
    pointer. *)
Record Makefile : Set := mkMakefile {
  format : MakefileFormat;
  filename : option string;
  variables : list Var;
  rules : list Rule;
  comments : list (option string)
}.

Definition variable_count (m : Makefile) : nat := length (variables m).
Definition rule_count (m : Makefile) : nat := length (rules m).
Definition comment_count (m : Makefile) : nat := length (comments m).
Definition command_count (r : Rule) : nat := length (commands r).

(** The zero-filled structure of [main], with the detected format. *)
Definition empty_makefile (f : MakefileFormat) : Makefile :=
  mkMakefile f None [] [] [].

(** ** Format detector *)

Record Flags : Set := mkFlags {
  found_gnu_syntax : bool;
  found_dice_syntax : bool;
  found_sas_syntax : bool;
  found_lattice_syntax : bool
}.

Definition no_flags : Flags := mkFlags false false false false.

Definition gnu_signature (trimmed : string) : bool :=
  found (strstr trimmed "%.o:") || found (strstr trimmed "$@") ||
  found (strstr trimmed "$<") || found (strstr trimmed "$^") ||
  found (strstr trimmed "CC=gcc") || found (strstr trimmed "CC = gcc").

Definition dice_signature (trimmed : string) : bool :=
  found (strstr trimmed "%(left)") || found (strstr trimmed "%(right)") ||
  found (strstr trimmed "::").

Definition sas_signature (trimmed : string) : bool :=
  found (strstr trimmed ".c.o:") || found (strstr trimmed "$*.o") ||
  found (strstr trimmed "OBJNAME=") || found (strstr trimmed "slink").

Definition lattice_signature (trimmed : string) : bool :=
  found (strstr trimmed "blink") || found (strstr trimmed "lc ") ||
  found (strstr trimmed "WITH").

(** The four tests of the loop body on one line. *)
Definition detect_line (trimmed : string) (f : Flags) : Flags :=
  let f1 := if gnu_signature trimmed
            then mkFlags true (found_dice_syntax f) (found_sas_syntax f) (found_lattice_syntax f)
            else f in
  let f2 := if dice_signature trimmed
            then mkFlags (found_gnu_syntax f1) true (found_sas_syntax f1) (found_lattice_syntax f1)
            else f1 in
  let f3 := if sas_signature trimmed
            then mkFlags (found_gnu_syntax f2) (found_dice_syntax f2) true (found_lattice_syntax f2)
            else f2 in
  if lattice_signature trimmed
  then mkFlags (found_gnu_syntax f3) (found_dice_syntax f3) (found_sas_syntax f3) true
  else f3.

(** [while (FGets(...) && line_count < 50)] *)
Fixpoint detect_scan (lines : list string) (line_count : nat) (f : Flags) : Flags :=
  match lines with
  | [] => f
  | line :: rest =>
      if line_count <? 50 then
        let trimmed := trim_whitespace line in
        if is_empty trimmed || first_is "#"%char trimmed
        then detect_scan rest (S line_count) f
        else detect_scan rest (S line_count) (detect_line trimmed f)
      else f
  end.

Definition detect_resolve (f : Flags) : MakefileFormat :=
  if found_dice_syntax f then FORMAT_DICE
  else if found_gnu_syntax f then FORMAT_GNU_MAKE
  else if found_sas_syntax f then FORMAT_SAS_C
  else if found_lattice_syntax f then FORMAT_LATTICE
  else FORMAT_UNKNOWN.

(** [file] is [None] when [Open] fails. *)
Definition detect_format (file : option (list string)) : MakefileFormat :=
  match file with
  | None => FORMAT_UNKNOWN
  | Some lines => detect_resolve (detect_scan lines 0 no_flags)
  end.

(** ** Dialect parsers *)

(** The loop variables shared by the four parsers.  [current_rule] points
    into the [rules] array: it is the index of the rule pointed at. *)
Record PState : Set := mkPState {
  in_rule : bool;
  current_rule : option nat;
  mk : Makefile
}.

Definition with_mk (st : PState) (m : Makefile) : PState :=
  mkPState (in_rule st) (current_rule st) m.

(** [in_rule = FALSE; current_rule = NULL;] *)
Definition close_rule (st : PState) : PState :=
  mkPState false None (mk st).

(** The comment branch: a fresh cleared array replaces [comments] each
    time and only the slot [comment_count] is written. *)
Definition store_comment (m : Makefile) (trimmed : string) : Makefile :=
  if comment_count m <? MAX_COMMANDS
  then mkMakefile (format m) (filename m) (variables m) (rules m)
         (replicate (comment_count m) None ++ [Some trimmed])
  else m.

Definition add_variable (m : Makefile) (v : Var) : Makefile :=
  if variable_count m <? MAX_VARIABLES
  then mkMakefile (format m) (filename m) (variables m ++ [v]) (rules m) (comments m)
  else m.

Definition set_rules (m : Makefile) (rs : list Rule) : Makefile :=
  mkMakefile (format m) (filename m) (variables m) rs (comments m).

(** A rule header: below the capacity the rule is stored and opened, at
    the capacity nothing changes (neither [in_rule] nor [current_rule]). *)
Definition open_rule (st : PState) (r : Rule) : PState :=
  if rule_count (mk st) <? MAX_RULES
  then mkPState true (Some (rule_count (mk st))) (set_rules (mk st) (rules (mk st) ++ [r]))
  else st.

Definition push_command (r : Rule) (text : string) : Rule :=
  mkRule (targets r) (dependencies r) (commands r ++ [mkCommand text false])
         (is_pattern_rule r) (is_dice_form4 r).

(** [if (cond && rule->command_count < MAX_COMMANDS)] on the rule at [idx]. *)
Definition add_command (m : Makefile) (idx : nat) (cond : bool) (text : string) : Makefile :=
  match rules m !! idx with
  | Some r =>
      if cond && (command_count r <? MAX_COMMANDS)
      then set_rules m (<[idx := push_command r text]> (rules m))
      else m
  | None => m
  end.

(** The last branch of the loop body shared by the GNU, SAS/C and DICE
    parsers: a command line of the open rule, otherwise the rule closes. *)
Definition command_or_close (st : PState) (trimmed : string) : PState :=
  match in_rule st, current_rule st with
  | true, Some idx =>
      if first_is TAB trimmed || first_is SPACE trimmed then
        let command := skip_whitespace trimmed in
        with_mk st (add_command (mk st) idx (nonempty command) command)
      else close_rule st
  | _, _ => close_rule st
  end.

(** [strchr(trimmed, '=') && !strchr(trimmed, ':')] *)
Definition is_assignment (trimmed : string) : bool :=
  found (strchr trimmed "="%char) && negb (found (strchr trimmed ":"%char)).

(** The quote removal of the GNU parser. *)
Definition strip_quotes (value : string) : string :=
  if first_is DQUOTE value &&
     match last_char value with Some c => Ascii.eqb c DQUOTE | None => false end
  then tail (chop value)
  else value.

Definition colon_rule (trimmed : string) (pattern : string -> bool) : Rule :=
  let targets := trim_whitespace (until_char trimmed ":"%char) in
  let deps := trim_whitespace (after_char trimmed ":"%char) in
  mkRule targets deps [] (pattern targets) false.

Definition dot_rule : Rule := mkRule "*.o" "*.c" [] true false.

Definition is_dot_rule (trimmed : string) : bool :=
  found (strstr trimmed ".c.o:") || found (strstr trimmed ".s.o:").

Definition gnu_step (st : PState) (line : string) : PState :=
  let trimmed := trim_whitespace line in
  if is_empty trimmed then close_rule st
  else if first_is "#"%char trimmed then with_mk st (store_comment (mk st) trimmed)
  else if is_assignment trimmed then
    let name := trim_whitespace (until_char trimmed "="%char) in
    let value := strip_quotes (trim_whitespace (after_char trimmed "="%char)) in
    close_rule (with_mk st (add_variable (mk st) (mkVariable name value false)))
  else if found (strchr trimmed ":"%char) then
    open_rule st (colon_rule trimmed (fun targets => found (strchr targets "%"%char)))
  else command_or_close st trimmed.

Definition sas_step (st : PState) (line : string) : PState :=
  let trimmed := trim_whitespace line in
  if is_empty trimmed then close_rule st
  else if first_is ";"%char trimmed then with_mk st (store_comment (mk st) trimmed)
  else if is_assignment trimmed then
    let name := trim_whitespace (until_char trimmed "="%char) in
    let value := trim_whitespace (after_char trimmed "="%char) in
    close_rule (with_mk st (add_variable (mk st) (mkVariable name value false)))
  else if is_dot_rule trimmed then open_rule st dot_rule
  else if found (strchr trimmed ":"%char) then
    open_rule st (colon_rule trimmed (fun _ => false))
  else command_or_close st trimmed.

Definition dice_step (st : PState) (line : string) : PState :=
  let trimmed := trim_whitespace line in
  if is_empty trimmed then close_rule st
  else if first_is "#"%char trimmed then with_mk st (store_comment (mk st) trimmed)
  else if is_assignment trimmed then
    let name := trim_whitespace (until_char trimmed "="%char) in
    let value := trim_whitespace (after_char trimmed "="%char) in
    let is_immediate := true in
    close_rule (with_mk st (add_variable (mk st) (mkVariable name value is_immediate)))
  else if found (strstr trimmed "::") then
    let targets := trim_whitespace (until_str trimmed "::") in
    let deps := trim_whitespace (match strstr trimmed "::" with
                                 | Some p => skip 2 p
                                 | None => EmptyString
                                 end) in
    open_rule st (mkRule targets deps [] false true)
  else if found (strchr trimmed ":"%char) then
    open_rule st (colon_rule trimmed (fun _ => false))
  else command_or_close st trimmed.

Definition start (m : Makefile) : PState := mkPState false None m.

Definition parse_gnu_makefile (lines : list string) (m : Makefile) : Makefile :=
  mk (fold_left gnu_step lines (start m)).

Definition parse_sas_makefile (lines : list string) (m : Makefile) : Makefile :=
  mk (fold_left sas_step lines (start m)).

Definition parse_dice_makefile (lines : list string) (m : Makefile) : Makefile :=
  mk (fold_left dice_step lines (start m)).

(** *** The Lattice parser

    Besides the shared loop variables it keeps the continuation buffer
    [full_line] with its recorded length, and the WITH block flag.  The
    buffer is edited in place by [trim_whitespace] and by the NUL written
    over ['='] or [':']; [full_line] is what the buffer reads as from its
    start, which is what a later [strcat] appends to. *)
Record LState : Set := mkLState {
  ps : PState;
  in_with_block : bool;
  in_continuation : bool;
  full_line : string;
  full_line_len : nat
}.

(** The blanks [trim_whitespace] steps over at the start of the buffer. *)
Fixpoint lead_blanks (s : string) : string :=
  match s with
  | EmptyString => EmptyString
  | String c r => if is_blank c then String c (lead_blanks r) else EmptyString
  end.

(** [sizeof(full_line) - 1] *)
Definition FULL_LINE_ROOM : nat := MAX_LINE_LENGTH * 4 - 1.

(** A branch that ends in [continue]: the buffer is left as edited. *)
Definition keep_buffer (st : LState) (p : PState) (with_block : bool) (buffer : string) : LState :=
  mkLState p with_block (in_continuation st) buffer (full_line_len st).

(** A branch that reaches the end of the loop body: the buffer is reset. *)
Definition reset_buffer (st : LState) (p : PState) : LState :=
  mkLState p (in_with_block st) (in_continuation st) EmptyString 0.

(** The last branches of the Lattice loop body: a command line of the open
    rule, a line of a WITH block, which goes to the last rule stored, or
    the end of the open rule. *)
Definition lattice_command_or_with (st : LState) (trimmed : string) : LState :=
  let p := ps st in
  match in_rule p, current_rule p, first_is TAB trimmed || first_is SPACE trimmed with
  | true, Some idx, true =>
      let command := skip_whitespace trimmed in
      reset_buffer st (with_mk p (add_command (mk p) idx (nonempty command) command))
  | _, _, _ =>
      if in_with_block st then
        if 0 <? rule_count (mk p) then
          let idx := rule_count (mk p) - 1 in
          reset_buffer st (mkPState (in_rule p) (Some idx) (add_command (mk p) idx true trimmed))
        else reset_buffer st p
      else reset_buffer st (close_rule p)
  end.

(** The loop body from [trim_whitespace(full_line)] on. *)
Definition lattice_process (st : LState) : LState :=
  let trimmed := trim_whitespace (full_line st) in
  let lead := lead_blanks (full_line st) in
  let p := ps st in
  if is_empty trimmed then
    if in_with_block st
    then keep_buffer st p false (full_line st)
    else keep_buffer st (close_rule p) (in_with_block st) (full_line st)
  else if first_is ";"%char trimmed then
    keep_buffer st (with_mk p (store_comment (mk p) trimmed)) (in_with_block st) (lead +:+ trimmed)
  else if ieq trimmed "WITH" then
    keep_buffer st p true (lead +:+ trimmed)
  else if is_assignment trimmed then
    let name := trim_whitespace (until_char trimmed "="%char) in
    let value := trim_whitespace (after_char trimmed "="%char) in
    keep_buffer st (close_rule (with_mk p (add_variable (mk p) (mkVariable name value false))))
                (in_with_block st) (lead +:+ name)
  else if is_dot_rule trimmed then
    keep_buffer st (open_rule p dot_rule) (in_with_block st) (lead +:+ trimmed)
  else if found (strchr trimmed ":"%char) then
    keep_buffer st (open_rule p (colon_rule trimmed (fun _ => false))) (in_with_block st)
                (lead +:+ trim_whitespace (until_char trimmed ":"%char))
  else lattice_command_or_with st trimmed.

(** The whole loop body: the continuation handling, then the logical line. *)
Definition lattice_step (st : LState) (line : string) : LState :=
  let line_len := String.length line in
  if (0 <? line_len) &&
     match last_char line with Some c => Ascii.eqb c "\"%char | None => false end
  then
    if full_line_len st + line_len <? FULL_LINE_ROOM
    then mkLState (ps st) (in_with_block st) true
                  (full_line st +:+ chop line) (full_line_len st + (line_len - 1))
    else lattice_process st
  else if in_continuation st then
    if full_line_len st + line_len <? FULL_LINE_ROOM
    then lattice_process (mkLState (ps st) (in_with_block st) false
                                   (full_line st +:+ line) (full_line_len st + line_len))
    else lattice_process (mkLState (ps st) (in_with_block st) false
                                   (full_line st) (full_line_len st))
  else lattice_process (mkLState (ps st) (in_with_block st) (in_continuation st) line line_len).

Definition lattice_start (m : Makefile) : LState :=
  mkLState (start m) false false EmptyString 0.

Definition parse_lattice_makefile (lines : list string) (m : Makefile) : Makefile :=
  mk (ps (fold_left lattice_step lines (lattice_start m))).

(** [parse_makefile]: [file] is [None] when [Open] fails; the result is
    [None] when the function returns FALSE. *)
Definition parse_makefile (filename : string) (file : option (list string))
    (makefile : Makefile) : option Makefile :=
  match file with
  | None => None
  | Some lines =>
      let m := mkMakefile (format makefile) (Some filename) (variables makefile)
                          (rules makefile) (comments makefile) in
      match format makefile with
      | FORMAT_GNU_MAKE => Some (parse_gnu_makefile lines m)
      | FORMAT_SAS_C => Some (parse_sas_makefile lines m)
      | FORMAT_DICE => Some (parse_dice_makefile lines m)
      | FORMAT_LATTICE => Some (parse_lattice_makefile lines m)
      | FORMAT_UNKNOWN => None
      end
  end.

(** ** Option and command mapping *)

(** A block of [map_compiler_option] either returns ([Some]) or is left
    without a match ([None]) and control reaches the next block. *)
Definition or_next (block : option string) (next : string) : string :=
  match block with Some r => r | None => next end.

(** [if (to == ...) new_option = ...; else if ... else return result;]
    a target that is not listed gets the copy of the option back. *)
Definition per_target (to : MakefileFormat) (gnu sas dice lattice : option string)
    (result : string) : string :=
  let chosen := match to with
                | FORMAT_GNU_MAKE => gnu
                | FORMAT_SAS_C => sas
                | FORMAT_DICE => dice
                | FORMAT_LATTICE => lattice
                | FORMAT_UNKNOWN => None
                end in
  match chosen with Some new_option => new_option | None => result end.

Definition lattice_to_sas (opt : string) : option string :=
  if ieq opt "-O" then Some "OPTIMIZE"
  else if ieq opt "-DNONAMES" then Some "NOSTANDARDIO"
  else if found (strstr opt "-DDEFBLOCKING=") then Some EmptyString
  else if found (strstr opt "-I") then Some ("INCLUDEDIR=" +:+ skip 2 opt +:+ ":")
  else if ieq opt "-v" then Some "VERBOSE"
  else if ieq opt "-d2" || ieq opt "-y" then Some "DEBUG=L"
  else if ieq opt "-ms" then Some "DATA=NEAR"
  else if found (strstr opt "-D") then Some ("DEF=" +:+ skip 2 opt)
  else if ieq opt "-w" then Some "IGN=A"
  else if ieq opt "-g" then Some "DEBUG=FF"
  else if ieq opt "-c" then Some "OBJNAME"
  else if ieq opt "-E" then Some "PPONLY"
  else if ieq opt "-a" then Some "DISASM"
  else None.

Definition lattice_to_dice (opt : string) : option string :=
  if ieq opt "-O" then Some "-O"
  else if ieq opt "-DNONAMES" then Some EmptyString
  else if found (strstr opt "-DDEFBLOCKING=") then Some EmptyString
  else if found (strstr opt "-I") then Some opt
  else if ieq opt "-v" then Some "-v"
  else if ieq opt "-d2" || ieq opt "-y" then Some "-d1"
  else if ieq opt "-ms" then Some "-ms"
  else if found (strstr opt "-D") then Some opt
  else if ieq opt "-w" then Some EmptyString
  else if ieq opt "-g" then Some "-s -d1"
  else if ieq opt "-c" then Some "-c"
  else if ieq opt "-E" then Some "-E"
  else if ieq opt "-a" then Some "-a"
  else None.

Definition lattice_to_gnu (opt : string) : option string :=
  if ieq opt "-O" then Some "-O2"
  else if ieq opt "-DNONAMES" then Some EmptyString
  else if found (strstr opt "-DDEFBLOCKING=") then Some EmptyString
  else if found (strstr opt "-I") then Some opt
  else if ieq opt "-v" then Some "-v"
  else if ieq opt "-d2" || ieq opt "-y" then Some "-g"
  else if ieq opt "-ms" then Some "-m68000"
  else if found (strstr opt "-D") then Some opt
  else if ieq opt "-w" then Some "-w"
  else if ieq opt "-g" then Some "-g"
  else if ieq opt "-c" then Some "-c"
  else if ieq opt "-E" then Some "-E"
  else if ieq opt "-a" then Some "-S"
  else None.

(** [new_option[strlen(new_option) - 1] == ':'] then cut. *)
Definition drop_final_colon (s : string) : string :=
  match last_char s with
  | Some c => if Ascii.eqb c ":"%char then chop s else s
  | None => s
  end.

Definition from_sas (opt : string) (to : MakefileFormat) : option string :=
  if ieq opt "OPTIMIZE" then Some (per_target to (Some "-O2") None (Some "-O") (Some "-O") opt)
  else if ieq opt "NOSTANDARDIO" then Some EmptyString
  else if found (strstr opt "INCLUDEDIR=") then Some (drop_final_colon ("-I" +:+ skip 11 opt))
  else if ieq opt "DEBUG=L" then Some (per_target to (Some "-g") None (Some "-d1") (Some "-d2") opt)
  else if ieq opt "DATA=NEAR" then Some (per_target to (Some "-m68000") None (Some "-ms") (Some "-ms") opt)
  else if ieq opt "VERBOSE" then Some (per_target to (Some "-v") None (Some "-v") (Some "-v") opt)
  else if ieq opt "IGN=A" then Some (per_target to (Some "-w") None (Some EmptyString) (Some "-w") opt)
  else if found (strstr opt "DEF=") then Some ("-D" +:+ skip 4 opt)
  else if ieq opt "OBJNAME" then Some (per_target to (Some "-c") None (Some "-c") (Some "-c") opt)
  else if ieq opt "PPONLY" then Some (per_target to (Some "-E") None (Some "-E") (Some "-E") opt)
  else if ieq opt "DISASM" then Some (per_target to (Some "-S") None (Some "-a") (Some "-a") opt)
  else None.

Definition from_dice (opt : string) (to : MakefileFormat) : option string :=
  if ieq opt "-O" then Some (per_target to (Some "-O2") (Some "OPTIMIZE") None (Some "-O") opt)
  else if ieq opt "-d1" then Some (per_target to (Some "-g") (Some "DEBUG=L") None (Some "-d2") opt)
  else if ieq opt "-ms" then Some (per_target to (Some "-m68000") (Some "DATA=NEAR") None (Some "-ms") opt)
  else if found (strstr opt "-D") then Some opt
  else if ieq opt "-v" then Some (per_target to (Some "-v") (Some "VERBOSE") None (Some "-v") opt)
  else if ieq opt "-c" then Some (per_target to (Some "-c") (Some "OBJNAME") None (Some "-c") opt)
  else if ieq opt "-E" then Some (per_target to (Some "-E") (Some "PPONLY") None (Some "-E") opt)
  else if ieq opt "-a" then Some (per_target to (Some "-S") (Some "DISASM") None (Some "-a") opt)
  else if ieq opt "-s" then Some (per_target to (Some "-g") (Some "DEBUG=FF") None (Some "-g") opt)
  else None.

Definition from_gnu (opt : string) (to : MakefileFormat) : option string :=
  if ieq opt "-O2" then Some (per_target to None (Some "OPTIMIZE") (Some "-O") (Some "-O") opt)
  else if ieq opt "-g" then Some (per_target to None (Some "DEBUG=L") (Some "-d1") (Some "-d2") opt)
  else if ieq opt "-m68000" then Some (per_target to None (Some "DATA=NEAR") (Some "-ms") (Some "-ms") opt)
  else if found (strstr opt "-D") then Some opt
  else if ieq opt "-v" then Some (per_target to None (Some "VERBOSE") (Some "-v") (Some "-v") opt)
  else if ieq opt "-w" then Some (per_target to None (Some "IGN=A") (Some EmptyString) (Some "-w") opt)
  else if ieq opt "-c" then Some (per_target to None (Some "OBJNAME") (Some "-c") (Some "-c") opt)
  else if ieq opt "-E" then Some (per_target to None (Some "PPONLY") (Some "-E") (Some "-E") opt)
  else if ieq opt "-S" then Some (per_target to None (Some "DISASM") (Some "-a") (Some "-a") opt)
  else None.

Definition when (cond : bool) (block : option string) : option string :=
  if cond then block else None.

Definition map_compiler_option (opt : string) (from to : MakefileFormat) : string :=
  or_next (when (format_eqb from FORMAT_LATTICE && format_eqb to FORMAT_SAS_C) (lattice_to_sas opt))
 (or_next (when (format_eqb from FORMAT_LATTICE && format_eqb to FORMAT_DICE) (lattice_to_dice opt))
 (or_next (when (format_eqb from FORMAT_LATTICE && format_eqb to FORMAT_GNU_MAKE) (lattice_to_gnu opt))
 (or_next (when (format_eqb from FORMAT_SAS_C) (from_sas opt to))
 (or_next (when (format_eqb from FORMAT_DICE) (from_dice opt to))
 (or_next (when (format_eqb from FORMAT_GNU_MAKE) (from_gnu opt to))
  opt))))).

(** The loop that steps over spaces. *)
Fixpoint skip_spaces (s : string) : string :=
  match s with
  | String c r => if Ascii.eqb c SPACE then skip_spaces r else s
  | EmptyString => EmptyString
  end.

(** The loop that runs to the next space or to the terminator: the
    characters passed and the position reached. *)
Fixpoint scan_token (s : string) : string * string :=
  match s with
  | String c r =>
      if Ascii.eqb c SPACE then (EmptyString, s)
      else let (tok, rest) := scan_token r in (String c tok, rest)
  | EmptyString => (EmptyString, EmptyString)
  end.

(** A string in an allocation of a size the source computes itself:
    [built_text] is what the copies into it have written from its start,
    [overrun] is set once a string with its terminator did not fit into
    the allocation.  What the program does after an overrun is not defined
    by its text; the model goes on with the bytes written. *)
Record Built : Set := mkBuilt {
  built_text : string;
  overrun : bool
}.

(** [AllocVec(size, MEMF_CLEAR)]: the allocation reads as the empty
    string, which takes one byte. *)
Definition cleared (size : nat) : Built :=
  mkBuilt EmptyString (negb (0 <? size)).

(** [strcat(dest, src)] for a destination of [size] bytes. *)
Definition strcat_in (size : nat) (dest : Built) (src : string) : Built :=
  mkBuilt (built_text dest +:+ src)
          (overrun dest
           || negb (String.length (built_text dest) + String.length src <? size)).

(** The outer loop of [convert_cflags]; every round passes at least one
    character, [fuel] bounds the rounds.  [size] is the size of the
    allocation of [new_flags]. *)
Fixpoint cflags_loop (fuel : nat) (current : string) (from to : MakefileFormat)
    (size : nat) (new_flags : Built) (first_option : bool) : Built :=
  match fuel with
  | O => new_flags
  | S fuel' =>
      if is_empty current then new_flags
      else
        let current1 := skip_spaces current in
        if is_empty current1 then new_flags
        else
          let (opt, current2) := scan_token current1 in
          let mapped_option := map_compiler_option opt from to in
          if nonempty mapped_option
          then cflags_loop fuel' current2 from to size
                 (strcat_in size
                    (if first_option then new_flags else strcat_in size new_flags " ")
                    mapped_option)
                 false
          else cflags_loop fuel' current2 from to size new_flags first_option
  end.

(** [convert_cflags]: for equal dialects the copy [my_strdup] made, which
    fits; otherwise [new_flags], allocated with twice the length of
    [flags]. *)
Definition convert_cflags (flags : string) (from to : MakefileFormat) : Built :=
  if format_eqb from to then mkBuilt flags false
  else let flags_len := String.length flags in
       cflags_loop flags_len flags from to (flags_len * 2) (cleared (flags_len * 2)) true.

(** While the argument starts with ['-']: the flag is passed, then the
    spaces after it. *)
Fixpoint skip_flags (fuel : nat) (args : string) : string :=
  match fuel with
  | O => args
  | S fuel' =>
      if first_is "-"%char args
      then skip_flags fuel' (skip_spaces (snd (scan_token args)))
      else args
  end.

(** The argument scan of the delete rewriting: the program name, the
    spaces after it and the leading flags are passed. *)
Definition rm_arguments (command : string) : string :=
  let args := skip_spaces (snd (scan_token command)) in
  skip_flags (String.length args) args.

Definition map_command (command : string) (from to : MakefileFormat) : string :=
  let compiler :=
    if found (strstr command "gcc") && negb (format_eqb to FORMAT_GNU_MAKE) then
      match to with
      | FORMAT_SAS_C => Some ("sc " +:+ skip 4 command +:+ " OBJNAME=$*.o")
      | FORMAT_DICE => Some ("dcc " +:+ skip 4 command)
      | FORMAT_LATTICE => Some ("lc " +:+ skip 4 command)
      | _ => None
      end
    else None in
  let linker :=
    if found (strstr command "blink") && format_eqb to FORMAT_SAS_C then
      Some ("slink " +:+ skip 6 command)
    else if found (strstr command "slink") && negb (format_eqb to FORMAT_SAS_C) then
      match to with
      | FORMAT_GNU_MAKE => Some ("cc " +:+ "-o program")
      | _ => None
      end
    else None in
  let file_operation :=
    if found (strstr command "rm") && negb (format_eqb to FORMAT_GNU_MAKE) then
      match to with
      | FORMAT_SAS_C =>
          (* the wildcard loop only moves [args] to the terminator, so
             the whole rest is appended *)
          Some ("delete " +:+ rm_arguments command +:+ " QUIET")
      | FORMAT_DICE => Some ("delete " +:+ rm_arguments command)
      | FORMAT_LATTICE => Some ("Delete " +:+ rm_arguments command)
      | _ => None
      end
    else None in
  or_next compiler (or_next linker (or_next file_operation command)).

(** ** Emitters

    The output of an emitter is the sequence of its [FPrintf] calls: the
    format string and the string arguments of each. *)

Record Call : Set := mkCall {
  fmt : string;
  args : list string
}.

Definition format_to_string (f : MakefileFormat) : string :=
  match f with
  | FORMAT_GNU_MAKE => "GNU Make"
  | FORMAT_SAS_C => "SAS/C"
  | FORMAT_DICE => "DICE"
  | FORMAT_LATTICE => "Lattice"
  | FORMAT_UNKNOWN => "Unknown"
  end.

Definition newline_call : Call := mkCall (String NL EmptyString) [].

(** Formats are written with the line feed spelled out. *)
Definition ln (s : string) : string := s +:+ String NL EmptyString.
Definition tabbed (s : string) : string := String TAB s.

Definition plain_variable (v : Var) : Call :=
  mkCall (ln "%s = %s") [name v; value v].

Definition gnu_variable (v : Var) : Call :=
  if ieq (name v) "CC" then
    if ieq (value v) "sc" || ieq (value v) "lc" then mkCall (ln "CC = cc") []
    else if ieq (value v) "dcc" then mkCall (ln "CC = cc") []
    else mkCall (ln "CC = %s") [value v]
  else plain_variable v.

Definition sas_variable (source_format : MakefileFormat) (v : Var) : Call :=
  if ieq (name v) "CC" then
    if ieq (value v) "gcc" || ieq (value v) "cc" then mkCall (ln "CC = sc") []
    else if ieq (value v) "dcc" then mkCall (ln "CC = sc") []
    else if ieq (value v) "lc" then mkCall (ln "CC = sc") []
    else mkCall (ln "CC = %s") [value v]
  else if ieq (name v) "CFLAGS" then
    mkCall (ln "CFLAGS = %s")
           [built_text (convert_cflags (value v) source_format FORMAT_SAS_C)]
  else plain_variable v.

Definition dice_variable (v : Var) : Call :=
  if ieq (name v) "CC" then
    if ieq (value v) "gcc" || ieq (value v) "cc" then mkCall (ln "CC = dcc") []
    else if ieq (value v) "sc" then mkCall (ln "CC = dcc") []
    else if ieq (value v) "lc" then mkCall (ln "CC = dcc") []
    else mkCall (ln "CC = %s") [value v]
  else plain_variable v.

Definition lattice_variable (v : Var) : Call :=
  if ieq (name v) "CC" then
    if ieq (value v) "gcc" || ieq (value v) "cc" then mkCall (ln "CC = lc") []
    else if ieq (value v) "sc" then mkCall (ln "CC = lc") []
    else if ieq (value v) "dcc" then mkCall (ln "CC = lc") []
    else mkCall (ln "CC = %s") [value v]
  else plain_variable v.

(** [if (source->variable_count > 0) FPrintf(output, "\n");] *)
Definition after_variables (source : Makefile) : list Call :=
  if 0 <? variable_count source then [newline_call] else [].

Definition regular_header (rule : Rule) : Call :=
  mkCall (ln "%s: %s") [targets rule; dependencies rule].

Definition command_calls (rule : Rule) (from to : MakefileFormat) : list Call :=
  map (fun c => mkCall (tabbed (ln "%s")) [map_command (command c) from to]) (commands rule).

(** The header of a rule in [convert_to_gnu_make]: a pattern rule of a
    source that is neither SAS/C, Lattice nor DICE gets no header. *)
Definition gnu_header (source_format : MakefileFormat) (rule : Rule) : list Call :=
  if is_pattern_rule rule then
    if format_eqb source_format FORMAT_SAS_C || format_eqb source_format FORMAT_LATTICE
    then [mkCall (ln "%.o: %.c") []]
    else if format_eqb source_format FORMAT_DICE
    then [mkCall (ln "%.o: %.c") []]
    else []
  else [regular_header rule].

Definition sas_header (source_format : MakefileFormat) (rule : Rule) : list Call :=
  if is_pattern_rule rule then
    if format_eqb source_format FORMAT_GNU_MAKE then [mkCall (ln ".c.o:") []]
    else if format_eqb source_format FORMAT_DICE then [mkCall (ln ".c.o:") []]
    else [mkCall (ln ".c.o:") []]
  else [regular_header rule].

Definition dice_header (source_format : MakefileFormat) (rule : Rule) : list Call :=
  if is_pattern_rule rule then
    if format_eqb source_format FORMAT_GNU_MAKE then [mkCall (ln "%(left): %(right)") []]
    else if format_eqb source_format FORMAT_SAS_C || format_eqb source_format FORMAT_LATTICE
    then [mkCall (ln "%(left): %(right)") []]
    else [mkCall (ln "%(left): %(right)") []]
  else if is_dice_form4 rule then
    [mkCall (ln "%s :: %s") [targets rule; dependencies rule]]
  else [regular_header rule].

Definition lattice_header (source_format : MakefileFormat) (rule : Rule) : list Call :=
  if is_pattern_rule rule then
    if format_eqb source_format FORMAT_GNU_MAKE then [mkCall (ln ".c.o:") []]
    else if format_eqb source_format FORMAT_SAS_C then [mkCall (ln ".c.o:") []]
    else if format_eqb source_format FORMAT_DICE then [mkCall (ln ".c.o:") []]
    else [mkCall (ln ".c.o:") []]
  else [regular_header rule].

Definition sas_placeholder : Call :=
  mkCall (tabbed (ln "; No commands specified - may need manual conversion")) [].

Definition gnu_rule (source_format : MakefileFormat) (rule : Rule) : list Call :=
  gnu_header source_format rule
  ++ command_calls rule source_format FORMAT_GNU_MAKE
  ++ [newline_call].

Definition sas_rule (source_format : MakefileFormat) (rule : Rule) : list Call :=
  sas_header source_format rule
  ++ (if 0 <? command_count rule
      then command_calls rule source_format FORMAT_SAS_C
      else [sas_placeholder])
  ++ [newline_call].

Definition dice_rule (source_format : MakefileFormat) (rule : Rule) : list Call :=
  dice_header source_format rule
  ++ command_calls rule source_format FORMAT_DICE
  ++ [newline_call].

Definition lattice_rule (source_format : MakefileFormat) (rule : Rule) : list Call :=
  lattice_header source_format rule
  ++ command_calls rule source_format FORMAT_LATTICE
  ++ [newline_call].

Definition convert_to_gnu_make (source : Makefile) : list Call :=
  [ mkCall (ln "# Converted to GNU Make format from %s") [format_to_string (format source)];
    mkCall (ln (ln "# Generated by GenMaki")) [] ]
  ++ map gnu_variable (variables source)
  ++ after_variables source
  ++ flat_map (gnu_rule (format source)) (rules source).

Definition convert_to_sas_make (source : Makefile) : list Call :=
  [ mkCall (ln "; Converted to SAS/C SMakefile format from %s") [format_to_string (format source)];
    mkCall (ln (ln "; Generated by GenMaki")) [] ]
  ++ map (sas_variable (format source)) (variables source)
  ++ after_variables source
  ++ flat_map (sas_rule (format source)) (rules source).

Definition convert_to_dice_make (source : Makefile) : list Call :=
  [ mkCall (ln "# Converted to DICE dmakefile format from %s") [format_to_string (format source)];
    mkCall (ln (ln "# Generated by GenMaki")) [] ]
  ++ map dice_variable (variables source)
  ++ after_variables source
  ++ flat_map (dice_rule (format source)) (rules source).

Definition convert_to_lattice_make (source : Makefile) : list Call :=
  [ mkCall (ln "; Converted to Lattice lmkfile format from %s") [format_to_string (format source)];
    mkCall (ln (ln "; Generated by GenMaki")) [] ]
  ++ map lattice_variable (variables source)
  ++ after_variables source
  ++ flat_map (lattice_rule (format source)) (rules source).

(** The [switch] of [convert_makefile]; [None] is [success = FALSE]. *)
Definition convert (source : Makefile) (target_format : MakefileFormat) : option (list Call) :=
  match target_format with
  | FORMAT_GNU_MAKE => Some (convert_to_gnu_make source)
  | FORMAT_SAS_C => Some (convert_to_sas_make source)
  | FORMAT_DICE => Some (convert_to_dice_make source)
  | FORMAT_LATTICE => Some (convert_to_lattice_make source)
  | FORMAT_UNKNOWN => None
  end.

(** The text of a call: each [%s] takes the next argument, the rest of the
    format is copied. *)
Fixpoint render (f : string) (a : list string) : string :=
  match f with
  | String "%" (String "s" r) =>
      match a with
      | x :: a' => x +:+ render r a'
      | [] => render r []
      end
  | String c r => String c (render r a)
  | EmptyString => EmptyString
  end.

Definition text_of (c : Call) : string := render (fmt c) (args c).

Definition emitted_text (out : list Call) : string :=
  fold_right (fun c acc => text_of c +:+ acc) EmptyString out.

(** The kinds of output lines, told apart by the format of the call. *)
Definition is_variable_line (c : Call) : bool :=
  existsb (String.eqb (fmt c))
          [ln "%s = %s"; ln "CC = %s"; ln "CFLAGS = %s";
           ln "CC = cc"; ln "CC = sc"; ln "CC = dcc"; ln "CC = lc"].

Definition is_rule_header_line (c : Call) : bool :=
  existsb (String.eqb (fmt c))
          [ln "%s: %s"; ln "%s :: %s"; ln "%.o: %.c"; ln ".c.o:"; ln "%(left): %(right)"].

Definition is_command_line (c : Call) : bool :=
  String.eqb (fmt c) (tabbed (ln "%s")).

Definition count_lines (kind : Call -> bool) (out : list Call) : nat :=
  length (List.filter kind out).

(** ** The driver

    What [main] does is a trace of events: the [Printf] calls, which write
    diagnostics to the standard output of the process, and the [FPrintf]
    calls of the emitter with the stream they go to ([None] is [Output()],
    [Some f] the file opened for the TO argument). *)

Inductive Arg : Set :=
| AStr (s : string)
| ANum (n : nat).

Inductive Event : Set :=
| Printf (f : string) (a : list Arg)
| FPrintf (output : option string) (c : Call).

(** The part of the system the program reads: the content of a file that
    [Open(name, MODE_OLDFILE)] opens, whether [Open(name, MODE_NEWFILE)]
    succeeds, and whether utility.library opens. *)
Record Env : Type := mkEnv {
  open_old : string -> option string;
  open_new : string -> bool;
  utility_library : bool
}.

(** The result of [ReadArgs] on the template
    FROM/K,TO/K,FILETYPE/K,VERBOSE/S,HELP/S. *)
Record Args : Set := mkArgs {
  rda : bool;
  arg_from : option string;
  arg_to : option string;
  arg_filetype : option string;
  arg_verbose : bool;
  arg_help : bool
}.

Definition RETURN_OK : Z := 0.
Definition RETURN_ERROR : Z := 10.

Definition parse_filetype_string (filetype : string) : MakefileFormat :=
  if ieq filetype "smake" || ieq filetype "smakefile" || ieq filetype "sasc"
  then FORMAT_SAS_C
  else if ieq filetype "dmake" || ieq filetype "dmakefile" || ieq filetype "dice"
  then FORMAT_DICE
  else if ieq filetype "makefile" || ieq filetype "make" || ieq filetype "gnumakefile"
          || ieq filetype "gnu" || ieq filetype "gcc"
  then FORMAT_GNU_MAKE
  else if ieq filetype "lmk" || ieq filetype "lmkfile" || ieq filetype "lattice"
  then FORMAT_LATTICE
  else FORMAT_UNKNOWN.

(** The [switch] on the source format when no FILETYPE is given; [None]
    is the [default:] branch, which ends the run with an error. *)
Definition default_target (source_format : MakefileFormat) : option MakefileFormat :=
  match source_format with
  | FORMAT_GNU_MAKE | FORMAT_LATTICE => Some FORMAT_SAS_C
  | FORMAT_DICE | FORMAT_SAS_C => Some FORMAT_GNU_MAKE
  | FORMAT_UNKNOWN => None
  end.

Definition candidates : list string :=
  [ "makefile"; "Makefile"; "MAKEFILE"; "GNUmakefile";
    "smakefile"; "SMakefile"; "SMAKEFILE";
    "dmakefile"; "Dmakefile"; "DMAKEFILE";
    "lmkfile"; "LMKFILE" ].

(** [find_makefile]: the name found, and what it prints. *)
Definition find_makefile (env : Env) : option string * list Event :=
  let found_files :=
    List.filter (fun c => match open_old env c with Some _ => true | None => false end)
                candidates in
  match found_files with
  | [] => (None, [])
  | [result] => (Some result, [])
  | _ =>
      (None,
       [Printf (ln "GenMaki: Multiple makefiles found in current directory:") []]
       ++ map (fun f => Printf (ln "  %s") [AStr f]) found_files
       ++ [Printf (ln "GenMaki: Please specify which file to convert using FROM=filename") []])
  end.

Definition print_usage : list Event :=
  map (fun l => Printf (ln l) [])
    [ "Usage: GenMaki [FROM=file] [TO=file] [FILETYPE=format] [VERBOSE] [HELP]";
      EmptyString;
      "Arguments:";
      "  FROM=file      - Input makefile (optional, auto-detects if not specified)";
      "  TO=file        - Output filename (if not specified, outputs to stdout)";
      "  FILETYPE=format - Target format (optional, uses defaults if not specified)";
      "  VERBOSE        - Show detailed conversion information and warnings";
      "  HELP           - Show this help message";
      EmptyString;
      "Supported formats:";
      "  smake, smakefile, sasc    - SAS/C SMakefile format";
      "  dmake, dmakefile, dice    - DICE dmakefile format";
      "  makefile, make, gnu, gcc  - GNU Makefile format";
      "  lmk, lmkfile, lattice     - Lattice lmkfile format";
      EmptyString;
      "Default conversions:";
      "  GNU Makefile -> SAS/C SMakefile";
      "  Lattice lmkfile -> SAS/C SMakefile";
      "  DICE dmakefile -> GNU Makefile";
      "  SAS/C smakefile -> GNU Makefile";
      EmptyString;
      "Examples:";
      "  GenMaki                                    # Auto-detect and convert";
      "  GenMaki FROM=makefile FILETYPE=sasc SAVE   # Convert to SAS/C format";
      "  GenMaki FROM=lmkfile TO=Makefile SAVE      # Convert to GNU Make" ].

(** [if (config.verbose) Printf(...)] *)
Definition trace (verbose : bool) (f : string) (a : list Arg) : list Event :=
  if verbose then [Printf f a] else [].

Definition or_NULL (s : option string) : Arg :=
  match s with Some x => AStr x | None => AStr "NULL" end.

(** [convert_makefile]: the events and the value returned. *)
Definition convert_makefile (env : Env) (source : Makefile) (target_format : MakefileFormat)
    (output_file : option string) : list Event * bool :=
  let opened := match output_file with
                | Some f => open_new env f
                | None => true
                end in
  if negb opened
  then ([Printf (ln "GenMaki: Failed to create output file '%s'")
                [or_NULL output_file]], false)
  else match convert source target_format with
       | Some calls => (map (FPrintf output_file) calls, true)
       | None => ([], false)
       end.

(** The run from the parsed makefile on. *)
Definition main_convert (env : Env) (a : Args) (input_file : string)
    (target_format : MakefileFormat) (source_makefile : Makefile) : list Event * Z :=
  let verbose := arg_verbose a in
  let save_to_file := match arg_to a with Some _ => true | None => false end in
  let output_file := arg_to a in
  let (written, ok) := convert_makefile env source_makefile target_format output_file in
  let before := trace verbose (ln "GenMaki: Starting conversion...") [] ++ written in
  if negb ok
  then (before ++ [Printf (ln "GenMaki: Failed to convert makefile") []], RETURN_ERROR)
  else
    (before
     ++ trace verbose (ln "GenMaki: Conversion completed successfully") []
     ++ (if save_to_file
         then [Printf (ln "GenMaki: Successfully converted to '%s'") [or_NULL output_file]]
         else [Printf (ln "GenMaki: Conversion completed") []]),
     RETURN_OK).

(** The run from the detection of the source format on. *)
Definition main_detect (env : Env) (a : Args) (input_file : string) : list Event * Z :=
  let verbose := arg_verbose a in
  let file := option_map FGets_lines (open_old env input_file) in
  let source_format := detect_format file in
  let t0 := trace verbose (ln "GenMaki: Detecting format of '%s'...") [AStr input_file] in
  if format_eqb source_format FORMAT_UNKNOWN
  then (t0 ++ [Printf (ln "GenMaki: Unable to determine makefile format for '%s'")
                      [AStr input_file]], RETURN_ERROR)
  else
    let source_makefile := empty_makefile source_format in
    let t1 := t0
      ++ trace verbose (ln "GenMaki: Detected source format: %s")
               [AStr (format_to_string source_format)]
      ++ trace verbose (ln "GenMaki: Found %ld variables, %ld rules")
               [ANum (variable_count source_makefile); ANum (rule_count source_makefile)] in
    let target :=
      match arg_filetype a with
      | Some filetype =>
          match parse_filetype_string filetype with
          | FORMAT_UNKNOWN =>
              inl [Printf (ln "GenMaki: Unknown target format '%s'") [AStr filetype]]
          | t => inr t
          end
      | None =>
          match default_target source_format with
          | Some t => inr t
          | None => inl [Printf (ln "GenMaki: No default target format for source format") []]
          end
      end in
    match target with
    | inl failure => (t1 ++ failure, RETURN_ERROR)
    | inr target_format =>
        let t2 := t1 ++ trace verbose (ln "GenMaki: Target format: %s")
                              [AStr (format_to_string target_format)] in
        match parse_makefile input_file file source_makefile with
        | None =>
            (t2 ++ [Printf (ln "GenMaki: Failed to parse makefile '%s'") [AStr input_file]],
             RETURN_ERROR)
        | Some parsed =>
            let t3 := t2 ++ trace verbose (ln "GenMaki: Parsed %ld variables and %ld rules")
                                  [ANum (variable_count parsed); ANum (rule_count parsed)] in
            let (t4, retcode) := main_convert env a input_file target_format parsed in
            (t3 ++ t4, retcode)
        end
    end.

Definition main (env : Env) (a : Args) : list Event * Z :=
  if arg_help a then (print_usage, RETURN_OK)
  else if negb (rda a) then ([Printf (ln "GenMaki: Invalid arguments") []], RETURN_ERROR)
  else
    let verbose := arg_verbose a in
    let t0 :=
      trace verbose (ln "GenMaki: ReadArgs successful") []
      ++ trace verbose (ln "GenMaki: Parsed arguments - FROM=%s, TO=%s, FILETYPE=%s")
               [or_NULL (arg_from a); or_NULL (arg_to a); or_NULL (arg_filetype a)]
      ++ trace verbose (ln "GenMaki: Opening utility.library...") [] in
    if negb (utility_library env)
    then (t0 ++ [Printf (ln "GenMaki: Failed to open utility.library") []], RETURN_OK)
    else
      let t1 := t0 ++ trace verbose (ln "GenMaki: Library opened successfully") [] in
      match arg_from a with
      | Some input_file =>
          let (t2, retcode) := main_detect env a input_file in (t1 ++ t2, retcode)
      | None =>
          let t2 := t1 ++ trace verbose
                      (ln "GenMaki: No input file specified, searching for makefiles...") [] in
          match find_makefile env with
          | (None, printed) =>
              (t2 ++ printed
               ++ [Printf (ln "GenMaki: No makefile found in current directory") [];
                   Printf (ln "GenMaki: Use FROM=filename to specify a makefile, or HELP for usage") []],
               RETURN_ERROR)
          | (Some found_file, printed) =>
              let t3 := t2 ++ printed
                        ++ trace verbose (ln "GenMaki: Found makefile: %s") [AStr found_file] in
              let (t4, retcode) := main_detect env a found_file in (t3 ++ t4, retcode)
          end
      end.

(** What the emitter wrote, and where. *)
Definition conversion_output (t : list Event) : list (option string * Call) :=
  flat_map (fun e => match e with
                     | FPrintf output c => [(output, c)]
                     | Printf _ _ => []
                     end) t.

(** What reaches the standard output of the process. *)
Definition is_stdout (e : Event) : bool :=
  match e with
  | Printf _ _ => true
  | FPrintf None _ => true
  | FPrintf (Some _) _ => false
  end.

(** * The vocabulary of the properties *)

(** The lines the detector looks at: the first fifty, trimmed, without the
    blank ones and those that start with ['#']. *)
Definition scanned (lines : list string) : list string :=
  List.filter (fun t => negb (is_empty t || first_is "#"%char t))
              (map trim_whitespace (firstn 50 lines)).

Definition flags_or (f : Flags) (ts : list string) : Flags :=
  mkFlags (found_gnu_syntax f || existsb gnu_signature ts)
          (found_dice_syntax f || existsb dice_signature ts)
          (found_sas_syntax f || existsb sas_signature ts)
          (found_lattice_syntax f || existsb lattice_signature ts).

(** Five lines that carry the signatures of all four dialects. *)
Definition mixed_lines : list string :=
  [ ln "prog: a.o"; ln "blink a.o"; ln ".c.o:"; ln "%.o: %.c"; ln "all :: prog" ].

(** The effect of one round of the GNU, SAS/C or DICE loop on the loop
    variables. *)
Inductive transition (st : PState) : PState -> Prop :=
| t_close : transition st (close_rule st)
| t_comment (t : string) : transition st (with_mk st (store_comment (mk st) t))
| t_variable (v : Var) : transition st (close_rule (with_mk st (add_variable (mk st) v)))
| t_rule (r : Rule) : commands r = [] -> transition st (open_rule st r)
| t_command (idx : nat) (cond : bool) (text : string) :
    current_rule st = Some idx ->
    transition st (with_mk st (add_command (mk st) idx cond text)).

(** The Lattice loop can also leave the loop variables alone or attach a
    line of a WITH block to the last rule. *)
Inductive lattice_transition (st : PState) : PState -> Prop :=
| lt_shared (st' : PState) : transition st st' -> lattice_transition st st'
| lt_stay : lattice_transition st st
| lt_with (text : string) :
    0 < rule_count (mk st) ->
    lattice_transition st
      (mkPState (in_rule st) (Some (rule_count (mk st) - 1))
                (add_command (mk st) (rule_count (mk st) - 1) true text)).

(** The effect of one round on the model. *)
Inductive update (m : Makefile) : Makefile -> Prop :=
| update_same : update m m
| update_comment (t : string) : update m (store_comment m t)
| update_variable (v : Var) : update m (add_variable m v)
| update_rule (r : Rule) :
    rule_count m < MAX_RULES -> commands r = [] ->
    update m (set_rules m (rules m ++ [r]))
| update_command (idx : nat) (cond : bool) (text : string) :
    update m (add_command m idx cond text).

Create HintDb parser.

Definition within_capacity (m : Makefile) : Prop :=
  variable_count m <= MAX_VARIABLES
  /\ rule_count m <= MAX_RULES
  /\ Forall (fun r => command_count r <= MAX_COMMANDS) (rules m).

(** What a rule is found by in the output: its header. *)
Definition header (r : Rule) : string * string * bool * bool :=
  (targets r, dependencies r, is_pattern_rule r, is_dice_form4 r).

(** What is full in [m] is the same in [m']: a full variable array keeps
    its content, a full rule array its length and the headers of its
    rules, a full command array of a rule its content. *)
Definition capped (m m' : Makefile) : Prop :=
  (variable_count m = MAX_VARIABLES -> variables m' = variables m)
  /\ (rule_count m = MAX_RULES ->
      rule_count m' = MAX_RULES /\ map header (rules m') = map header (rules m))
  /\ (forall (i : nat) (r : Rule),
        rules m !! i = Some r -> command_count r = MAX_COMMANDS ->
        exists r', rules m' !! i = Some r' /\ commands r' = commands r).

(** A C string holds no NUL. *)
Definition c_string (s : string) : Prop := strchr s NUL = None.

(** What an assignment line leaves behind: the line is cut at its first
    ['='], the two sides are trimmed, [quoting] is applied to the value,
    the variable is appended and no rule is open. *)
Definition assignment_outcome (quoting : string -> string) (immediate : bool)
    (t : string) (before after : PState) : Prop :=
  exists pre post : string,
    t = pre +:+ String "="%char post
    /\ strchr pre "="%char = None
    /\ variables (mk after)
       = variables (mk before)
         ++ [mkVariable (trim_whitespace pre) (quoting (trim_whitespace post)) immediate]
    /\ in_rule after = false
    /\ current_rule after = None
    /\ rules (mk after) = rules (mk before)
    /\ comments (mk after) = comments (mk before).

(** The value the specification describes: the text after the first ['='],
    trimmed, without one layer of surrounding double quotes. *)
Definition specified_unquote (v : string) : string :=
  match v with
  | String q r =>
      if Ascii.eqb q DQUOTE &&
         match last_char r with Some c => Ascii.eqb c DQUOTE | None => false end
      then chop r else v
  | EmptyString => v
  end.

Definition specified_value (t : string) : string :=
  specified_unquote (trim_whitespace (after_char t "="%char)).

Definition quoted (s : string) : string := String DQUOTE (s +:+ String DQUOTE EmptyString).

(** The rules in [base] are settled: they are the first rules of the model
    and [current_rule] does not point at one of them. *)
Definition frozen (base : list Rule) (st : PState) : Prop :=
  (exists extra, rules (mk st) = base ++ extra)
  /\ forall idx, current_rule st = Some idx -> length base <= idx.

(** [current_rule] points at the last rule stored. *)
Definition points_at_last (st : PState) : Prop :=
  forall idx, current_rule st = Some idx -> S idx = rule_count (mk st).

(** The last rule stored is not in [base]. *)
Definition last_free (base : list Rule) (st : PState) : Prop :=
  0 < rule_count (mk st) -> length base < rule_count (mk st).

Definition settled (base : list Rule) (st : PState) : Prop :=
  frozen base st /\ points_at_last st /\ last_free base st.

Fixpoint spaces (n : nat) : string :=
  match n with
  | O => EmptyString
  | S n' => String SPACE (spaces n')
  end.

(** A Lattice file of three lines: a rule header, a blank line, and a line
    longer than the line buffer, which [FGets] hands over in two pieces:
    507 blanks and the word WITH, then the rest. *)
Definition with_after_blank : string :=
  ln "all: prog" +:+ ln EmptyString +:+ spaces 507 +:+ "WITH" +:+ ln "obj.o".

(** What a comment line leaves behind: the trimmed line sits in the slot
    that [comment_count] pointed at, the count is one more; the rule
    state, the variables and the rules are as before. *)
Definition comment_outcome (t : string) (before after : PState) : Prop :=
  comments (mk after) !! comment_count (mk before) = Some (Some t)
  /\ comment_count (mk after) = S (comment_count (mk before))
  /\ in_rule after = in_rule before
  /\ current_rule after = current_rule before
  /\ variables (mk after) = variables (mk before)
  /\ rules (mk after) = rules (mk before).

Definition with_comments (m : Makefile) (c : list (option string)) : Makefile :=
  mkMakefile (format m) (filename m) (variables m) (rules m) c.

Definition occurs (sub s : string) : bool := found (strstr s sub).

(** The rules that get no header line: the pattern rules of a GNU Make (or
    unknown) source when the target is GNU Make. *)
Definition header_lost (source_format target_format : MakefileFormat) (rule : Rule) : bool :=
  is_pattern_rule rule
  && format_eqb target_format FORMAT_GNU_MAKE
  && (format_eqb source_format FORMAT_GNU_MAKE || format_eqb source_format FORMAT_UNKNOWN).

(** A GNU makefile with one pattern rule, converted with FILETYPE=gnu. *)
Definition pattern_makefile : string :=
  ln "%.o: %.c" +:+ ln (tabbed "gcc -c $< -o $@").

(** The compiler names an emitter replaces by the compiler of its dialect. *)
Definition compiler_aliases (f : MakefileFormat) : list string :=
  match f with
  | FORMAT_GNU_MAKE => ["sc"; "lc"; "dcc"]
  | FORMAT_SAS_C => ["gcc"; "cc"; "dcc"; "lc"]
  | FORMAT_DICE => ["gcc"; "cc"; "sc"; "lc"]
  | FORMAT_LATTICE => ["gcc"; "cc"; "sc"; "dcc"]
  | FORMAT_UNKNOWN => []
  end.

Definition compiler_alias (f : MakefileFormat) (v : Var) : bool :=
  ieq (name v) "CC" && existsb (ieq (value v)) (compiler_aliases f).

(** The fixed header of a pattern rule in each dialect. *)
Definition pattern_header (f : MakefileFormat) : string :=
  match f with
  | FORMAT_DICE => ln "%(left): %(right)"
  | FORMAT_GNU_MAKE => ln "%.o: %.c"
  | _ => ln ".c.o:"
  end.

(** The call written for a variable by the emitter of [f], for a source
    of the same dialect. *)
Definition self_variable (f : MakefileFormat) (v : Var) : option Call :=
  match f with
  | FORMAT_GNU_MAKE => Some (gnu_variable v)
  | FORMAT_SAS_C => Some (sas_variable f v)
  | FORMAT_DICE => Some (dice_variable v)
  | FORMAT_LATTICE => Some (lattice_variable v)
  | FORMAT_UNKNOWN => None
  end.

Definition with_verbose (a : Args) (v : bool) : Args :=
  mkArgs (rda a) (arg_from a) (arg_to a) (arg_filetype a) v (arg_help a).

(** What a run is judged by: what the emitter wrote and where, and the
    return code. *)
Definition observe (run : list Event * Z) : list (option string * Call) * Z :=
  (conversion_output (fst run), snd run).


Definition sample_env : Env :=
  mkEnv (fun f => if String.eqb f "lmkfile"
                  then Some (ln "prog: main.o" +:+ ln (tabbed "blink main.o TO prog"))
                  else None)
        (fun _ => true) true.

(** The mapping of one ordered pair of dialects written as a table: the
    entries are tried in order, the first one that matches decides. *)
Inductive Matcher : Set :=
| Exact (key : string)      (* the token is the key, letter case ignored *)
| Contains (key : string).  (* the key occurs in the token *)

Inductive Action : Set :=
| Replace (by_option : string)
| Drop
| Keep
| Rewrite (prefix : string) (skipped : nat) (suffix : string)
| IncludePath.

Definition matches (m : Matcher) (opt : string) : bool :=
  match m with
  | Exact key => ieq opt key
  | Contains key => found (strstr opt key)
  end.

Definition apply_action (act : Action) (opt : string) : string :=
  match act with
  | Replace by_option => by_option
  | Drop => EmptyString
  | Keep => opt
  | Rewrite prefix skipped suffix => prefix +:+ skip skipped opt +:+ suffix
  | IncludePath => drop_final_colon ("-I" +:+ skip 11 opt)
  end.

Fixpoint table_lookup (table : list (Matcher * Action)) (opt : string) : option Action :=
  match table with
  | [] => None
  | (m, act) :: rest => if matches m opt then Some act else table_lookup rest opt
  end.

(** The replacement for each target; a target without one keeps the token. *)
Definition for_target (to : MakefileFormat) (gnu sas dice lattice : Action) : Action :=
  match to with
  | FORMAT_GNU_MAKE => gnu
  | FORMAT_SAS_C => sas
  | FORMAT_DICE => dice
  | FORMAT_LATTICE => lattice
  | FORMAT_UNKNOWN => Keep
  end.

Definition option_table (from to : MakefileFormat) : list (Matcher * Action) :=
  match from, to with
  | FORMAT_LATTICE, FORMAT_SAS_C =>
      [ (Exact "-O", Replace "OPTIMIZE"); (Exact "-DNONAMES", Replace "NOSTANDARDIO");
        (Contains "-DDEFBLOCKING=", Drop); (Contains "-I", Rewrite "INCLUDEDIR=" 2 ":");
        (Exact "-v", Replace "VERBOSE"); (Exact "-d2", Replace "DEBUG=L");
        (Exact "-y", Replace "DEBUG=L"); (Exact "-ms", Replace "DATA=NEAR");
        (Contains "-D", Rewrite "DEF=" 2 EmptyString); (Exact "-w", Replace "IGN=A");
        (Exact "-g", Replace "DEBUG=FF"); (Exact "-c", Replace "OBJNAME");
        (Exact "-E", Replace "PPONLY"); (Exact "-a", Replace "DISASM") ]
  | FORMAT_LATTICE, FORMAT_DICE =>
      [ (Exact "-O", Replace "-O"); (Exact "-DNONAMES", Drop);
        (Contains "-DDEFBLOCKING=", Drop); (Contains "-I", Keep);
        (Exact "-v", Replace "-v"); (Exact "-d2", Replace "-d1");
        (Exact "-y", Replace "-d1"); (Exact "-ms", Replace "-ms");
        (Contains "-D", Keep); (Exact "-w", Drop);
        (Exact "-g", Replace "-s -d1"); (Exact "-c", Replace "-c");
        (Exact "-E", Replace "-E"); (Exact "-a", Replace "-a") ]
  | FORMAT_LATTICE, FORMAT_GNU_MAKE =>
      [ (Exact "-O", Replace "-O2"); (Exact "-DNONAMES", Drop);
        (Contains "-DDEFBLOCKING=", Drop); (Contains "-I", Keep);
        (Exact "-v", Replace "-v"); (Exact "-d2", Replace "-g");
        (Exact "-y", Replace "-g"); (Exact "-ms", Replace "-m68000");
        (Contains "-D", Keep); (Exact "-w", Replace "-w");
        (Exact "-g", Replace "-g"); (Exact "-c", Replace "-c");
        (Exact "-E", Replace "-E"); (Exact "-a", Replace "-S") ]
  | FORMAT_SAS_C, _ =>
      [ (Exact "OPTIMIZE", for_target to (Replace "-O2") Keep (Replace "-O") (Replace "-O"));
        (Exact "NOSTANDARDIO", Drop);
        (Contains "INCLUDEDIR=", IncludePath);
        (Exact "DEBUG=L", for_target to (Replace "-g") Keep (Replace "-d1") (Replace "-d2"));
        (Exact "DATA=NEAR", for_target to (Replace "-m68000") Keep (Replace "-ms") (Replace "-ms"));
        (Exact "VERBOSE", for_target to (Replace "-v") Keep (Replace "-v") (Replace "-v"));
        (Exact "IGN=A", for_target to (Replace "-w") Keep Drop (Replace "-w"));
        (Contains "DEF=", Rewrite "-D" 4 EmptyString);
        (Exact "OBJNAME", for_target to (Replace "-c") Keep (Replace "-c") (Replace "-c"));
        (Exact "PPONLY", for_target to (Replace "-E") Keep (Replace "-E") (Replace "-E"));
        (Exact "DISASM", for_target to (Replace "-S") Keep (Replace "-a") (Replace "-a")) ]
  | FORMAT_DICE, _ =>
      [ (Exact "-O", for_target to (Replace "-O2") (Replace "OPTIMIZE") Keep (Replace "-O"));
        (Exact "-d1", for_target to (Replace "-g") (Replace "DEBUG=L") Keep (Replace "-d2"));
        (Exact "-ms", for_target to (Replace "-m68000") (Replace "DATA=NEAR") Keep (Replace "-ms"));
        (Contains "-D", Keep);
        (Exact "-v", for_target to (Replace "-v") (Replace "VERBOSE") Keep (Replace "-v"));
        (Exact "-c", for_target to (Replace "-c") (Replace "OBJNAME") Keep (Replace "-c"));
        (Exact "-E", for_target to (Replace "-E") (Replace "PPONLY") Keep (Replace "-E"));
        (Exact "-a", for_target to (Replace "-S") (Replace "DISASM") Keep (Replace "-a"));
        (Exact "-s", for_target to (Replace "-g") (Replace "DEBUG=FF") Keep (Replace "-g")) ]
  | FORMAT_GNU_MAKE, _ =>
      [ (Exact "-O2", for_target to Keep (Replace "OPTIMIZE") (Replace "-O") (Replace "-O"));
        (Exact "-g", for_target to Keep (Replace "DEBUG=L") (Replace "-d1") (Replace "-d2"));
        (Exact "-m68000", for_target to Keep (Replace "DATA=NEAR") (Replace "-ms") (Replace "-ms"));
        (Contains "-D", Keep);
        (Exact "-v", for_target to Keep (Replace "VERBOSE") (Replace "-v") (Replace "-v"));
        (Exact "-w", for_target to Keep (Replace "IGN=A") Drop (Replace "-w"));
        (Exact "-c", for_target to Keep (Replace "OBJNAME") (Replace "-c") (Replace "-c"));
        (Exact "-E", for_target to Keep (Replace "PPONLY") (Replace "-E") (Replace "-E"));
        (Exact "-S", for_target to Keep (Replace "DISASM") (Replace "-a") (Replace "-a")) ]
  | _, _ => []
  end.

(** The tokens of a flags string: the maximal runs without a space. *)
Fixpoint tokens_from (cur : string) (s : string) : list string :=
  match s with
  | EmptyString => if is_empty cur then [] else [cur]
  | String c r =>
      if Ascii.eqb c SPACE
      then (if is_empty cur then [] else [cur]) ++ tokens_from EmptyString r
      else tokens_from (cur +:+ String c EmptyString) r
  end.

Definition tokens (s : string) : list string := tokens_from EmptyString s.

(** The two [strcat] calls of the loop, for each mapped option in turn. *)
Fixpoint append_all (new_flags : string) (first_option : bool) (l : list string) : string :=
  match l with
  | [] => new_flags
  | m :: l' =>
      append_all (new_flags +:+ (if first_option then EmptyString else " ") +:+ m) false l'
  end.

(** The same two calls with the allocation they write into. *)
Fixpoint append_all_in (size : nat) (new_flags : Built) (first_option : bool)
    (l : list string) : Built :=
  match l with
  | [] => new_flags
  | m :: l' =>
      append_all_in size
        (strcat_in size (if first_option then new_flags else strcat_in size new_flags " ") m)
        false l'
  end.

(** The mapped tokens that are kept. *)
Definition mapped_tokens (from to : MakefileFormat) (flags : string) : list string :=
  List.filter nonempty (map (fun o => map_compiler_option o from to) (tokens flags)).

(** No rule of the model has a command. *)
Definition without_commands (st : PState) : Prop :=
  Forall (fun r => commands r = []) (rules (mk st)).

(** A line that is none of: blank, a comment, the word WITH, an assignment,
    a rule header. *)
Definition plain_line (t : string) : bool :=
  negb (is_empty t) && negb (first_is ";"%char t) && negb (ieq t "WITH")
  && negb (is_assignment t) && negb (is_dot_rule t) && negb (found (strchr t ":"%char)).

(** Only blanks and tabs. *)
Fixpoint all_blank (s : string) : bool :=
  match s with
  | EmptyString => true
  | String c r => is_blank c && all_blank r
  end.

(** A blank line of the input as a parser gets it: blanks and tabs only,
    with the line feed behind them or, at the end of a file, without. *)
Definition blank_line (line : string) : bool :=
  all_blank (match last_char line with
             | Some c => if Ascii.eqb c NL then chop line else line
             | None => line
             end).

(** The string with its ASCII capitals turned into small letters. *)
Fixpoint lower (s : string) : string :=
  match s with
  | EmptyString => EmptyString
  | String c r => String (tolower c) (lower r)
  end.

(** [Open(name, MODE_OLDFILE)] succeeds. *)
Definition opens (env : Env) (f : string) : bool :=
  match open_old env f with Some _ => true | None => false end.

(** [Open] does not tell the spellings of a candidate name apart, which is
    what the comments of [find_makefile] say of Amiga filesystems. *)
Definition case_blind (env : Env) : bool :=
  forallb (fun x =>
             forallb (fun y => implb (ieq x y) (Bool.eqb (opens env x) (opens env y)))
                     candidates)
          candidates.

(** A directory that holds a GNUmakefile and nothing else. *)
Definition gnumakefile_only : Env :=
  mkEnv (fun f => if ieq f "GNUmakefile" then Some (ln "all: prog") else None)
        (fun _ => true) true.

(** The input of the run: FROM, or else what the search finds. *)
Definition input_name (env : Env) (a : Args) : option string :=
  match arg_from a with
  | Some input_file => Some input_file
  | None => fst (find_makefile env)
  end.

(** The target of the run: FILETYPE when it is a known alias, the default
    when there is no FILETYPE. *)
Definition target_of (a : Args) (source_format : MakefileFormat) : option MakefileFormat :=
  match arg_filetype a with
  | Some filetype =>
      match parse_filetype_string filetype with
      | FORMAT_UNKNOWN => None
      | t => Some t
      end
  | None => default_target source_format
  end.

(** The output stream can be had: standard output, or a file that
    [Open(name, MODE_NEWFILE)] creates. *)
Definition output_opens (env : Env) (a : Args) : bool :=
  match arg_to a with
  | Some f => open_new env f
  | None => true
  end.

(** The calls the emitter makes in a run on [input_file], if the run gets
    that far. *)
Definition converted (env : Env) (a : Args) (input_file : string) : option (list Call) :=
  let file := option_map FGets_lines (open_old env input_file) in
  let source_format := detect_format file in
  if format_eqb source_format FORMAT_UNKNOWN then None
  else match target_of a source_format with
       | None => None
       | Some target_format =>
           match parse_makefile input_file file (empty_makefile source_format) with
           | None => None
           | Some parsed =>
               if output_opens env a then convert parsed target_format else None
           end
       end.

(** The last loop of the SAS/C branch of the delete rewriting in
    [map_command], commented as removing wildcards: at ['*'] or ['?'] the
    rest of the word and the spaces after it are passed, at any other
    character that character.  [fuel] bounds the rounds. *)
Fixpoint wildcard_loop (fuel : nat) (args : string) : string :=
  match fuel with
  | O => args
  | S fuel' =>
      match args with
      | EmptyString => EmptyString
      | String c r =>
          if Ascii.eqb c "*"%char || Ascii.eqb c "?"%char
          then wildcard_loop fuel' (skip_spaces (snd (scan_token args)))
          else wildcard_loop fuel' r
      end
  end.

(** [if (arg_start < args) strncat(new_cmd, arg_start, args - arg_start)]:
    what the SAS/C branch appends after [delete]. *)
Definition sas_delete_arguments (command : string) : string :=
  let arg_start := rm_arguments command in
  let args := wildcard_loop (String.length arg_start) arg_start in
  if String.length args <? String.length arg_start
  then substring 0 (String.length arg_start - String.length args) arg_start
  else EmptyString.

(** [r'] is [r] with commands added at the end. *)
Definition extends (r r' : Rule) : Prop :=
  header r' = header r /\ exists more, commands r' = commands r ++ more.

(** [m'] holds what [m] holds and more: the same format and file name, the
    variables of [m] followed by others, the rules of [m], with commands
    added at their ends, followed by other rules. *)
Definition grows (m m' : Makefile) : Prop :=
  format m' = format m
  /\ filename m' = filename m
  /\ (exists more, variables m' = variables m ++ more)
  /\ (exists kept more, rules m' = kept ++ more /\ Forall2 extends (rules m) kept).

(** Of the comments counted only the last one is there: the slots before
    it are empty. *)
Definition only_last_comment (m : Makefile) : Prop :=
  comment_count m <= MAX_COMMANDS
  /\ forall i, S i < comment_count m -> comments m !! i = Some None.

(** The lines by which an emitter replaces the compiler of another
    dialect. *)
Definition is_translated_compiler_line (c : Call) : bool :=
  existsb (String.eqb (fmt c)) [ln "CC = cc"; ln "CC = sc"; ln "CC = dcc"; ln "CC = lc"].

(** A C string that ends with a line feed, as the buffer that [FGets]
    fills from a complete line of a text file. *)
Definition ends_with_newline (s : string) : Prop :=
  c_string s /\ last_char s = Some NL.

(** The line the SAS/C emitter writes under a rule without commands. *)
Definition is_placeholder_line (c : Call) : bool :=
  String.eqb (fmt c) (fmt sas_placeholder).

(** The commands stored in all rules. *)
Definition stored_commands (m : Makefile) : nat :=
  list_sum (map command_count (rules m)).

(** * Properties *)

(** ** Strings *)

Lemma skip_whitespace_head (s : string) :
  match skip_whitespace s with
  | EmptyString => True
  | String c _ => is_blank c = false
  end.
Proof.
  induction s as [|c r IH]; simpl; [exact I|].
  destruct (is_blank c) eqn:E; [exact IH | exact E].
Qed.

(** A trimmed line never starts with a blank. *)
Lemma trim_whitespace_head (s : string) :
  first_is TAB (trim_whitespace s) || first_is SPACE (trim_whitespace s) = false.
Proof.
  unfold trim_whitespace.
  pose proof (skip_whitespace_head s) as H.
  destruct (skip_whitespace s) as [|c r]; simpl; [reflexivity|].
  unfold is_blank in H.
  destruct (Ascii.eqb c SPACE), (Ascii.eqb c TAB); simpl in *; congruence.
Qed.

(** The buffers of the successive [FGets] calls, put together, are the
    content of the file. *)
Lemma FGets_from_content (s : string) :
  forall cur room,
    fold_right String.append EmptyString (FGets_from s cur room) = cur +:+ s.
Proof.
  induction s as [|c r IH]; intros cur room.
  - cbn [FGets_from]. destruct cur; reflexivity.
  - assert (E : forall rest,
               fold_right String.append EmptyString
                          ((cur +:+ String c EmptyString) :: FGets_from r EmptyString rest)
               = cur +:+ String c r).
    { intros rest. cbn [fold_right]. rewrite IH.
      induction cur as [|x cur IHc]; [reflexivity|].
      change (String x ((cur +:+ String c EmptyString) +:+ (EmptyString +:+ r))
              = String x (cur +:+ String c r)).
      f_equal. exact IHc. }
    cbn [FGets_from]. destruct (Ascii.eqb c NL); [apply E|].
    destruct room as [|[|room']]; try apply E.
    rewrite IH.
    clear. induction cur as [|x cur IHc]; [reflexivity|].
    change (String x ((cur +:+ String c EmptyString) +:+ r) = String x (cur +:+ String c r)).
    f_equal. exact IHc.
Qed.

Lemma FGets_buffers_content (content : string) :
  fold_right String.append EmptyString (FGets_buffers content) = content.
Proof. apply (FGets_from_content content EmptyString). Qed.

Lemma until_char_none (s : string) (c : ascii) : strchr (until_char s c) c = None.
Proof.
  induction s as [|a r IH]; [reflexivity|].
  cbn [until_char]. destruct (Ascii.eqb a c) eqn:E; [reflexivity|].
  cbn [strchr]. rewrite E. exact IH.
Qed.

(** The lines handed to the detector and to the parsers are C strings. *)
Lemma FGets_lines_c_string (content : string) : Forall c_string (FGets_lines content).
Proof.
  unfold FGets_lines. induction (FGets_buffers content) as [|b bs IH]; constructor.
  - apply until_char_none.
  - exact IH.
Qed.

(** The test for an indented command line is made on the trimmed line, so
    it never succeeds. *)
Lemma command_branch_unreachable (st : PState) (line : string) :
  command_or_close st (trim_whitespace line) = close_rule st.
Proof.
  unfold command_or_close. rewrite trim_whitespace_head.
  destruct (in_rule st), (current_rule st); reflexivity.
Qed.

(** ** Format detector *)

Lemma detect_line_flags (t : string) (f : Flags) :
  detect_line t f =
  mkFlags (found_gnu_syntax f || gnu_signature t) (found_dice_syntax f || dice_signature t)
          (found_sas_syntax f || sas_signature t) (found_lattice_syntax f || lattice_signature t).
Proof.
  unfold detect_line. destruct f as [g d s l]; simpl.
  destruct (gnu_signature t), (dice_signature t), (sas_signature t), (lattice_signature t);
    simpl; rewrite ?orb_true_r, ?orb_false_r; reflexivity.
Qed.

Lemma flags_or_nil (f : Flags) : flags_or f [] = f.
Proof. destruct f; unfold flags_or; simpl; rewrite !orb_false_r; reflexivity. Qed.

Lemma flags_or_cons (f : Flags) (t : string) (ts : list string) :
  flags_or (detect_line t f) ts = flags_or f (t :: ts).
Proof.
  rewrite detect_line_flags. unfold flags_or; simpl.
  rewrite !orb_assoc. reflexivity.
Qed.

Lemma detect_scan_flags (lines : list string) :
  forall (n : nat) (f : Flags),
    detect_scan lines n f =
    flags_or f (List.filter (fun t => negb (is_empty t || first_is "#"%char t))
                            (map trim_whitespace (firstn (50 - n) lines))).
Proof.
  induction lines as [|line rest IH]; intros n f; simpl.
  - rewrite firstn_nil. simpl. symmetry. apply flags_or_nil.
  - destruct (n <? 50) eqn:En.
    + apply Nat.ltb_lt in En.
      replace (50 - n) with (S (50 - S n)) by lia. simpl.
      destruct (is_empty (trim_whitespace line) || first_is "#"%char (trim_whitespace line));
        simpl; rewrite IH; [reflexivity | apply flags_or_cons].
    + apply Nat.ltb_ge in En.
      replace (50 - n) with 0 by lia. simpl. symmetry. apply flags_or_nil.
Qed.

Lemma existsb_Permutation {A : Type} (p : A -> bool) (l1 l2 : list A) :
  Permutation l1 l2 -> existsb p l1 = existsb p l2.
Proof.
  induction 1; simpl.
  - reflexivity.
  - rewrite IHPermutation; reflexivity.
  - destruct (p x), (p y); reflexivity.
  - congruence.
Qed.

Lemma filter_Permutation {A : Type} (p : A -> bool) (l1 l2 : list A) :
  Permutation l1 l2 -> Permutation (List.filter p l1) (List.filter p l2).
Proof.
  induction 1; simpl.
  - constructor.
  - destruct (p x); [constructor|]; assumption.
  - destruct (p x), (p y); try apply Permutation_refl; apply perm_swap.
  - eapply perm_trans; eassumption.
Qed.

Lemma scanned_Permutation (l1 l2 : list string) :
  Permutation (firstn 50 l1) (firstn 50 l2) -> Permutation (scanned l1) (scanned l2).
Proof.
  intros H. unfold scanned. apply filter_Permutation, Permutation_map, H.
Qed.

Lemma detect_format_scanned (lines : list string) :
  detect_format (Some lines) = detect_resolve (flags_or no_flags (scanned lines)).
Proof. unfold detect_format. rewrite detect_scan_flags. reflexivity. Qed.

(** C1: the detector answers with the first dialect, in the order DICE, GNU
    Make, SAS/C, Lattice, whose signature occurs in one of the scanned
    lines, and the answer is the same for every reordering of the lines
    it scans. *)
Theorem detect_format_precedence (lines : list string) :
  let seen sig := existsb sig (scanned lines) in
  detect_format (Some lines) =
    (if seen dice_signature then FORMAT_DICE
     else if seen gnu_signature then FORMAT_GNU_MAKE
     else if seen sas_signature then FORMAT_SAS_C
     else if seen lattice_signature then FORMAT_LATTICE
     else FORMAT_UNKNOWN)
  /\ forall lines' : list string,
       Permutation (firstn 50 lines) (firstn 50 lines') ->
       detect_format (Some lines') = detect_format (Some lines).
Proof.
  split.
  - rewrite detect_format_scanned. reflexivity.
  - intros lines' H. rewrite !detect_format_scanned.
    apply scanned_Permutation in H.
    unfold flags_or.
    rewrite (existsb_Permutation gnu_signature _ _ H),
            (existsb_Permutation dice_signature _ _ H),
            (existsb_Permutation sas_signature _ _ H),
            (existsb_Permutation lattice_signature _ _ H).
    reflexivity.
Qed.

Lemma detect_format_precedence_witness :
  detect_format (Some (rev mixed_lines)) = detect_format (Some mixed_lines)
  /\ detect_format (Some mixed_lines) = FORMAT_DICE.
Proof.
  split.
  - apply (proj2 (detect_format_precedence mixed_lines)).
    change (Permutation mixed_lines (rev mixed_lines)).
    apply Permutation_rev.
  - reflexivity.
Defined.

(** ** Parsers: what one round of the loop can do *)

#[local] Hint Constructors transition lattice_transition update : parser.

Lemma command_or_close_transition (st : PState) (trimmed : string) :
  transition st (command_or_close st trimmed).
Proof.
  unfold command_or_close.
  destruct (in_rule st); [|constructor].
  destruct (current_rule st) as [idx|] eqn:E; [|constructor].
  destruct (first_is TAB trimmed || first_is SPACE trimmed); [|constructor].
  apply t_command, E.
Qed.

Lemma colon_rule_commands (t : string) (p : string -> bool) : commands (colon_rule t p) = [].
Proof. reflexivity. Qed.

#[local] Hint Resolve command_or_close_transition colon_rule_commands : parser.

Ltac step_cases :=
  repeat match goal with
         | |- context [if ?c then _ else _] => destruct c
         end;
  auto with parser.

Lemma gnu_step_transition (st : PState) (line : string) : transition st (gnu_step st line).
Proof. unfold gnu_step. step_cases. Qed.

Lemma sas_step_transition (st : PState) (line : string) : transition st (sas_step st line).
Proof. unfold sas_step, dot_rule. step_cases. Qed.

Lemma dice_step_transition (st : PState) (line : string) : transition st (dice_step st line).
Proof. unfold dice_step. step_cases. Qed.

Lemma lattice_command_or_with_transition (st : LState) (trimmed : string) :
  lattice_transition (ps st) (ps (lattice_command_or_with st trimmed)).
Proof.
  unfold lattice_command_or_with, reset_buffer.
  destruct st as [[ir cr m] wb ic fl fll]; simpl.
  assert (Hwith : lattice_transition (mkPState ir cr m)
            (ps (if wb
                 then if 0 <? rule_count m
                      then mkLState (mkPState ir (Some (rule_count m - 1))
                                       (add_command m (rule_count m - 1) true trimmed))
                                    wb ic EmptyString 0
                      else mkLState (mkPState ir cr m) wb ic EmptyString 0
                 else mkLState (close_rule (mkPState ir cr m)) wb ic EmptyString 0))).
  { destruct wb; simpl; [|auto with parser].
    destruct (0 <? rule_count m) eqn:E; simpl; [|auto with parser].
    apply Nat.ltb_lt in E.
    exact (lt_with (mkPState ir cr m) trimmed E). }
  destruct ir; [|exact Hwith].
  destruct cr as [idx|]; [|exact Hwith].
  destruct (first_is TAB trimmed || first_is SPACE trimmed); [|exact Hwith].
  simpl. apply lt_shared.
  exact (t_command (mkPState true (Some idx) m) idx _ _ eq_refl).
Qed.

Lemma lattice_process_transition (st : LState) :
  lattice_transition (ps st) (ps (lattice_process st)).
Proof.
  unfold lattice_process, keep_buffer, dot_rule.
  repeat match goal with
         | |- context [if ?c then _ else _] => destruct c; simpl
         end;
    auto using lattice_command_or_with_transition with parser.
Qed.

Lemma lattice_step_transition (st : LState) (line : string) :
  lattice_transition (ps st) (ps (lattice_step st line)).
Proof.
  unfold lattice_step.
  repeat match goal with
         | |- context [if ?c then _ else _] => destruct c; simpl
         end;
    try apply lt_stay;
    try apply (lattice_process_transition
                 (mkLState (ps st) (in_with_block st) _ _ _));
    apply lattice_process_transition.
Qed.

Lemma transition_update (st st' : PState) : transition st st' -> update (mk st) (mk st').
Proof.
  destruct 1; simpl; auto with parser.
  unfold open_rule.
  destruct (rule_count (mk st) <? MAX_RULES) eqn:E; simpl; [|constructor].
  apply Nat.ltb_lt in E. apply update_rule; assumption.
Qed.

Lemma lattice_transition_update (st st' : PState) :
  lattice_transition st st' -> update (mk st) (mk st').
Proof.
  destruct 1; simpl; auto using transition_update with parser.
Qed.

(** ** Capacities *)

Ltac cap_lia :=
  unfold variable_count, rule_count, command_count, comment_count,
         MAX_VARIABLES, MAX_RULES, MAX_COMMANDS in *;
  simpl in *; lia.

Lemma update_within_capacity (m m' : Makefile) :
  update m m' -> within_capacity m -> within_capacity m'.
Proof.
  unfold within_capacity, variable_count, rule_count.
  intros U (Hv & Hr & Hc). destruct U; simpl.
  - auto.
  - unfold store_comment. destruct (comment_count m <? MAX_COMMANDS); simpl; auto.
  - unfold add_variable, variable_count.
    destruct (length (variables m) <? MAX_VARIABLES) eqn:E; simpl; auto.
    apply Nat.ltb_lt in E. rewrite length_app. simpl. repeat split; auto; lia.
  - unfold rule_count in *. rewrite length_app. simpl. repeat split; auto; [lia|].
    apply Forall_app. split; [assumption|].
    apply Forall_cons. split; [|apply Forall_nil; exact I].
    unfold command_count. rewrite H0. simpl. lia.
  - unfold add_command.
    destruct (rules m !! idx) as [r|] eqn:El; [|auto].
    destruct (command_count r <? MAX_COMMANDS) eqn:E; rewrite ?andb_false_r; [|auto].
    destruct cond; simpl; [|auto].
    apply Nat.ltb_lt in E.
    rewrite length_insert. repeat split; auto.
    apply Forall_insert; [assumption|].
    unfold command_count, push_command in *. simpl. rewrite length_app. simpl. lia.
Qed.

Lemma capped_same (m m' : Makefile) :
  variables m' = variables m -> rules m' = rules m -> capped m m'.
Proof.
  unfold capped, variable_count, rule_count. intros Ev Er. rewrite Ev, Er.
  repeat split; eauto.
Qed.

Lemma capped_refl (m : Makefile) : capped m m.
Proof. apply capped_same; reflexivity. Qed.

Lemma capped_trans (m1 m2 m3 : Makefile) : capped m1 m2 -> capped m2 m3 -> capped m1 m3.
Proof.
  unfold capped, variable_count, rule_count, command_count.
  intros (V1 & R1 & C1) (V2 & R2 & C2).
  split; [|split; [intros H; split|]].
  - intros H. rewrite <- (V1 H). apply V2. rewrite (V1 H). exact H.
  - apply R2, R1, H.
  - destruct (R1 H) as [H1 E1]. destruct (R2 H1) as [_ E2]. congruence.
  - intros i r Hi Hr.
    destruct (C1 i r Hi Hr) as (r' & Hi' & E').
    destruct (C2 i r' Hi') as (r'' & Hi'' & E''); [rewrite E'; exact Hr|].
    exists r''. split; [assumption | congruence].
Qed.

Lemma header_insert (rs : list Rule) :
  forall (i : nat) (r r' : Rule),
    rs !! i = Some r -> header r' = header r ->
    map header (<[i := r']> rs) = map header rs.
Proof.
  induction rs as [|x rs IH]; intros [|i] r r' Hl He; try discriminate Hl.
  - injection Hl as ->. cbn. rewrite He. reflexivity.
  - cbn. f_equal. apply (IH i r r' Hl He).
Qed.

Lemma update_capped (m m' : Makefile) : update m m' -> capped m m'.
Proof.
  destruct 1.
  - apply capped_refl.
  - unfold store_comment.
    destruct (comment_count m <? MAX_COMMANDS); apply capped_same; reflexivity.
  - unfold add_variable.
    destruct (variable_count m <? MAX_VARIABLES) eqn:E; [|apply capped_refl].
    apply Nat.ltb_lt in E.
    split; [intros Hfull; exfalso; cap_lia|].
    split; [intros Hfull; split; [exact Hfull | reflexivity]|].
    intros i r Hi _. exists r. split; [exact Hi | reflexivity].
  - unfold capped, rule_count in *. simpl.
    split; [reflexivity|]. split; [intros; exfalso; cap_lia|].
    intros i r0 Hi _. exists r0. split; [|reflexivity].
    rewrite lookup_app_l; [assumption|]. eapply lookup_lt_Some, Hi.
  - unfold add_command.
    destruct (rules m !! idx) as [r|] eqn:El; [|apply capped_refl].
    destruct (cond && (command_count r <? MAX_COMMANDS)) eqn:E; [|apply capped_refl].
    apply andb_true_iff in E. destruct E as [_ E]. apply Nat.ltb_lt in E.
    unfold capped, rule_count. simpl.
    split; [reflexivity|]. split; [intros H; split|].
    + rewrite length_insert. exact H.
    + apply (header_insert _ idx r _ El). reflexivity.
    + intros i r0 Hi Hfull.
      destruct (decide (i = idx)) as [->|Hne].
      * rewrite El in Hi. injection Hi as ->. exfalso. cap_lia.
      * exists r0. split; [|reflexivity].
        rewrite list_lookup_insert_ne; [assumption | congruence].
Qed.

(** A loop over the lines, seen through the model it builds. *)
Section Runs.
Context {S : Type} (view : S -> Makefile) (step : S -> string -> S).
Hypothesis step_update : forall (st : S) (line : string), update (view st) (view (step st line)).

Lemma run_within_capacity (lines : list string) :
  forall st : S, within_capacity (view st) -> within_capacity (view (fold_left step lines st)).
Proof.
  induction lines as [|l ls IH]; intros st H; simpl; [exact H|].
  apply IH. eapply update_within_capacity; [apply step_update | exact H].
Qed.

Lemma run_capped (lines : list string) :
  forall st : S, capped (view st) (view (fold_left step lines st)).
Proof.
  induction lines as [|l ls IH]; intros st; simpl; [apply capped_refl|].
  eapply capped_trans; [apply update_capped, step_update | apply IH].
Qed.
End Runs.

Lemma empty_within_capacity (f : MakefileFormat) : within_capacity (empty_makefile f).
Proof.
  unfold within_capacity, variable_count, rule_count, MAX_VARIABLES, MAX_RULES; simpl.
  repeat split; try lia. apply Forall_nil. exact I.
Qed.

Lemma gnu_update st line : update (mk st) (mk (gnu_step st line)).
Proof. apply transition_update, gnu_step_transition. Qed.

Lemma sas_update st line : update (mk st) (mk (sas_step st line)).
Proof. apply transition_update, sas_step_transition. Qed.

Lemma dice_update st line : update (mk st) (mk (dice_step st line)).
Proof. apply transition_update, dice_step_transition. Qed.

Lemma lattice_update st line : update (mk (ps st)) (mk (ps (lattice_step st line))).
Proof. apply lattice_transition_update, lattice_step_transition. Qed.

(** C10: whatever the lines are, each of the four parsers returns a model
    with at most 64 variables, at most 128 rules and at most 256 commands
    in each rule; and once one of these arrays is full, reading further
    lines stores nothing more in it: the full variable array keeps its
    variables, the full rule array keeps its 128 rules with their headers,
    the full command array of a rule keeps its commands; and the parser
    goes on to the end of the input. *)
Theorem parsers_respect_capacity (f : MakefileFormat) (lines more : list string) :
  (within_capacity (parse_gnu_makefile lines (empty_makefile f))
   /\ capped (parse_gnu_makefile lines (empty_makefile f))
             (parse_gnu_makefile (lines ++ more) (empty_makefile f)))
  /\ (within_capacity (parse_sas_makefile lines (empty_makefile f))
      /\ capped (parse_sas_makefile lines (empty_makefile f))
                (parse_sas_makefile (lines ++ more) (empty_makefile f)))
  /\ (within_capacity (parse_dice_makefile lines (empty_makefile f))
      /\ capped (parse_dice_makefile lines (empty_makefile f))
                (parse_dice_makefile (lines ++ more) (empty_makefile f)))
  /\ (within_capacity (parse_lattice_makefile lines (empty_makefile f))
      /\ capped (parse_lattice_makefile lines (empty_makefile f))
                (parse_lattice_makefile (lines ++ more) (empty_makefile f))).
Proof.
  unfold parse_gnu_makefile, parse_sas_makefile, parse_dice_makefile, parse_lattice_makefile.
  rewrite !fold_left_app.
  refine (conj (conj _ _) (conj (conj _ _) (conj (conj _ _) (conj _ _)))).
  - apply (run_within_capacity mk gnu_step gnu_update), empty_within_capacity.
  - apply (run_capped mk gnu_step gnu_update).
  - apply (run_within_capacity mk sas_step sas_update), empty_within_capacity.
  - apply (run_capped mk sas_step sas_update).
  - apply (run_within_capacity mk dice_step dice_update), empty_within_capacity.
  - apply (run_capped mk dice_step dice_update).
  - apply (run_within_capacity (fun st => mk (ps st)) lattice_step lattice_update),
      empty_within_capacity.
  - apply (run_capped (fun st => mk (ps st)) lattice_step lattice_update).
Qed.

(** The arrays full after 64 assignments and after 128 rule headers: the
    65th assignment and the 129th header are not stored. *)
Lemma parsers_respect_capacity_witness :
  (variable_count (parse_gnu_makefile (repeat (ln "A=1") 64 ++ [ln "B=2"])
                                      (empty_makefile FORMAT_GNU_MAKE)) = 64
   /\ variables (parse_gnu_makefile (repeat (ln "A=1") 64 ++ [ln "B=2"])
                                    (empty_makefile FORMAT_GNU_MAKE))
      = variables (parse_gnu_makefile (repeat (ln "A=1") 64) (empty_makefile FORMAT_GNU_MAKE)))
  /\ (rule_count (parse_gnu_makefile (repeat (ln "a: b") 128 ++ [ln "c: d"])
                                     (empty_makefile FORMAT_GNU_MAKE)) = 128
      /\ map header (rules (parse_gnu_makefile (repeat (ln "a: b") 128 ++ [ln "c: d"])
                                               (empty_makefile FORMAT_GNU_MAKE)))
         = map header (rules (parse_gnu_makefile (repeat (ln "a: b") 128)
                                                 (empty_makefile FORMAT_GNU_MAKE)))).
Proof.
  split.
  - pose proof (parsers_respect_capacity FORMAT_GNU_MAKE (repeat (ln "A=1") 64) [ln "B=2"])
      as ((_ & Hcap & _) & _).
    assert (E : variable_count (parse_gnu_makefile (repeat (ln "A=1") 64)
                                                   (empty_makefile FORMAT_GNU_MAKE))
                = MAX_VARIABLES)
      by (vm_compute; reflexivity).
    split; [|exact (Hcap E)].
    unfold variable_count. rewrite (Hcap E). exact E.
  - pose proof (parsers_respect_capacity FORMAT_GNU_MAKE (repeat (ln "a: b") 128) [ln "c: d"])
      as ((_ & _ & Hcap & _) & _).
    assert (E : rule_count (parse_gnu_makefile (repeat (ln "a: b") 128)
                                               (empty_makefile FORMAT_GNU_MAKE))
                = MAX_RULES)
      by (vm_compute; reflexivity).
    exact (Hcap E).
Defined.

(** ** Assignment lines *)

Lemma strchr_split (t : string) (c : ascii) :
  found (strchr t c) = true ->
  t = until_char t c +:+ String c (after_char t c) /\ strchr (until_char t c) c = None.
Proof.
  unfold after_char.
  induction t as [|a r IH]; simpl; [discriminate|].
  destruct (Ascii.eqb a c) eqn:E; simpl.
  - intros _. apply Ascii.eqb_eq in E. subst a. split; reflexivity.
  - intros H. destruct (IH H) as [E1 E2]. rewrite E. split; [|exact E2].
    change (String a r = String a (until_char r c +:+
              String c match strchr r c with Some p => tail p | None => EmptyString end)).
    f_equal. exact E1.
Qed.

Lemma is_assignment_nonempty (t : string) : is_assignment t = true -> is_empty t = false.
Proof. destruct t; [discriminate | reflexivity]. Qed.

Lemma code_injective (a b : ascii) : code a = code b -> a = b.
Proof.
  unfold code. intros H. apply N2Z.inj in H.
  rewrite <- (ascii_N_embedding a), <- (ascii_N_embedding b). congruence.
Qed.

Lemma tolower_fixes (c : ascii) : (code c <? 65)%Z = true -> tolower c = c.
Proof.
  unfold tolower. intros H. apply Z.ltb_lt in H.
  destruct (65 <=? code c)%Z eqn:E; [apply Z.leb_le in E; lia | reflexivity].
Qed.

(** A character that [tolower] sends to a lower-case letter is a letter. *)
Lemma tolower_letter (c d : ascii) :
  Ascii.eqb (tolower c) d = true -> (96 <? code d)%Z = true -> (64 <? code c)%Z = true.
Proof.
  intros E Hd. apply Ascii.eqb_eq in E. subst d.
  destruct (64 <? code c)%Z eqn:Hc; [reflexivity|].
  rewrite tolower_fixes in Hd.
  - apply Z.ltb_lt in Hd. apply Z.ltb_ge in Hc. lia.
  - apply Z.ltb_ge in Hc. apply Z.ltb_lt. lia.
Qed.

Lemma letter_is_not (c x : ascii) :
  (64 <? code c)%Z = true -> (code x <? 64)%Z = true -> Ascii.eqb c x = false.
Proof.
  intros Hc Hx. destruct (Ascii.eqb c x) eqn:E; [|reflexivity].
  apply Ascii.eqb_eq in E. subst x. apply Z.ltb_lt in Hc, Hx. lia.
Qed.

Lemma stricmp_step (c1 c2 : ascii) (z : Z) :
  ((if Ascii.eqb (tolower c1) (tolower c2) then z
    else code (tolower c1) - code (tolower c2)) =? 0)%Z = true ->
  Ascii.eqb (tolower c1) (tolower c2) = true /\ (z =? 0)%Z = true.
Proof.
  destruct (Ascii.eqb (tolower c1) (tolower c2)) eqn:E; [auto|].
  intros H. apply Z.eqb_eq in H.
  assert (tolower c1 = tolower c2) by (apply code_injective; lia).
  apply Ascii.eqb_neq in E. contradiction.
Qed.

(** A line that reads WITH has no ['=']. *)
Lemma with_line_no_equals (t : string) :
  c_string t -> ieq t "WITH" = true -> strchr t "="%char = None.
Proof.
  unfold ieq, c_string. intros Hc H.
  destruct t as [|c1 [|c2 [|c3 [|c4 r]]]]; try discriminate H.
  - cbn [my_stricmp] in H. apply stricmp_step in H as [_ H]. discriminate H.
  - cbn [my_stricmp] in H. do 2 apply stricmp_step in H as [_ H]. discriminate H.
  - cbn [my_stricmp] in H. do 3 apply stricmp_step in H as [_ H]. discriminate H.
  - cbn [my_stricmp] in H.
    apply stricmp_step in H as [E1 H].
    apply stricmp_step in H as [E2 H].
    apply stricmp_step in H as [E3 H].
    apply stricmp_step in H as [E4 H].
    apply tolower_letter in E1, E2, E3, E4; try reflexivity.
    assert (r = EmptyString) as ->.
    { destruct r as [|c5 r]; [reflexivity|]. exfalso.
      cbn [my_stricmp] in H. apply Z.eqb_eq in H.
      assert (E5 : tolower c5 = NUL) by (apply code_injective; exact H).
      assert (c5 = NUL) as ->.
      { unfold tolower in E5.
        destruct ((65 <=? code c5)%Z && (code c5 <=? 90)%Z) eqn:E; [|exact E5].
        apply andb_true_iff in E as [Ea Eb]. apply Z.leb_le in Ea, Eb.
        apply (f_equal code) in E5. unfold code at 1 in E5.
        rewrite N_ascii_embedding in E5.
        - change (code NUL) with 0%Z in E5. lia.
        - unfold code in Ea, Eb. lia. }
      simpl in Hc.
      rewrite (letter_is_not c1 NUL), (letter_is_not c2 NUL),
              (letter_is_not c3 NUL), (letter_is_not c4 NUL) in Hc by (assumption || reflexivity).
      discriminate Hc. }
    simpl.
    rewrite (letter_is_not c1 "="), (letter_is_not c2 "="),
            (letter_is_not c3 "="), (letter_is_not c4 "=") by (assumption || reflexivity).
    reflexivity.
Qed.

Lemma strchr_suffix_none (s : string) (c : ascii) :
  strchr s c = None -> strchr (skip_whitespace s) c = None.
Proof.
  intros H. induction s as [|a r IH]; simpl in *; [reflexivity|].
  destruct (Ascii.eqb a c) eqn:E; [discriminate|].
  destruct (is_blank a); [apply IH, H|]. simpl. rewrite E. exact H.
Qed.

Lemma rstrip_no_char (s : string) (c : ascii) : strchr s c = None -> strchr (rstrip s) c = None.
Proof.
  induction s as [|a r IH]; simpl; [reflexivity|].
  destruct (Ascii.eqb a c) eqn:E; [discriminate|].
  intros H. specialize (IH H).
  destruct (rstrip r) as [|b r'] eqn:Er.
  - destruct (is_blank a); simpl; [reflexivity|]. rewrite E. reflexivity.
  - simpl. rewrite E. exact IH.
Qed.

Lemma trim_c_string (s : string) : c_string s -> c_string (trim_whitespace s).
Proof.
  unfold c_string, trim_whitespace. intros H.
  pose proof (strchr_suffix_none s NUL H) as Hs.
  destruct (skip_whitespace s) as [|a r]; [reflexivity|].
  simpl in *. destruct (Ascii.eqb a NUL); [discriminate|].
  apply rstrip_no_char, Hs.
Qed.

Lemma assignment_stored (quoting : string -> string) (immediate : bool) (t : string)
    (st : PState) :
  is_assignment t = true ->
  variable_count (mk st) < MAX_VARIABLES ->
  assignment_outcome quoting immediate t st
    (close_rule (with_mk st (add_variable (mk st)
       (mkVariable (trim_whitespace (until_char t "="%char))
                   (quoting (trim_whitespace (after_char t "="%char))) immediate)))).
Proof.
  intros Ha Hv. unfold is_assignment in Ha. apply andb_true_iff in Ha as [Ha _].
  destruct (strchr_split t "="%char Ha) as [E1 E2].
  exists (until_char t "="%char), (after_char t "="%char).
  unfold add_variable. apply Nat.ltb_lt in Hv. rewrite Hv. simpl.
  repeat split; assumption.
Qed.

(** C3, as stated, fails: the SAS/C parser (like the DICE and the Lattice
    parser) keeps the double quotes around a value. *)
Lemma sas_assignment_keeps_quotes :
  let content := "NAME = " +:+ quoted "x" in
  FGets_lines content = [content]
  /\ specified_value (trim_whitespace content) = "x"
  /\ map value (variables (parse_sas_makefile (FGets_lines content)
                                              (empty_makefile FORMAT_SAS_C)))
     = [quoted "x"]
  /\ map value (variables (parse_dice_makefile (FGets_lines content)
                                               (empty_makefile FORMAT_DICE)))
     = [quoted "x"]
  /\ map value (variables (parse_lattice_makefile (FGets_lines content)
                                                  (empty_makefile FORMAT_LATTICE)))
     = [quoted "x"]
  /\ map value (variables (parse_sas_makefile (FGets_lines content)
                                              (empty_makefile FORMAT_SAS_C)))
     <> [specified_value (trim_whitespace content)].
Proof.
  cbv zeta. repeat split; try reflexivity. vm_compute. discriminate.
Qed.

(** C3, amended: in each of the four parsers a line that is not blank, is
    not a comment, contains ['='] and contains no [':'] is cut at its first
    ['='], both sides are trimmed of blanks and tabs, the variable is
    appended when fewer than 64 are stored, and no rule is open afterwards.
    The GNU parser removes the double quotes around a value that starts and
    ends with one; the SAS/C, DICE and Lattice parsers store the value as it
    is; the DICE parser marks the variable as immediate. *)
Theorem assignment_line (st : PState) (lst : LState) (line : string) :
  let t := trim_whitespace line in
  c_string line ->
  is_assignment t = true ->
  variable_count (mk st) < MAX_VARIABLES ->
  ps lst = st ->
  full_line lst = line ->
  (first_is "#"%char t = false ->
   assignment_outcome strip_quotes false t st (gnu_step st line)
   /\ assignment_outcome (fun v => v) true t st (dice_step st line))
  /\ (first_is ";"%char t = false ->
      assignment_outcome (fun v => v) false t st (sas_step st line)
      /\ assignment_outcome (fun v => v) false t st (ps (lattice_process lst))
      /\ in_with_block (lattice_process lst) = in_with_block lst).
Proof.
  intros t Hc Ha Hv Hps Hfl.
  pose proof (is_assignment_nonempty t Ha) as Hne.
  split; intros Hlead.
  - unfold gnu_step, dice_step. fold t. rewrite Hne, Hlead, Ha.
    split; apply assignment_stored; assumption.
  - unfold sas_step, lattice_process. rewrite Hfl. fold t. rewrite Hne, Hlead, Ha.
    assert (Hw : ieq t "WITH" = false).
    { destruct (ieq t "WITH") eqn:E; [|reflexivity].
      apply with_line_no_equals in E; [|apply trim_c_string, Hc].
      unfold is_assignment in Ha. rewrite E in Ha. discriminate Ha. }
    rewrite Hw, Hps. simpl.
    repeat split; try (apply assignment_stored; assumption).
Qed.

Lemma assignment_line_witness :
  let line := ln ("CC = " +:+ quoted "gcc") in
  let st := start (empty_makefile FORMAT_GNU_MAKE) in
  assignment_outcome strip_quotes false (trim_whitespace line) st (gnu_step st line)
  /\ assignment_outcome (fun v => v) false (trim_whitespace line) st
       (ps (lattice_process (mkLState st false false line (String.length line)))).
Proof.
  cbv zeta.
  pose proof (assignment_line (start (empty_makefile FORMAT_GNU_MAKE))
                (mkLState (start (empty_makefile FORMAT_GNU_MAKE)) false false
                          (ln ("CC = " +:+ quoted "gcc"))
                          (String.length (ln ("CC = " +:+ quoted "gcc"))))
                (ln ("CC = " +:+ quoted "gcc"))
                eq_refl eq_refl ltac:(vm_compute; lia) eq_refl eq_refl) as [Hg Hs].
  split; [exact (proj1 (Hg eq_refl)) | exact (proj1 (proj2 (Hs eq_refl)))].
Defined.

(** ** Blank lines and the rule that commands go to *)

Lemma add_command_rule_count m idx cond text :
  rule_count (add_command m idx cond text) = rule_count m.
Proof.
  unfold add_command, rule_count.
  destruct (rules m !! idx); [|reflexivity].
  destruct (cond && _); [|reflexivity]. simpl. apply length_insert.
Qed.

Lemma add_command_frozen base extra m idx cond text :
  rules m = base ++ extra -> length base <= idx ->
  exists extra', rules (add_command m idx cond text) = base ++ extra'.
Proof.
  intros E H. unfold add_command.
  destruct (rules m !! idx); [|eauto].
  destruct (cond && _); [|eauto]. simpl.
  rewrite E, insert_app_r_alt by exact H. eauto.
Qed.

Lemma open_rule_cases (st : PState) (r : Rule) :
  open_rule st r = st
  \/ open_rule st r
     = mkPState true (Some (rule_count (mk st))) (set_rules (mk st) (rules (mk st) ++ [r])).
Proof. unfold open_rule. destruct (_ <? _); auto. Qed.

Lemma transition_frozen (base : list Rule) (st st' : PState) :
  transition st st' -> frozen base st -> frozen base st'.
Proof.
  unfold frozen. intros T ((extra & E) & Hc). destruct T; simpl.
  - split; [eauto | discriminate].
  - unfold store_comment. destruct (_ <? _); simpl; eauto.
  - split; [|discriminate].
    unfold add_variable. destruct (_ <? _); simpl; eauto.
  - destruct (open_rule_cases st r) as [-> | ->]; [eauto|]. simpl. split.
    + exists (extra ++ [r]). rewrite E, app_assoc. reflexivity.
    + intros idx [= <-]. unfold rule_count. rewrite E, length_app. lia.
  - split; [|exact Hc].
    eapply add_command_frozen; [exact E | apply Hc; assumption].
Qed.

Lemma transition_points_at_last (st st' : PState) :
  transition st st' -> points_at_last st -> points_at_last st'.
Proof.
  unfold points_at_last. intros T Hp. destruct T; simpl.
  - discriminate.
  - unfold store_comment, rule_count in *. destruct (_ <? _); simpl; exact Hp.
  - discriminate.
  - destruct (open_rule_cases st r) as [-> | ->]; [exact Hp|]. simpl.
    intros idx [= <-]. unfold rule_count. simpl. rewrite length_app. simpl. lia.
  - intros i Hi. rewrite add_command_rule_count. apply Hp, Hi.
Qed.

Lemma transition_rule_count (st st' : PState) :
  transition st st' -> rule_count (mk st) <= rule_count (mk st').
Proof.
  destruct 1; simpl.
  - lia.
  - unfold store_comment, rule_count. destruct (_ <? _); simpl; lia.
  - unfold add_variable, rule_count. destruct (_ <? _); simpl; lia.
  - destruct (open_rule_cases st r) as [-> | ->]; [lia|].
    unfold rule_count. simpl. rewrite length_app. lia.
  - rewrite add_command_rule_count. lia.
Qed.

Lemma lattice_transition_settled (base : list Rule) (st st' : PState) :
  lattice_transition st st' -> settled base st -> settled base st'.
Proof.
  unfold settled. intros T (Hf & Hp & Hl). destruct T as [st' T | | text Hpos].
  - split; [eapply transition_frozen; eassumption|].
    split; [eapply transition_points_at_last; eassumption|].
    pose proof (transition_rule_count _ _ T) as Hmono.
    destruct Hf as ((extra & E) & _).
    unfold last_free, rule_count in *. intros Hpos'.
    destruct (rules (mk st)) as [|r0 rs] eqn:Er.
    + destruct base; [simpl; lia | discriminate E].
    + simpl in Hl, Hmono. specialize (Hl ltac:(lia)). lia.
  - auto.
  - specialize (Hl Hpos). destruct Hf as ((extra & E) & Hc).
    split; [|split].
    + split; simpl.
      * eapply add_command_frozen; [exact E | lia].
      * intros idx [= <-]. lia.
    + intros idx. simpl. intros [= <-]. rewrite add_command_rule_count. lia.
    + unfold last_free. simpl. rewrite add_command_rule_count. auto.
Qed.

Lemma fold_invariant {S : Type} (P : S -> Prop) (step : S -> string -> S) :
  (forall st line, P st -> P (step st line)) ->
  forall lines st, P st -> P (fold_left step lines st).
Proof.
  intros Hstep lines. induction lines as [|l ls IH]; intros st H; simpl; auto.
Qed.

Lemma length_removelast_rules (rs : list Rule) : length (removelast rs) = length rs - 1.
Proof.
  induction rs as [|r rs' _] using rev_ind.
  - reflexivity.
  - rewrite removelast_last, length_app. simpl. lia.
Qed.

Lemma removelast_frozen (st : PState) :
  points_at_last st -> settled (removelast (rules (mk st))) st.
Proof.
  intros Hp. unfold settled, frozen, last_free.
  rewrite length_removelast_rules. fold (rule_count (mk st)).
  repeat split; [| |exact Hp|lia].
  - destruct (rules (mk st)) as [|r rs] eqn:E; [exists []; reflexivity|].
    rewrite <- E.
    exists [List.last (rules (mk st)) r]. apply app_removelast_last. rewrite E. discriminate.
  - intros idx Hi. specialize (Hp idx Hi). lia.
Qed.

Lemma start_points_at_last (m : Makefile) : points_at_last (start m).
Proof. intros idx H. discriminate H. Qed.

Section SharedLoop.
Variable step : PState -> string -> PState.
Hypothesis step_transition : forall st line, transition st (step st line).

Lemma run_points_at_last (lines : list string) (st : PState) :
  points_at_last st -> points_at_last (fold_left step lines st).
Proof.
  apply fold_invariant. intros s l. apply transition_points_at_last, step_transition.
Qed.

Lemma run_frozen (base : list Rule) (lines : list string) (st : PState) :
  frozen base st -> frozen base (fold_left step lines st).
Proof.
  apply fold_invariant. intros s l. apply transition_frozen, step_transition.
Qed.

(** After a round that closes the rule, the rules stored so far stay as
    they are. *)
Lemma closed_rules_stay (pre post : list string) (line : string) (m0 : Makefile) :
  (forall st, step st line = close_rule st) ->
  exists extra,
    rules (mk (fold_left step (pre ++ line :: post) (start m0)))
    = rules (mk (fold_left step pre (start m0))) ++ extra.
Proof.
  intros Hclose. rewrite fold_left_app. simpl. rewrite Hclose.
  apply run_frozen. split; simpl.
  - exists []. rewrite app_nil_r. reflexivity.
  - discriminate.
Qed.

(** Whatever follows, only the last rule stored so far can still change. *)
Lemma earlier_rules_stay (pre post : list string) (m0 : Makefile) :
  exists extra,
    rules (mk (fold_left step (pre ++ post) (start m0)))
    = removelast (rules (mk (fold_left step pre (start m0)))) ++ extra.
Proof.
  rewrite fold_left_app.
  apply run_frozen, removelast_frozen, run_points_at_last, start_points_at_last.
Qed.
End SharedLoop.

Lemma lattice_earlier_rules_stay (pre post : list string) (m0 : Makefile) :
  exists extra,
    rules (parse_lattice_makefile (pre ++ post) m0)
    = removelast (rules (parse_lattice_makefile pre m0)) ++ extra.
Proof.
  unfold parse_lattice_makefile. rewrite fold_left_app.
  set (s1 := fold_left lattice_step pre (lattice_start m0)).
  assert (H1 : settled [] (ps s1)).
  { apply (fold_invariant (fun s => settled [] (ps s)) lattice_step).
    - intros s l. apply lattice_transition_settled, lattice_step_transition.
    - split; [split; [eexists; reflexivity | discriminate]|].
      split; [intros idx H; discriminate H | intros H; exact H]. }
  destruct H1 as (_ & H1 & _).
  apply (fold_invariant (fun s => settled (removelast (rules (mk (ps s1)))) (ps s)) lattice_step).
  - intros s l. apply lattice_transition_settled, lattice_step_transition.
  - apply removelast_frozen, H1.
Qed.

(** A plain line inside a WITH block goes to the last rule stored. *)
Lemma with_block_line_attached (lst : LState) (rs : list Rule) (r : Rule) :
  let t := trim_whitespace (full_line lst) in
  plain_line t = true ->
  in_with_block lst = true ->
  rules (mk (ps lst)) = rs ++ [r] ->
  command_count r < MAX_COMMANDS ->
  rules (mk (ps (lattice_process lst))) = rs ++ [push_command r t].
Proof.
  intros t Hplain Hwith Hr Hroom.
  unfold plain_line in Hplain.
  repeat (apply andb_true_iff in Hplain as [Hplain ?]).
  repeat match goal with
         | H : negb _ = true |- _ => apply negb_true_iff in H
         end.
  unfold lattice_process. fold t.
  repeat match goal with
         | H : ?c = false |- context [if ?c then _ else _] => rewrite H
         end.
  unfold lattice_command_or_with.
  pose proof (trim_whitespace_head (full_line lst)) as Hhead. fold t in Hhead.
  assert (Hcount : rule_count (mk (ps lst)) = S (length rs)).
  { unfold rule_count. rewrite Hr, length_app. simpl. lia. }
  assert (Hgo : rules (mk (ps (if in_with_block lst
                               then if 0 <? rule_count (mk (ps lst))
                                    then reset_buffer lst
                                           (mkPState (in_rule (ps lst))
                                              (Some (rule_count (mk (ps lst)) - 1))
                                              (add_command (mk (ps lst))
                                                 (rule_count (mk (ps lst)) - 1) true t))
                                    else reset_buffer lst (ps lst)
                               else reset_buffer lst (close_rule (ps lst)))))
                = rs ++ [push_command r t]).
  { rewrite Hwith, Hcount. simpl.
    unfold add_command. rewrite Nat.sub_0_r, Hr.
    rewrite lookup_app_r, Nat.sub_diag by lia. simpl.
    apply Nat.ltb_lt in Hroom. rewrite Hroom. simpl.
    rewrite insert_app_r_alt, Nat.sub_diag by lia. reflexivity. }
  rewrite Hhead.
  destruct (in_rule (ps lst)), (current_rule (ps lst)); exact Hgo.
Qed.

Lemma chop_last (s : string) (c : ascii) :
  last_char s = Some c -> s = chop s +:+ String c EmptyString.
Proof.
  induction s as [|a r IH]; [discriminate|].
  destruct r as [|b r'].
  - intros [= ->]. reflexivity.
  - intros H. change (chop (String a (String b r'))) with (String a (chop (String b r'))).
    change (String a (String b r') = String a (chop (String b r') +:+ String c EmptyString)).
    f_equal. apply IH. exact H.
Qed.

Lemma all_blank_skip (sp rest : string) :
  all_blank sp = true -> skip_whitespace (sp +:+ rest) = skip_whitespace rest.
Proof.
  induction sp as [|a r IH]; [reflexivity|].
  cbn [all_blank]. intros H. apply andb_true_iff in H as [Ha Hr].
  change (skip_whitespace (String a (r +:+ rest)) = skip_whitespace rest).
  cbn [skip_whitespace]. rewrite Ha. apply IH, Hr.
Qed.

Lemma last_char_none (s : string) : last_char s = None -> s = EmptyString.
Proof.
  induction s as [|a r IH]; [reflexivity|].
  destruct r as [|b r']; [discriminate|]. intros H. specialize (IH H). discriminate IH.
Qed.

Lemma all_blank_skip_all (s : string) : all_blank s = true -> skip_whitespace s = EmptyString.
Proof.
  induction s as [|a r IH]; [reflexivity|].
  cbn [all_blank skip_whitespace]. intros H. apply andb_true_iff in H as [Ha Hr].
  rewrite Ha. apply IH, Hr.
Qed.

Lemma all_blank_last (s : string) (c : ascii) :
  all_blank s = true -> last_char s = Some c -> is_blank c = true.
Proof.
  induction s as [|a r IH]; [discriminate|].
  cbn [all_blank]. intros H Hl. apply andb_true_iff in H as [Ha Hr].
  destruct r as [|b r']; [injection Hl as <-; exact Ha|]. apply IH; assumption.
Qed.

(** A blank line is, trimmed, empty or its line feed, and does not end
    with a backslash. *)
Lemma blank_line_cases (line : string) :
  blank_line line = true ->
  (trim_whitespace line = EmptyString \/ trim_whitespace line = String NL EmptyString)
  /\ match last_char line with Some c => Ascii.eqb c "\"%char | None => false end = false.
Proof.
  unfold blank_line, trim_whitespace. intros H.
  destruct (last_char line) as [c|] eqn:El.
  - destruct (Ascii.eqb c NL) eqn:Ec.
    + apply Ascii.eqb_eq in Ec. subst c. split; [|reflexivity]. right.
      rewrite (chop_last line NL El), (all_blank_skip _ _ H). reflexivity.
    + split.
      * left. rewrite (all_blank_skip_all line H). reflexivity.
      * pose proof (all_blank_last line c H El) as Hb. unfold is_blank in Hb.
        apply orb_true_iff in Hb as [Hb|Hb]; apply Ascii.eqb_eq in Hb; subst c; reflexivity.
  - rewrite (last_char_none line El). split; [left|]; reflexivity.
Qed.

(** A buffer that does not end with a backslash, outside a continuation,
    is the logical line. *)
Lemma lattice_step_regular (st : LState) (line : string) :
  match last_char line with Some c => Ascii.eqb c "\"%char | None => false end = false ->
  in_continuation st = false ->
  lattice_step st line
  = lattice_process (mkLState (ps st) (in_with_block st) false line (String.length line)).
Proof.
  intros Hl Hc. unfold lattice_step. cbv zeta. rewrite Hl, Hc, andb_false_r. reflexivity.
Qed.

Lemma lattice_process_blank (lst : LState) :
  trim_whitespace (full_line lst) = EmptyString
  \/ trim_whitespace (full_line lst) = String NL EmptyString ->
  in_with_block lst = false ->
  ps (lattice_process lst) = close_rule (ps lst)
  /\ in_with_block (lattice_process lst) = false.
Proof.
  intros Ht Hw. unfold lattice_process, lattice_command_or_with, keep_buffer, reset_buffer.
  cbv zeta. rewrite Hw.
  destruct Ht as [-> | ->]; [split; reflexivity|].
  destruct (in_rule (ps lst)), (current_rule (ps lst)); split; reflexivity.
Qed.

(** C4, as stated, fails in the Lattice parser: the rule [all] is stored
    before the blank line, the blank line closes it, and the line read
    after the blank line is attached to it as a command all the same,
    because it stands in a WITH block. *)
Lemma lattice_command_after_blank :
  let m0 := empty_makefile FORMAT_LATTICE in
  FGets_lines with_after_blank
  = [ln "all: prog"; ln EmptyString; spaces 507 +:+ "WITH"; ln "obj.o"]
  /\ blank_line (ln EmptyString) = true
  /\ map (fun r => (targets r, commands r)) (rules (parse_lattice_makefile [ln "all: prog"] m0))
     = [("all", [])]
  /\ in_rule (ps (fold_left lattice_step [ln "all: prog"; ln EmptyString] (lattice_start m0)))
     = false
  /\ map (fun r => (targets r, commands r))
         (rules (parse_lattice_makefile (FGets_lines with_after_blank) m0))
     = [("all", [mkCommand (ln "obj.o") false])].
Proof. vm_compute. repeat split. Qed.

(** C4, amended: in the GNU Make, SAS/C and DICE parsers a blank line, with
    or without its line feed, closes the open rule, and the rules stored
    before it are not changed by anything read after it.  In the Lattice
    parser a blank line closes the open rule when no WITH block is open;
    in an open WITH block a line that is empty after trimming ends the
    block and leaves the rule as it is.  In all four parsers whatever is
    read later leaves every rule but the last one stored as it is:
    commands are only ever attached to the rule stored last; and in the
    Lattice parser a plain line inside a WITH block is attached to the
    last rule stored, open or not. *)
Theorem blank_line_closes_rule (blank : string) (pre post : list string) (m0 : Makefile)
    (st : PState) (lst : LState) :
  blank_line blank = true ->
  (gnu_step st blank = close_rule st
   /\ sas_step st blank = close_rule st
   /\ dice_step st blank = close_rule st)
  /\ (in_continuation lst = false -> in_with_block lst = false ->
      ps (lattice_step lst blank) = close_rule (ps lst)
      /\ in_with_block (lattice_step lst blank) = false)
  /\ (in_continuation lst = false -> in_with_block lst = true ->
      is_empty (trim_whitespace blank) = true ->
      ps (lattice_step lst blank) = ps lst
      /\ in_with_block (lattice_step lst blank) = false)
  /\ ((exists extra, rules (parse_gnu_makefile (pre ++ blank :: post) m0)
                     = rules (parse_gnu_makefile pre m0) ++ extra)
      /\ (exists extra, rules (parse_sas_makefile (pre ++ blank :: post) m0)
                        = rules (parse_sas_makefile pre m0) ++ extra)
      /\ (exists extra, rules (parse_dice_makefile (pre ++ blank :: post) m0)
                        = rules (parse_dice_makefile pre m0) ++ extra))
  /\ ((exists extra, rules (parse_gnu_makefile (pre ++ post) m0)
                     = removelast (rules (parse_gnu_makefile pre m0)) ++ extra)
      /\ (exists extra, rules (parse_sas_makefile (pre ++ post) m0)
                        = removelast (rules (parse_sas_makefile pre m0)) ++ extra)
      /\ (exists extra, rules (parse_dice_makefile (pre ++ post) m0)
                        = removelast (rules (parse_dice_makefile pre m0)) ++ extra)
      /\ (exists extra, rules (parse_lattice_makefile (pre ++ post) m0)
                        = removelast (rules (parse_lattice_makefile pre m0)) ++ extra))
  /\ (forall rs r,
        plain_line (trim_whitespace (full_line lst)) = true ->
        in_with_block lst = true ->
        rules (mk (ps lst)) = rs ++ [r] ->
        command_count r < MAX_COMMANDS ->
        rules (mk (ps (lattice_process lst)))
        = rs ++ [push_command r (trim_whitespace (full_line lst))]).
Proof.
  intros Hb. destruct (blank_line_cases blank Hb) as [Ht Hl].
  assert (Hg : forall s, gnu_step s blank = close_rule s).
  { intros s. unfold gnu_step. cbv zeta. rewrite command_branch_unreachable.
    destruct Ht as [-> | ->]; reflexivity. }
  assert (Hs : forall s, sas_step s blank = close_rule s).
  { intros s. unfold sas_step. cbv zeta. rewrite command_branch_unreachable.
    destruct Ht as [-> | ->]; reflexivity. }
  assert (Hd : forall s, dice_step s blank = close_rule s).
  { intros s. unfold dice_step. cbv zeta. rewrite command_branch_unreachable.
    destruct Ht as [-> | ->]; reflexivity. }
  split; [auto|].
  split.
  { intros Hc Hw. rewrite (lattice_step_regular lst blank Hl Hc).
    exact (lattice_process_blank
             (mkLState (ps lst) (in_with_block lst) false blank (String.length blank))
             Ht Hw). }
  split.
  { intros Hc Hw He. rewrite (lattice_step_regular lst blank Hl Hc).
    unfold lattice_process. cbv zeta. cbn [full_line in_with_block ps].
    rewrite He, Hw. split; reflexivity. }
  split.
  { repeat split.
    - apply (closed_rules_stay gnu_step gnu_step_transition pre post blank m0 Hg).
    - apply (closed_rules_stay sas_step sas_step_transition pre post blank m0 Hs).
    - apply (closed_rules_stay dice_step dice_step_transition pre post blank m0 Hd). }
  split.
  { repeat split.
    - apply (earlier_rules_stay gnu_step gnu_step_transition).
    - apply (earlier_rules_stay sas_step sas_step_transition).
    - apply (earlier_rules_stay dice_step dice_step_transition).
    - apply lattice_earlier_rules_stay. }
  intros rs r. apply with_block_line_attached.
Qed.

(** A makefile of three lines with a blank line in the middle. *)
Lemma blank_line_closes_rule_witness :
  let m0 := empty_makefile FORMAT_GNU_MAKE in
  FGets_lines (ln "all: prog" +:+ ln "  " +:+ ln "clean:")
  = [ln "all: prog"] ++ ln "  " :: [ln "clean:"]
  /\ gnu_step (fold_left gnu_step [ln "all: prog"] (start m0)) (ln "  ")
     = close_rule (fold_left gnu_step [ln "all: prog"] (start m0))
  /\ exists extra,
       rules (parse_gnu_makefile ([ln "all: prog"] ++ ln "  " :: [ln "clean:"]) m0)
       = rules (parse_gnu_makefile [ln "all: prog"] m0) ++ extra.
Proof.
  pose proof (blank_line_closes_rule (ln "  ") [ln "all: prog"] [ln "clean:"]
                (empty_makefile FORMAT_GNU_MAKE)
                (fold_left gnu_step [ln "all: prog"] (start (empty_makefile FORMAT_GNU_MAKE)))
                (lattice_start (empty_makefile FORMAT_GNU_MAKE))
                eq_refl) as ((Hg & _) & _ & _ & (Hr & _) & _).
  split; [reflexivity|]. split; [exact Hg | exact Hr].
Defined.

(** *** The recipe lines of the GNU Make, SAS/C and DICE parsers

    The three parsers test the first character of the trimmed line for a
    blank or a tab, so the command branch is never taken: their rules
    never get a command. *)

Lemma without_commands_kept (st : PState) (line : string) :
  without_commands st ->
  without_commands (gnu_step st line)
  /\ without_commands (sas_step st line)
  /\ without_commands (dice_step st line).
Proof.
  unfold without_commands. intros H.
  assert (Hopen : forall r, commands r = [] ->
            Forall (fun r => commands r = []) (rules (mk (open_rule st r)))).
  { intros r Hr. destruct (open_rule_cases st r) as [-> | ->]; [exact H|].
    simpl. apply Forall_app. split; [exact H|].
    apply Forall_cons. split; [exact Hr | apply Forall_nil; exact I]. }
  assert (Hcomment : forall t,
            Forall (fun r => commands r = []) (rules (store_comment (mk st) t))).
  { intros t. unfold store_comment. destruct (_ <? _); exact H. }
  assert (Hvar : forall v,
            Forall (fun r => commands r = []) (rules (add_variable (mk st) v))).
  { intros v. unfold add_variable. destruct (_ <? _); exact H. }
  unfold gnu_step, sas_step, dice_step.
  rewrite !command_branch_unreachable.
  repeat split;
    repeat match goal with
           | |- context [if ?c then _ else _] => destruct c
           end;
    simpl; auto.
Qed.

(** X19: the GNU Make, SAS/C and DICE parsers store no command, whatever
    the lines are.  The test for an indented line is made on the trimmed
    line, which never starts with a blank or a tab, so a line under a rule
    header that is no assignment and has no colon only closes the rule. *)
Lemma recipe_lines_are_lost (lines : list string) (f : MakefileFormat) :
  Forall (fun r => commands r = []) (rules (parse_gnu_makefile lines (empty_makefile f)))
  /\ Forall (fun r => commands r = []) (rules (parse_sas_makefile lines (empty_makefile f)))
  /\ Forall (fun r => commands r = []) (rules (parse_dice_makefile lines (empty_makefile f))).
Proof.
  unfold parse_gnu_makefile, parse_sas_makefile, parse_dice_makefile.
  repeat split; apply (fold_invariant without_commands);
    try (apply Forall_nil; exact I);
    intros st line H; apply (without_commands_kept st line H).
Qed.

(** ** Comment lines *)

Lemma comment_stored (t : string) (st : PState) :
  comment_count (mk st) < MAX_COMMANDS ->
  comment_outcome t st (with_mk st (store_comment (mk st) t)).
Proof.
  intros H. apply Nat.ltb_lt in H. unfold comment_outcome, store_comment.
  rewrite H. unfold comment_count. simpl. repeat split.
  - rewrite lookup_app_r; rewrite length_replicate; [|lia].
    rewrite Nat.sub_diag. reflexivity.
  - rewrite length_app, length_replicate. simpl. lia.
Qed.

Lemma first_is_nonempty (c : ascii) (t : string) : first_is c t = true -> is_empty t = false.
Proof. destruct t; [discriminate | reflexivity]. Qed.

(** C7, as stated, fails: the comment of the input is stored in the model
    and appears in the output of none of the four emitters. *)
Lemma comment_not_emitted :
  let m := parse_gnu_makefile (FGets_lines (ln "# build notes" +:+ ln "all: prog"))
                              (empty_makefile FORMAT_GNU_MAKE) in
  comments m = [Some (ln "# build notes")]
  /\ occurs "build notes" (emitted_text (convert_to_gnu_make m)) = false
  /\ occurs "build notes" (emitted_text (convert_to_sas_make m)) = false
  /\ occurs "build notes" (emitted_text (convert_to_dice_make m)) = false
  /\ occurs "build notes" (emitted_text (convert_to_lattice_make m)) = false.
Proof. vm_compute. repeat split. Qed.

(** C7, amended: a line that starts with the comment leader of the parser
    (['#'] for GNU Make and DICE, [';'] for SAS/C and Lattice) is stored,
    trimmed and otherwise verbatim, in the comment array when fewer than
    256 comments are counted, and the open rule stays open.  No emitter
    reads the comments: the output is the same whatever they are. *)
Theorem comment_line (st : PState) (lst : LState) (line : string)
    (c : list (option string)) (m : Makefile) (target : MakefileFormat) :
  let t := trim_whitespace line in
  comment_count (mk st) < MAX_COMMANDS ->
  ps lst = st ->
  full_line lst = line ->
  (first_is "#"%char t = true ->
   comment_outcome t st (gnu_step st line) /\ comment_outcome t st (dice_step st line))
  /\ (first_is ";"%char t = true ->
      comment_outcome t st (sas_step st line)
      /\ comment_outcome t st (ps (lattice_process lst))
      /\ in_with_block (lattice_process lst) = in_with_block lst)
  /\ convert (with_comments m c) target = convert m target.
Proof.
  intros t Hn Hps Hfl.
  split; [|split; [|reflexivity]]; intros H;
    pose proof (first_is_nonempty _ _ H) as Hne.
  - unfold gnu_step, dice_step. fold t. rewrite Hne, H.
    split; apply comment_stored, Hn.
  - unfold sas_step, lattice_process. rewrite Hfl. fold t. rewrite Hne, H, Hps.
    repeat split; apply comment_stored, Hn.
Qed.

Lemma comment_line_witness :
  let st := start (empty_makefile FORMAT_SAS_C) in
  let line := ln (spaces 2 +:+ "; note") in
  comment_outcome (trim_whitespace line) st (sas_step st line).
Proof.
  exact (proj1 (proj1 (proj2
           (comment_line (start (empty_makefile FORMAT_SAS_C))
              (mkLState (start (empty_makefile FORMAT_SAS_C)) false false
                        (ln (spaces 2 +:+ "; note")) 0)
              (ln (spaces 2 +:+ "; note")) [] (empty_makefile FORMAT_SAS_C) FORMAT_GNU_MAKE
              ltac:(vm_compute; lia) eq_refl eq_refl))
           eq_refl)).
Defined.

(** ** Emitters: the lines per variable and per rule *)

Lemma count_lines_app (kind : Call -> bool) (l1 l2 : list Call) :
  count_lines kind (l1 ++ l2) = count_lines kind l1 + count_lines kind l2.
Proof. unfold count_lines. rewrite List.filter_app, length_app. reflexivity. Qed.

Lemma count_lines_map {A : Type} (kind : Call -> bool) (f : A -> Call) (b : bool) (l : list A) :
  (forall x, kind (f x) = b) ->
  count_lines kind (map f l) = if b then length l else 0.
Proof.
  intros H. unfold count_lines.
  induction l as [|x l IH]; simpl; [destruct b; reflexivity|].
  rewrite H. destruct b; simpl; rewrite IH; reflexivity.
Qed.

Lemma count_lines_blocks {A : Type} (kind : Call -> bool) (g : A -> list Call)
    (once : A -> bool) (l : list A) :
  (forall x, count_lines kind (g x) = if once x then 1 else 0) ->
  count_lines kind (flat_map g l) = length (List.filter once l).
Proof.
  intros H. induction l as [|x l IH]; simpl; [reflexivity|].
  rewrite count_lines_app, H, IH. destruct (once x); reflexivity.
Qed.

Ltac by_cases :=
  repeat match goal with
         | |- context [if ?c then _ else _] => destruct c
         end;
  reflexivity.

Lemma variable_calls_kind (source_format : MakefileFormat) (v : Var) :
  (is_variable_line (gnu_variable v) = true /\ is_rule_header_line (gnu_variable v) = false)
  /\ (is_variable_line (sas_variable source_format v) = true
      /\ is_rule_header_line (sas_variable source_format v) = false)
  /\ (is_variable_line (dice_variable v) = true /\ is_rule_header_line (dice_variable v) = false)
  /\ (is_variable_line (lattice_variable v) = true
      /\ is_rule_header_line (lattice_variable v) = false).
Proof.
  unfold gnu_variable, sas_variable, dice_variable, lattice_variable, plain_variable.
  repeat split; by_cases.
Qed.

Lemma command_calls_kind (rule : Rule) (from to : MakefileFormat) :
  count_lines is_variable_line (command_calls rule from to) = 0
  /\ count_lines is_rule_header_line (command_calls rule from to) = 0.
Proof.
  unfold command_calls.
  split; rewrite (count_lines_map _ _ false); reflexivity.
Qed.

Lemma after_variables_kind (source : Makefile) :
  count_lines is_variable_line (after_variables source) = 0
  /\ count_lines is_rule_header_line (after_variables source) = 0.
Proof. unfold after_variables. destruct (0 <? _); split; reflexivity. Qed.

Lemma rule_blocks_kind (source_format : MakefileFormat) (rule : Rule) :
  (count_lines is_variable_line (gnu_rule source_format rule) = 0
   /\ count_lines is_rule_header_line (gnu_rule source_format rule)
      = if negb (header_lost source_format FORMAT_GNU_MAKE rule) then 1 else 0)
  /\ (count_lines is_variable_line (sas_rule source_format rule) = 0
      /\ count_lines is_rule_header_line (sas_rule source_format rule) = 1)
  /\ (count_lines is_variable_line (dice_rule source_format rule) = 0
      /\ count_lines is_rule_header_line (dice_rule source_format rule) = 1)
  /\ (count_lines is_variable_line (lattice_rule source_format rule) = 0
      /\ count_lines is_rule_header_line (lattice_rule source_format rule) = 1).
Proof.
  unfold gnu_rule, sas_rule, dice_rule, lattice_rule, header_lost.
  destruct (command_calls_kind rule source_format FORMAT_GNU_MAKE) as [Vg Hg].
  destruct (command_calls_kind rule source_format FORMAT_SAS_C) as [Vs Hs].
  destruct (command_calls_kind rule source_format FORMAT_DICE) as [Vd Hd].
  destruct (command_calls_kind rule source_format FORMAT_LATTICE) as [Vl Hl].
  rewrite !count_lines_app, Vg, Hg, Vd, Hd, Vl, Hl.
  unfold gnu_header, sas_header, dice_header, lattice_header, regular_header.
  repeat split.
  - by_cases.
  - destruct (is_pattern_rule rule), source_format; reflexivity.
  - destruct (0 <? command_count rule); [rewrite Vs|]; by_cases.
  - destruct (0 <? command_count rule); [rewrite Hs|]; by_cases.
  - by_cases.
  - by_cases.
  - by_cases.
  - by_cases.
Qed.

(** The number of variable lines and of rule header lines in the output
    of every emitter. *)
Lemma emitted_line_counts (source : Makefile) (target_format : MakefileFormat)
    (out : list Call) :
  convert source target_format = Some out ->
  count_lines is_variable_line out = variable_count source
  /\ count_lines is_rule_header_line out
     = length (List.filter (fun r => negb (header_lost (format source) target_format r))
                           (rules source)).
Proof.
  pose proof (fun v => variable_calls_kind (format source) v) as HV.
  pose proof (fun r => rule_blocks_kind (format source) r) as HR.
  destruct (after_variables_kind source) as [Va Ha].
  unfold convert, variable_count.
  destruct target_format; intros [= <-];
    unfold convert_to_gnu_make, convert_to_sas_make, convert_to_dice_make,
           convert_to_lattice_make;
    rewrite !count_lines_app, Va, Ha.
  - rewrite (count_lines_map _ _ true) by apply HV.
    rewrite (count_lines_map _ _ false) by apply HV.
    rewrite (count_lines_blocks _ _ (fun _ => false)) by apply HR.
    rewrite (count_lines_blocks is_rule_header_line _
               (fun r => negb (header_lost (format source) FORMAT_GNU_MAKE r))) by apply HR.
    split; [|reflexivity].
    replace (length (List.filter (fun _ => false) (rules source))) with 0
      by (induction (rules source); auto).
    simpl. lia.
  - rewrite (count_lines_map _ _ true) by apply HV.
    rewrite (count_lines_map _ _ false) by apply HV.
    rewrite (count_lines_blocks is_variable_line _ (fun _ => false)) by apply HR.
    rewrite (count_lines_blocks is_rule_header_line _ (fun _ => true)) by apply HR.
    replace (length (List.filter (fun _ => false) (rules source))) with 0
      by (induction (rules source); auto).
    split; [simpl; lia|].
    simpl. f_equal. apply List.filter_ext. intros r. unfold header_lost.
    rewrite andb_false_r. reflexivity.
  - rewrite (count_lines_map _ _ true) by apply HV.
    rewrite (count_lines_map _ _ false) by apply HV.
    rewrite (count_lines_blocks is_variable_line _ (fun _ => false)) by apply HR.
    rewrite (count_lines_blocks is_rule_header_line _ (fun _ => true)) by apply HR.
    replace (length (List.filter (fun _ => false) (rules source))) with 0
      by (induction (rules source); auto).
    split; [simpl; lia|].
    simpl. f_equal. apply List.filter_ext. intros r. unfold header_lost.
    rewrite andb_false_r. reflexivity.
  - rewrite (count_lines_map _ _ true) by apply HV.
    rewrite (count_lines_map _ _ false) by apply HV.
    rewrite (count_lines_blocks is_variable_line _ (fun _ => false)) by apply HR.
    rewrite (count_lines_blocks is_rule_header_line _ (fun _ => true)) by apply HR.
    replace (length (List.filter (fun _ => false) (rules source))) with 0
      by (induction (rules source); auto).
    split; [simpl; lia|].
    simpl. f_equal. apply List.filter_ext. intros r. unfold header_lost.
    rewrite andb_false_r. reflexivity.
Qed.

(** C2 at this input: the file is detected as GNU Make, the parser stores
    one rule, and the GNU Make emitter writes no header line for it. *)
Theorem gnu_pattern_rule_header_lost :
  let lines := FGets_lines pattern_makefile in
  let m := parse_gnu_makefile lines (empty_makefile FORMAT_GNU_MAKE) in
  detect_format (Some lines) = FORMAT_GNU_MAKE
  /\ parse_filetype_string "gnu" = FORMAT_GNU_MAKE
  /\ rule_count m = 1
  /\ count_lines is_rule_header_line (convert_to_gnu_make m) = 0
  /\ convert_to_gnu_make m
     = [ mkCall (ln "# Converted to GNU Make format from %s") ["GNU Make"];
         mkCall (ln (ln "# Generated by GenMaki")) [];
         newline_call ].
Proof. vm_compute. repeat split. Qed.

(** ** Converting a dialect to itself *)

Lemma self_variable_emitted (m : Makefile) (out : list Call) (v : Var) :
  convert m (format m) = Some out -> In v (variables m) ->
  exists c, self_variable (format m) v = Some c /\ In c out.
Proof.
  unfold convert, self_variable. intros H Hv.
  destruct (format m) eqn:Ef; [discriminate| | | |]; injection H as <-;
    eexists; (split; [reflexivity|]);
    unfold convert_to_gnu_make, convert_to_sas_make, convert_to_dice_make,
           convert_to_lattice_make;
    rewrite ?Ef; apply in_or_app; right; apply in_or_app; left;
    apply in_map, Hv.
Qed.

Lemma self_header_emitted (m : Makefile) (out : list Call) (r : Rule) (c : Call) :
  convert m (format m) = Some out -> In r (rules m) ->
  match format m with
  | FORMAT_GNU_MAKE => In c (gnu_header FORMAT_GNU_MAKE r)
  | FORMAT_SAS_C => In c (sas_header FORMAT_SAS_C r)
  | FORMAT_DICE => In c (dice_header FORMAT_DICE r)
  | FORMAT_LATTICE => In c (lattice_header FORMAT_LATTICE r)
  | FORMAT_UNKNOWN => False
  end ->
  In c out.
Proof.
  unfold convert. intros H Hr Hc.
  destruct (format m) eqn:Ef; [discriminate| | | |]; injection H as <-;
    unfold convert_to_gnu_make, convert_to_sas_make, convert_to_dice_make,
           convert_to_lattice_make;
    rewrite ?Ef; do 3 (apply in_or_app; right);
    apply in_flat_map; exists r; (split; [exact Hr|]);
    unfold gnu_rule, sas_rule, dice_rule, lattice_rule;
    apply in_or_app; left; exact Hc.
Qed.

(** C5, as stated, fails: the SAS/C parser reads the header [.s.o:] as a
    pattern rule and the SAS/C emitter writes [.c.o:] for it. *)
Lemma sas_self_conversion_changes_header :
  let lines := FGets_lines (ln ".s.o:" +:+ ln (tabbed "asm $*.s")) in
  let m := parse_sas_makefile lines (empty_makefile FORMAT_SAS_C) in
  map (fun r => (targets r, dependencies r, is_pattern_rule r)) (rules m) = [("*.o", "*.c", true)]
  /\ convert_to_sas_make m
     = [ mkCall (ln "; Converted to SAS/C SMakefile format from %s") ["SAS/C"];
         mkCall (ln (ln "; Generated by GenMaki")) [];
         mkCall (ln ".c.o:") [];
         sas_placeholder;
         newline_call ]
  /\ occurs ".s.o:" (emitted_text (convert_to_sas_make m)) = false.
Proof. vm_compute. repeat split. Qed.

(** C5, amended: when a model is converted to its own dialect, every
    variable is written with its value unchanged, unless it is the
    variable CC with one of the compiler names the emitter replaces; every
    rule that is not a pattern rule is written with its targets and
    dependencies unchanged (with [::] for a DICE double-colon rule); and
    the SAS/C, DICE and Lattice emitters write a pattern rule as the fixed
    pattern header of the dialect. *)
Theorem self_conversion (m : Makefile) (out : list Call) :
  convert m (format m) = Some out ->
  (forall v, In v (variables m) -> compiler_alias (format m) v = false ->
     exists c, In c out /\ is_variable_line c = true
               /\ List.last (args c) EmptyString = value v)
  /\ (forall r, In r (rules m) -> is_pattern_rule r = false ->
        exists c, In c out /\ args c = [targets r; dependencies r]
                  /\ fmt c = if format_eqb (format m) FORMAT_DICE && is_dice_form4 r
                             then ln "%s :: %s" else ln "%s: %s")
  /\ (forall r, In r (rules m) -> is_pattern_rule r = true ->
        format m <> FORMAT_GNU_MAKE ->
        In (mkCall (pattern_header (format m)) []) out).
Proof.
  intros H. split; [|split].
  - intros v Hv Ha.
    destruct (self_variable_emitted m out v H Hv) as (c & Ec & Hc).
    exists c. split; [exact Hc|].
    pose proof (variable_calls_kind (format m) v) as ((G & _) & (S & _) & (D & _) & (L & _)).
    unfold compiler_alias in Ha. unfold self_variable in Ec.
    destruct (format m) eqn:Ef; [discriminate| | | |]; injection Ec as <-;
      (split; [assumption|]);
      unfold gnu_variable, sas_variable, dice_variable, lattice_variable, plain_variable,
             convert_cflags;
      simpl in Ha;
      destruct (ieq (name v) "CC"); simpl in *;
      repeat match goal with
             | |- context [ieq (value v) ?s] => destruct (ieq (value v) s); simpl in *
             end;
      try discriminate Ha; try reflexivity;
      destruct (ieq (name v) "CFLAGS"); reflexivity.
  - intros r Hr Hp.
    pose proof (fun c => self_header_emitted m out r c H Hr) as Hemit.
    unfold gnu_header, sas_header, dice_header, lattice_header in Hemit.
    rewrite Hp in Hemit.
    destruct (format m) eqn:Ef; simpl.
    + discriminate H.
    + exists (regular_header r). split; [|split; reflexivity].
      apply Hemit. left. reflexivity.
    + exists (regular_header r). split; [|split; reflexivity].
      apply Hemit. left. reflexivity.
    + destruct (is_dice_form4 r) eqn:E4.
      * exists (mkCall (ln "%s :: %s") [targets r; dependencies r]).
        split; [|split; reflexivity].
        apply Hemit. left. reflexivity.
      * exists (regular_header r). split; [|split; reflexivity].
        apply Hemit. left. reflexivity.
    + exists (regular_header r). split; [|split; reflexivity].
      apply Hemit. left. reflexivity.
  - intros r Hr Hp Hg.
    pose proof (fun c => self_header_emitted m out r c H Hr) as Hemit.
    unfold gnu_header, sas_header, dice_header, lattice_header in Hemit.
    rewrite Hp in Hemit.
    destruct (format m) eqn:Ef; simpl.
    + discriminate H.
    + contradiction.
    + apply Hemit. left. reflexivity.
    + apply Hemit. left. reflexivity.
    + apply Hemit. left. reflexivity.
Qed.

Lemma self_conversion_witness :
  let m := parse_dice_makefile (FGets_lines (ln "CFLAGS = -O" +:+ ln "all :: prog"))
                               (empty_makefile FORMAT_DICE) in
  exists c, In c (convert_to_dice_make m)
            /\ args c = ["all"; ln "prog"]
            /\ fmt c = ln "%s :: %s".
Proof.
  exact (proj1 (proj2
           (self_conversion
              (parse_dice_makefile (FGets_lines (ln "CFLAGS = -O" +:+ ln "all :: prog"))
                                   (empty_makefile FORMAT_DICE))
              _ eq_refl))
           (mkRule "all" (ln "prog") [] false true)
           (or_introl eq_refl) eq_refl).
Defined.

(** ** The driver: the verbosity switch and the default target *)

Lemma conversion_output_app (t1 t2 : list Event) :
  conversion_output (t1 ++ t2) = conversion_output t1 ++ conversion_output t2.
Proof. unfold conversion_output. apply flat_map_app. Qed.

Lemma conversion_output_trace (v : bool) (f : string) (a : list Arg) :
  conversion_output (trace v f a) = [].
Proof. destruct v; reflexivity. Qed.

Lemma conversion_output_written (output : option string) (calls : list Call) :
  conversion_output (map (FPrintf output) calls) = map (fun c => (output, c)) calls.
Proof. induction calls as [|c cs IH]; simpl; [reflexivity | rewrite <- IH; reflexivity]. Qed.

Lemma observe_after (pre : list Event) (run : list Event * Z) :
  observe (let (t, retcode) := run in (pre ++ t, retcode))
  = (conversion_output pre ++ fst (observe run), snd (observe run)).
Proof. destruct run as [t r]. unfold observe. simpl. rewrite conversion_output_app. reflexivity. Qed.

Lemma observe_same (run : list Event * Z) :
  observe (let (t, retcode) := run in (t, retcode)) = observe run.
Proof. destruct run; reflexivity. Qed.

Ltac quiet :=
  unfold observe; simpl;
  rewrite ?conversion_output_app, ?conversion_output_trace; simpl;
  rewrite ?app_nil_r; reflexivity.

Lemma observe_main_convert env a v input_file target_format source :
  observe (main_convert env (with_verbose a v) input_file target_format source)
  = observe (main_convert env (with_verbose a false) input_file target_format source).
Proof.
  unfold main_convert. simpl.
  destruct (convert_makefile env source target_format (arg_to a)) as [written ok].
  destruct ok; quiet.
Qed.

Lemma observe_main_detect env a v input_file :
  observe (main_detect env (with_verbose a v) input_file)
  = observe (main_detect env (with_verbose a false) input_file).
Proof.
  unfold main_detect. simpl.
  destruct (format_eqb _ FORMAT_UNKNOWN); [quiet|].
  match goal with
  | |- context [match ?target with inl _ => _ | inr _ => _ end] => destruct target as [failure|t]
  end; [quiet|].
  destruct (parse_makefile _ _ _) as [parsed|]; [|quiet].
  rewrite ?observe_after, ?observe_same, observe_main_convert. quiet.
Qed.

(** C9: two runs that differ only in the VERBOSE switch write the same
    calls to the same output stream and end with the same return code. *)
Theorem verbosity_keeps_output (env : Env) (a : Args) (v1 v2 : bool) :
  observe (main env (with_verbose a v1)) = observe (main env (with_verbose a v2)).
Proof.
  assert (H : forall v, observe (main env (with_verbose a v))
                        = observe (main env (with_verbose a false))).
  { intros v. unfold main. simpl.
    destruct (arg_help a); [reflexivity|].
    destruct (rda a); simpl; [|reflexivity].
    destruct (utility_library env); simpl; [|quiet].
    destruct (arg_from a) as [input_file|].
    - rewrite ?observe_after, ?observe_same, observe_main_detect. quiet.
    - destruct (find_makefile env) as [[found_file|] printed].
      + rewrite ?observe_after, ?observe_same, observe_main_detect. quiet.
      + quiet. }
  rewrite (H v1), (H v2). reflexivity.
Qed.

(** With VERBOSE and without a TO file the diagnostics go to the same
    stream as the emitted text: what reaches the standard output differs,
    the emitted text does not. *)
Example verbose_diagnostics_on_stdout :
  let a := mkArgs true (Some "lmkfile") None None false false in
  List.filter is_stdout (fst (main sample_env (with_verbose a true)))
  <> List.filter is_stdout (fst (main sample_env (with_verbose a false))).
Proof. vm_compute. discriminate. Qed.

(** ** Option mapping as a table *)

Lemma append_empty (s : string) : s +:+ EmptyString = s.
Proof.
  induction s as [|c r IH]; [reflexivity|].
  change (String c (r +:+ EmptyString) = String c r). f_equal. exact IH.
Qed.

Ltac table_cases :=
  repeat match goal with
         | |- context [ieq ?a ?b] =>
             destruct (ieq a b); cbn [orb apply_action]; rewrite ?append_empty; try reflexivity
         | |- context [found ?p] =>
             destruct (found p); cbn [orb apply_action]; rewrite ?append_empty; try reflexivity
         end.

(** The chain of tests of [map_compiler_option] is the table. *)
Lemma map_compiler_option_table (opt : string) (from to : MakefileFormat) :
  map_compiler_option opt from to
  = match table_lookup (option_table from to) opt with
    | Some act => apply_action act opt
    | None => opt
    end.
Proof.
  unfold map_compiler_option, when, or_next.
  destruct from, to;
    cbn [format_eqb andb option_table table_lookup matches for_target];
    unfold lattice_to_sas, lattice_to_dice, lattice_to_gnu, from_sas, from_dice, from_gnu;
    cbn [per_target]; try reflexivity; table_cases.
Qed.

(** ** The flags string *)

Lemma append_cons (c : ascii) (a b : string) : String c a +:+ b = String c (a +:+ b).
Proof. reflexivity. Qed.

Lemma append_nil (b : string) : EmptyString +:+ b = b.
Proof. reflexivity. Qed.

Lemma append_assoc (a b c : string) : (a +:+ b) +:+ c = a +:+ (b +:+ c).
Proof.
  induction a as [|x a IH]; [reflexivity|].
  rewrite !append_cons, IH. reflexivity.
Qed.

Lemma length_append (a b : string) :
  String.length (a +:+ b) = String.length a + String.length b.
Proof.
  induction a as [|c r IH]; [reflexivity|].
  rewrite append_cons. simpl String.length. rewrite IH. reflexivity.
Qed.

Lemma is_empty_append (a b : string) : is_empty (a +:+ b) = is_empty a && is_empty b.
Proof. destruct a; reflexivity. Qed.

Lemma tokens_from_scan (s : string) :
  forall cur,
    tokens_from cur s
    = (if is_empty (cur +:+ fst (scan_token s)) then [] else [cur +:+ fst (scan_token s)])
      ++ tokens_from EmptyString (snd (scan_token s)).
Proof.
  induction s as [|c r IH]; intros cur.
  - simpl. rewrite append_empty, app_nil_r. reflexivity.
  - cbn [tokens_from scan_token].
    destruct (Ascii.eqb c SPACE) eqn:E.
    + cbn [fst snd tokens_from]. rewrite E, append_empty. reflexivity.
    + rewrite IH. destruct (scan_token r) as [tok rest]. cbn [fst snd].
      rewrite append_assoc, append_cons, append_nil. reflexivity.
Qed.

Lemma tokens_from_skip (s : string) :
  tokens_from EmptyString (skip_spaces s) = tokens_from EmptyString s.
Proof.
  induction s as [|c r IH]; [reflexivity|].
  cbn [skip_spaces tokens_from].
  destruct (Ascii.eqb c SPACE) eqn:E; [exact IH|].
  cbn [tokens_from]. rewrite E. reflexivity.
Qed.

Lemma skip_spaces_length (s : string) : String.length (skip_spaces s) <= String.length s.
Proof.
  induction s as [|c r IH]; simpl; [lia|].
  destruct (Ascii.eqb c SPACE); simpl; lia.
Qed.

Lemma skip_spaces_head (s : string) : first_is SPACE (skip_spaces s) = false.
Proof.
  induction s as [|c r IH]; simpl; [reflexivity|].
  destruct (Ascii.eqb c SPACE) eqn:E; [exact IH | exact E].
Qed.

Lemma scan_token_length (s : string) :
  String.length (snd (scan_token s)) <= String.length s.
Proof.
  induction s as [|c r IH]; simpl; [lia|].
  destruct (Ascii.eqb c SPACE); simpl; [lia|].
  destruct (scan_token r); simpl in *. lia.
Qed.

(** A token that does not start with a space is not empty and takes at
    least one character. *)
Lemma scan_token_progress (s : string) :
  is_empty s = false -> first_is SPACE s = false ->
  is_empty (fst (scan_token s)) = false
  /\ String.length (snd (scan_token s)) < String.length s.
Proof.
  destruct s as [|c r]; [discriminate|]. simpl. intros _ E. rewrite E.
  pose proof (scan_token_length r) as H.
  destruct (scan_token r); simpl in *. split; [reflexivity | lia].
Qed.

Section Flags.
Variables from to : MakefileFormat.

Lemma cflags_loop_tokens (size fuel : nat) :
  forall (current : string) (new_flags : Built) (first_option : bool),
    String.length current <= fuel ->
    cflags_loop fuel current from to size new_flags first_option
    = append_all_in size new_flags first_option (mapped_tokens from to current).
Proof.
  unfold mapped_tokens, tokens.
  induction fuel as [|fuel IH]; intros current new_flags first_option Hlen.
  - destruct current; [reflexivity | simpl in Hlen; lia].
  - cbn [cflags_loop].
    destruct (is_empty current) eqn:Ec; [destruct current; [reflexivity | discriminate]|].
    rewrite <- (tokens_from_skip current).
    pose proof (skip_spaces_length current) as Hskip.
    pose proof (skip_spaces_head current) as Hhead.
    destruct (is_empty (skip_spaces current)) eqn:E1.
    { destruct (skip_spaces current); [reflexivity | discriminate]. }
    destruct (scan_token_progress _ E1 Hhead) as [Htok Hrest].
    rewrite (tokens_from_scan (skip_spaces current)), append_nil.
    destruct (scan_token (skip_spaces current)) as [opt current2].
    cbn [fst snd] in *. rewrite Htok.
    cbn [app map List.filter].
    destruct (nonempty (map_compiler_option opt from to)).
    + cbn [append_all_in]. apply IH. lia.
    + apply IH. lia.
Qed.

(** What the copies write does not depend on the allocation. *)
Lemma append_all_in_text (size : nat) (l : list string) :
  forall (b : Built) (first_option : bool),
    built_text (append_all_in size b first_option l)
    = append_all (built_text b) first_option l.
Proof.
  induction l as [|m l IH]; intros b first_option; [reflexivity|].
  cbn [append_all_in append_all]. rewrite IH. f_equal.
  destruct first_option; cbn [strcat_in built_text].
  - rewrite append_nil. reflexivity.
  - rewrite append_assoc. reflexivity.
Qed.

Lemma append_all_length (l : list string) :
  forall (acc : string) (first_option : bool),
    String.length acc <= String.length (append_all acc first_option l).
Proof.
  induction l as [|m l IH]; intros acc first_option; cbn [append_all]; [lia|].
  etransitivity; [|apply IH]. rewrite length_append. lia.
Qed.

(** The copies only append, so they stay inside the allocation exactly
    when the string they leave does, with its terminator. *)
Lemma append_all_in_overrun (size : nat) (l : list string) :
  forall (b : Built) (first_option : bool),
    ((String.length (built_text b) <? size) = false -> overrun b = true) ->
    overrun (append_all_in size b first_option l)
    = overrun b
      || negb (String.length (built_text (append_all_in size b first_option l)) <? size).
Proof.
  induction l as [|m l IH]; intros b first_option Hb.
  - cbn [append_all_in].
    destruct (String.length (built_text b) <? size) eqn:E.
    + rewrite orb_false_r. reflexivity.
    + rewrite (Hb eq_refl). reflexivity.
  - cbn [append_all_in].
    set (inner := if first_option then b else strcat_in size b " ").
    set (b' := strcat_in size inner m).
    assert (Hinner : String.length (built_text b) <= String.length (built_text inner)).
    { unfold inner. destruct first_option; cbn [strcat_in built_text];
        rewrite ?length_append; lia. }
    assert (Hlen : String.length (built_text b')
                   = String.length (built_text inner) + String.length m).
    { unfold b'. cbn [strcat_in built_text]. apply length_append. }
    assert (Hb' : (String.length (built_text b') <? size) = false -> overrun b' = true).
    { intros H. unfold b'. cbn [strcat_in overrun]. rewrite <- Hlen, H. apply orb_true_r. }
    rewrite (IH b' false Hb').
    pose proof (append_all_length l (built_text b') false) as Hfinal.
    rewrite <- (append_all_in_text size l b' false) in Hfinal.
    destruct (String.length (built_text (append_all_in size b' false l)) <? size) eqn:EF;
      cbn [negb]; rewrite ?orb_true_r; [|reflexivity].
    rewrite !orb_false_r. apply Nat.ltb_lt in EF.
    unfold b'. cbn [strcat_in overrun]. rewrite <- Hlen.
    replace (String.length (built_text b') <? size) with true
      by (symmetry; apply Nat.ltb_lt; lia).
    cbn [negb]. rewrite orb_false_r.
    unfold inner. destruct first_option; [reflexivity|].
    cbn [strcat_in overrun built_text].
    replace (String.length (built_text b) + String.length " " <? size) with true.
    + cbn [negb]. apply orb_false_r.
    + symmetry. apply Nat.ltb_lt.
      unfold inner in Hinner, Hlen. cbn [strcat_in built_text] in Hlen.
      rewrite length_append in Hlen. lia.
Qed.

Lemma append_all_spaced (l : list string) :
  forall acc, append_all acc false l
              = acc +:+ fold_right (fun m r => " " +:+ m +:+ r) EmptyString l.
Proof.
  induction l as [|m l IH]; intros acc; cbn [append_all fold_right].
  - rewrite append_empty. reflexivity.
  - rewrite IH, !append_assoc. reflexivity.
Qed.

Lemma concat_spaced (x : string) (l : list string) :
  String.concat " " (x :: l)
  = x +:+ fold_right (fun m r => " " +:+ m +:+ r) EmptyString l.
Proof.
  revert x. induction l as [|y l IH]; intros x.
  - cbn [String.concat fold_right]. rewrite append_empty. reflexivity.
  - change (String.concat " " (x :: y :: l)) with (x +:+ " " +:+ String.concat " " (y :: l)).
    rewrite IH. reflexivity.
Qed.

(** [convert_cflags] maps the tokens one by one, leaves out those mapped
    to the empty string and joins the rest with single spaces; the result
    lies inside the allocation when it is shorter than twice the flags. *)
Lemma convert_cflags_tokens (flags : string) :
  format_eqb from to = false ->
  convert_cflags flags from to
  = mkBuilt (String.concat " " (mapped_tokens from to flags))
            (negb (String.length (String.concat " " (mapped_tokens from to flags))
                   <? String.length flags * 2)).
Proof.
  intros Hne. unfold convert_cflags. rewrite Hne. cbv zeta.
  rewrite cflags_loop_tokens by lia.
  assert (Ht : built_text (append_all_in (String.length flags * 2)
                             (cleared (String.length flags * 2)) true
                             (mapped_tokens from to flags))
               = String.concat " " (mapped_tokens from to flags)).
  { rewrite append_all_in_text. cbn [cleared built_text].
    destruct (mapped_tokens from to flags) as [|x l]; [reflexivity|].
    cbn [append_all]. rewrite append_all_spaced, concat_spaced, !append_nil. reflexivity. }
  pose proof (append_all_in_overrun (String.length flags * 2) (mapped_tokens from to flags)
                (cleared (String.length flags * 2)) true) as Ho.
  rewrite Ht in Ho. cbn [cleared built_text overrun String.length] in Ho.
  specialize (Ho (fun H => f_equal negb H)).
  destruct (append_all_in _ _ _ _) as [text over]. cbn [built_text overrun] in *.
  subst text. rewrite Ho. f_equal.
  destruct (0 <? String.length flags * 2) eqn:E0; [reflexivity|].
  apply Nat.ltb_ge in E0. cbn [negb orb]. symmetry.
  replace (_ <? _) with false; [reflexivity|]. symmetry. apply Nat.ltb_ge. lia.
Qed.
End Flags.

(** C8, as stated, fails for a pair of equal dialects: the SAS/C table has
    an entry without equivalent for NOSTANDARDIO, the mapping returns the
    empty string for it, and the flags come back from [convert_cflags] with
    the token in them. *)
Lemma same_dialect_keeps_dropped_option :
  table_lookup (option_table FORMAT_SAS_C FORMAT_SAS_C) "NOSTANDARDIO" = Some Drop
  /\ map_compiler_option "NOSTANDARDIO" FORMAT_SAS_C FORMAT_SAS_C = EmptyString
  /\ built_text (convert_cflags "OPTIMIZE NOSTANDARDIO" FORMAT_SAS_C FORMAT_SAS_C)
     = "OPTIMIZE NOSTANDARDIO"
  /\ In "NOSTANDARDIO"
        (tokens (built_text (convert_cflags "OPTIMIZE NOSTANDARDIO"
                                            FORMAT_SAS_C FORMAT_SAS_C))).
Proof. vm_compute. repeat split. right. left. reflexivity. Qed.

(** C8, amended: for every ordered pair of dialects, a token that matches
    no entry of the table of the pair is returned unchanged and a token
    whose first matching entry says that the target has no equivalent is
    returned as the empty string.  For two different dialects the
    converted flags are the mapped tokens without the empty ones, joined
    by single spaces, when that string is shorter than twice the flags,
    which is what is allocated for it.  For a dialect and itself the flags
    are returned as they are. *)
Theorem option_mapping (opt flags : string) (from to : MakefileFormat) :
  (table_lookup (option_table from to) opt = None -> map_compiler_option opt from to = opt)
  /\ (table_lookup (option_table from to) opt = Some Drop ->
      map_compiler_option opt from to = EmptyString)
  /\ (format_eqb from to = false ->
      let converted :=
        String.concat " "
          (List.filter nonempty (map (fun o => map_compiler_option o from to) (tokens flags))) in
      String.length converted < String.length flags * 2 ->
      convert_cflags flags from to = mkBuilt converted false)
  /\ (format_eqb from to = true -> convert_cflags flags from to = mkBuilt flags false).
Proof.
  split; [|split; [|split]].
  - intros H. rewrite map_compiler_option_table, H. reflexivity.
  - intros H. rewrite map_compiler_option_table, H. reflexivity.
  - intros Hne converted Hfits. rewrite (convert_cflags_tokens from to flags Hne).
    unfold mapped_tokens. subst converted.
    apply Nat.ltb_lt in Hfits. rewrite Hfits. reflexivity.
  - intros Heq. unfold convert_cflags. rewrite Heq. reflexivity.
Qed.

Lemma option_mapping_witness :
  map_compiler_option "-fno-builtin" FORMAT_GNU_MAKE FORMAT_DICE = "-fno-builtin"
  /\ map_compiler_option "-w" FORMAT_GNU_MAKE FORMAT_DICE = EmptyString
  /\ convert_cflags "-O2 -w  -fno-builtin" FORMAT_GNU_MAKE FORMAT_DICE
     = mkBuilt "-O -fno-builtin" false
  /\ convert_cflags "NOSTANDARDIO" FORMAT_SAS_C FORMAT_SAS_C = mkBuilt "NOSTANDARDIO" false.
Proof.
  split; [|split; [|split]].
  - exact (proj1 (option_mapping "-fno-builtin" EmptyString FORMAT_GNU_MAKE FORMAT_DICE) eq_refl).
  - exact (proj1 (proj2 (option_mapping "-w" EmptyString FORMAT_GNU_MAKE FORMAT_DICE)) eq_refl).
  - apply (proj1 (proj2 (proj2 (option_mapping EmptyString "-O2 -w  -fno-builtin"
                                  FORMAT_GNU_MAKE FORMAT_DICE))) eq_refl).
    vm_compute. lia.
  - exact (proj2 (proj2 (proj2 (option_mapping EmptyString "NOSTANDARDIO"
                                  FORMAT_SAS_C FORMAT_SAS_C))) eq_refl).
Defined.

(** The allocation is too small for short options with long equivalents:
    the one option [-c] becomes [OBJNAME], eight bytes with the terminator,
    in an allocation of four. *)
Example convert_cflags_overrun :
  convert_cflags "-c" FORMAT_GNU_MAKE FORMAT_SAS_C = mkBuilt "OBJNAME" true.
Proof. reflexivity. Qed.

Example convert_cflags_drops :
  convert_cflags "-O2 -w  -fno-builtin" FORMAT_GNU_MAKE FORMAT_DICE
  = mkBuilt "-O -fno-builtin" false.
Proof. reflexivity. Qed.

(** * Further properties of the code *)

(** ** [trim_whitespace] *)

Lemma skip_whitespace_split (s : string) :
  s = lead_blanks s +:+ skip_whitespace s /\ all_blank (lead_blanks s) = true.
Proof.
  induction s as [|c r [IH1 IH2]]; [split; reflexivity|].
  cbn [lead_blanks skip_whitespace all_blank].
  destruct (is_blank c) eqn:E.
  - cbn [all_blank]. rewrite E, IH2. split; [|reflexivity].
    rewrite append_cons. f_equal. exact IH1.
  - split; reflexivity.
Qed.

Lemma rstrip_split (s : string) :
  exists trail, s = rstrip s +:+ trail /\ all_blank trail = true.
Proof.
  induction s as [|c r (trail & E & Hb)]; [exists EmptyString; split; reflexivity|].
  cbn [rstrip]. destruct (rstrip r) as [|b r'] eqn:Er.
  - rewrite append_nil in E. subst trail.
    destruct (is_blank c) eqn:Ec.
    + exists (String c r). cbn [all_blank]. rewrite Ec, Hb. split; reflexivity.
    + exists r. split; [reflexivity | exact Hb].
  - exists trail. split; [|exact Hb].
    rewrite append_cons. f_equal. exact E.
Qed.

Lemma rstrip_last (s : string) :
  match last_char (rstrip s) with
  | Some c => is_blank c = false
  | None => rstrip s = EmptyString
  end.
Proof.
  induction s as [|c r IH]; [reflexivity|].
  cbn [rstrip]. destruct (rstrip r) as [|b r'] eqn:Er.
  - destruct (is_blank c) eqn:Ec; [reflexivity | exact Ec].
  - change (last_char (String c (String b r'))) with (last_char (String b r')).
    destruct (last_char (String b r')); [exact IH | discriminate IH].
Qed.

Lemma rstrip_fixed (s : string) (x : ascii) :
  last_char s = Some x -> is_blank x = false -> rstrip s = s.
Proof.
  induction s as [|c r IH]; [discriminate|].
  intros Hl Hx. destruct r as [|b r1].
  - injection Hl as ->. cbn [rstrip]. rewrite Hx. reflexivity.
  - change (rstrip (String c (String b r1)))
      with (match rstrip (String b r1) with
            | EmptyString => if is_blank c then EmptyString else String c EmptyString
            | r' => String c r'
            end).
    rewrite (IH Hl Hx). reflexivity.
Qed.

Lemma trim_as_rstrip (s : string) : trim_whitespace s = rstrip (skip_whitespace s).
Proof.
  unfold trim_whitespace. pose proof (skip_whitespace_head s) as H.
  destruct (skip_whitespace s) as [|c r]; [reflexivity|].
  cbn [rstrip]. destruct (rstrip r); [rewrite H|]; reflexivity.
Qed.

Lemma skip_whitespace_fixed (s : string) :
  first_is TAB s || first_is SPACE s = false -> skip_whitespace s = s.
Proof.
  destruct s as [|c r]; [reflexivity|]. cbn [first_is skip_whitespace]. unfold is_blank.
  destruct (Ascii.eqb c SPACE), (Ascii.eqb c TAB); try discriminate; reflexivity.
Qed.

(** X1: [trim_whitespace] returns the string without the blanks and tabs at
    its two ends and without changing anything else: the result does not
    start or end with a blank or a tab, the input is the result between a
    run of blanks in front and one behind, and trimming twice is trimming
    once. *)
Theorem trim_whitespace_cuts_blanks (s : string) :
  (exists lead trail,
     s = lead +:+ trim_whitespace s +:+ trail
     /\ all_blank lead = true /\ all_blank trail = true)
  /\ first_is TAB (trim_whitespace s) || first_is SPACE (trim_whitespace s) = false
  /\ match last_char (trim_whitespace s) with
     | Some c => is_blank c = false
     | None => trim_whitespace s = EmptyString
     end
  /\ trim_whitespace (trim_whitespace s) = trim_whitespace s.
Proof.
  split; [|split; [apply trim_whitespace_head|split]].
  - destruct (skip_whitespace_split s) as [E1 B1].
    destruct (rstrip_split (skip_whitespace s)) as (trail & E2 & B2).
    exists (lead_blanks s), trail. rewrite trim_as_rstrip, <- E2, <- E1. auto.
  - rewrite trim_as_rstrip. apply rstrip_last.
  - rewrite (trim_as_rstrip (trim_whitespace s)).
    rewrite (skip_whitespace_fixed _ (trim_whitespace_head s)).
    rewrite trim_as_rstrip.
    pose proof (rstrip_last (skip_whitespace s)) as H.
    destruct (last_char (rstrip (skip_whitespace s))) as [x|] eqn:El.
    + apply (rstrip_fixed _ x El H).
    + rewrite H. reflexivity.
Qed.

(** ** [my_strcmp] and [my_stricmp] *)

Lemma c_string_cons (c : ascii) (r : string) :
  c_string (String c r) <-> Ascii.eqb c NUL = false /\ c_string r.
Proof.
  unfold c_string. cbn [strchr]. destruct (Ascii.eqb c NUL); split.
  - discriminate.
  - intros [H _]; discriminate H.
  - auto.
  - intros [_ H]; exact H.
Qed.

Lemma code_zero (c : ascii) : code c = 0%Z -> c = NUL.
Proof. intros H. apply code_injective. rewrite H. reflexivity. Qed.

Lemma tolower_zero (c : ascii) : code (tolower c) = 0%Z -> c = NUL.
Proof.
  unfold tolower.
  destruct ((65 <=? code c)%Z && (code c <=? 90)%Z) eqn:E; [|apply code_zero].
  apply andb_true_iff in E as [Ea Eb]. apply Z.leb_le in Ea, Eb.
  unfold code at 1. rewrite N_ascii_embedding by (unfold code in Eb; lia).
  unfold code in Ea. lia.
Qed.

Lemma my_stricmp_swap (a : string) :
  forall b, my_stricmp a b = (- my_stricmp b a)%Z.
Proof.
  induction a as [|c1 r1 IH]; intros [|c2 r2]; cbn [my_stricmp]; try lia.
  rewrite (Ascii.eqb_sym (tolower c2) (tolower c1)).
  destruct (Ascii.eqb (tolower c1) (tolower c2)); [apply IH | lia].
Qed.

Lemma my_stricmp_zero (a : string) :
  forall b, c_string a -> c_string b ->
            (my_stricmp a b = 0%Z <-> lower a = lower b).
Proof.
  induction a as [|c1 r1 IH]; intros [|c2 r2] Ha Hb; cbn [my_stricmp lower].
  - split; reflexivity.
  - apply c_string_cons in Hb as [Hn _]. split; [|discriminate].
    intros H. assert (c2 = NUL) as -> by (apply tolower_zero; lia). discriminate Hn.
  - apply c_string_cons in Ha as [Hn _]. split; [|discriminate].
    intros H. assert (c1 = NUL) as -> by (apply tolower_zero; lia). discriminate Hn.
  - apply c_string_cons in Ha as [_ Ha]. apply c_string_cons in Hb as [_ Hb].
    destruct (Ascii.eqb (tolower c1) (tolower c2)) eqn:E.
    + apply Ascii.eqb_eq in E. rewrite E. rewrite (IH r2 Ha Hb).
      split; [intros ->; reflexivity | intros [= H]; exact H].
    + apply Ascii.eqb_neq in E. split.
      * intros H. exfalso. apply E, code_injective. lia.
      * intros [= H _]. contradiction.
Qed.

Lemma my_strcmp_zero (a : string) :
  forall b, c_string a -> c_string b -> (my_strcmp a b = 0%Z <-> a = b).
Proof.
  induction a as [|c1 r1 IH]; intros [|c2 r2] Ha Hb; cbn [my_strcmp].
  - split; reflexivity.
  - apply c_string_cons in Hb as [Hn _]. split; [|discriminate].
    intros H. assert (c2 = NUL) as -> by (apply code_zero; lia). discriminate Hn.
  - apply c_string_cons in Ha as [Hn _]. split; [|discriminate].
    intros H. assert (c1 = NUL) as -> by (apply code_zero; lia). discriminate Hn.
  - apply c_string_cons in Ha as [_ Ha]. apply c_string_cons in Hb as [_ Hb].
    destruct (Ascii.eqb c1 c2) eqn:E.
    + apply Ascii.eqb_eq in E. subst c2. rewrite (IH r2 Ha Hb).
      split; [intros ->; reflexivity | intros [= H]; exact H].
    + apply Ascii.eqb_neq in E. split.
      * intros H. exfalso. apply E, code_injective. lia.
      * intros [= H _]. contradiction.
Qed.

(** X2: on C strings [my_strcmp] returns 0 exactly for equal strings and
    [my_stricmp] returns 0 exactly for strings that are equal once their
    ASCII capitals are made small; exchanging the arguments of
    [my_stricmp] changes the sign of the result. *)
Theorem string_comparisons (a b : string) :
  c_string a -> c_string b ->
  (my_strcmp a b = 0%Z <-> a = b)
  /\ (my_stricmp a b = 0%Z <-> lower a = lower b)
  /\ my_stricmp a b = (- my_stricmp b a)%Z.
Proof.
  intros Ha Hb. split; [|split].
  - apply my_strcmp_zero; assumption.
  - apply my_stricmp_zero; assumption.
  - apply my_stricmp_swap.
Qed.

Lemma string_comparisons_witness :
  (my_strcmp "SMake" "smake" = 0%Z <-> "SMake" = "smake")
  /\ (my_stricmp "SMake" "smake" = 0%Z <-> lower "SMake" = lower "smake")
  /\ my_stricmp "SMake" "smake" = (- my_stricmp "smake" "SMake")%Z.
Proof. exact (string_comparisons "SMake" "smake" eq_refl eq_refl). Defined.

(** ** [parse_filetype_string] *)

Lemma ieq_lower (a k : string) :
  c_string a -> c_string k -> (ieq a k = true <-> lower a = lower k).
Proof.
  intros Ha Hk. unfold ieq. rewrite Z.eqb_eq. apply my_stricmp_zero; assumption.
Qed.

(** Two strings that differ in letter case only compare alike with any
    third string. *)
Lemma ieq_congruent (a b k : string) :
  c_string a -> c_string b -> c_string k -> ieq a b = true -> ieq a k = ieq b k.
Proof.
  intros Ha Hb Hk E. apply (ieq_lower a b Ha Hb) in E.
  destruct (ieq a k) eqn:E1, (ieq b k) eqn:E2; try reflexivity.
  - apply (ieq_lower a k Ha Hk) in E1. rewrite E in E1.
    apply (ieq_lower b k Hb Hk) in E1. congruence.
  - apply (ieq_lower b k Hb Hk) in E2. rewrite <- E in E2.
    apply (ieq_lower a k Ha Hk) in E2. congruence.
Qed.

(** X3: the alias given as FILETYPE is read without regard to letter case:
    two aliases that differ in case only name the same format. *)
Theorem filetype_alias_ignores_case (a b : string) :
  c_string a -> c_string b -> ieq a b = true ->
  parse_filetype_string a = parse_filetype_string b.
Proof.
  intros Ha Hb E. unfold parse_filetype_string.
  repeat match goal with
         | |- context [ieq a ?k] =>
             rewrite (ieq_congruent a b k Ha Hb eq_refl E)
         end.
  reflexivity.
Qed.

Lemma filetype_alias_ignores_case_witness :
  parse_filetype_string "SASC" = parse_filetype_string "sasc".
Proof. exact (filetype_alias_ignores_case "SASC" "sasc" eq_refl eq_refl eq_refl). Defined.

(** ** [find_makefile] *)

Lemma case_blind_pair (env : Env) (x y : string) :
  case_blind env = true -> In x candidates -> In y candidates ->
  ieq x y = true -> opens env x = opens env y.
Proof.
  unfold case_blind. intros H Hx Hy E.
  rewrite List.forallb_forall in H. specialize (H x Hx).
  rewrite List.forallb_forall in H. specialize (H y Hy).
  rewrite E in H. apply Bool.eqb_prop in H. exact H.
Qed.

Ltac in_candidates :=
  unfold candidates; cbn [In]; repeat (first [left; reflexivity | right]).

(** X4: where [Open] ignores letter case the search for an input succeeds
    for one directory content only: GNUmakefile is there and none of
    makefile, smakefile, dmakefile and lmkfile is.  Each of those four
    names is tried in two or three spellings, all of which open the same
    file, and more than one hit is reported as ambiguous. *)
Theorem find_makefile_case_blind (env : Env) :
  case_blind env = true ->
  fst (find_makefile env)
  = if opens env "GNUmakefile"
       && negb (opens env "makefile") && negb (opens env "smakefile")
       && negb (opens env "dmakefile") && negb (opens env "lmkfile")
    then Some "GNUmakefile" else None.
Proof.
  intros H.
  assert (E1 : opens env "Makefile" = opens env "makefile")
    by (apply (case_blind_pair env _ _ H); [in_candidates | in_candidates | reflexivity]).
  assert (E2 : opens env "MAKEFILE" = opens env "makefile")
    by (apply (case_blind_pair env _ _ H); [in_candidates | in_candidates | reflexivity]).
  assert (E3 : opens env "SMakefile" = opens env "smakefile")
    by (apply (case_blind_pair env _ _ H); [in_candidates | in_candidates | reflexivity]).
  assert (E4 : opens env "SMAKEFILE" = opens env "smakefile")
    by (apply (case_blind_pair env _ _ H); [in_candidates | in_candidates | reflexivity]).
  assert (E5 : opens env "Dmakefile" = opens env "dmakefile")
    by (apply (case_blind_pair env _ _ H); [in_candidates | in_candidates | reflexivity]).
  assert (E6 : opens env "DMAKEFILE" = opens env "dmakefile")
    by (apply (case_blind_pair env _ _ H); [in_candidates | in_candidates | reflexivity]).
  assert (E7 : opens env "LMKFILE" = opens env "lmkfile")
    by (apply (case_blind_pair env _ _ H); [in_candidates | in_candidates | reflexivity]).
  unfold find_makefile. cbv zeta.
  change (fun c => match open_old env c with Some _ => true | None => false end)
    with (opens env).
  rewrite (filter_ext_in (opens env)
             (fun c => if ieq c "makefile" then opens env "makefile"
                       else if ieq c "GNUmakefile" then opens env "GNUmakefile"
                       else if ieq c "smakefile" then opens env "smakefile"
                       else if ieq c "dmakefile" then opens env "dmakefile"
                       else opens env "lmkfile")).
  - destruct (opens env "makefile"), (opens env "GNUmakefile"), (opens env "smakefile"),
      (opens env "dmakefile"), (opens env "lmkfile"); reflexivity.
  - intros c Hc. unfold candidates in Hc. cbn [In] in Hc.
    repeat destruct Hc as [<-|Hc]; try contradiction;
      first [reflexivity | exact E1 | exact E2 | exact E3 | exact E4
             | exact E5 | exact E6 | exact E7].
Qed.

Lemma find_makefile_case_blind_witness :
  fst (find_makefile gnumakefile_only) = Some "GNUmakefile".
Proof. exact (find_makefile_case_blind gnumakefile_only eq_refl). Defined.

(** ** The outcome of a run *)

Lemma conversion_output_printf (fs : list Event) :
  Forall (fun e => match e with Printf _ _ => True | FPrintf _ _ => False end) fs ->
  conversion_output fs = [].
Proof.
  induction 1 as [|e fs He _ IH]; [reflexivity|].
  destruct e; [exact IH | contradiction].
Qed.

Lemma find_makefile_prints (env : Env) :
  conversion_output (snd (find_makefile env)) = [].
Proof.
  unfold find_makefile. cbv zeta.
  destruct (List.filter _ candidates) as [|f1 [|f2 fs]]; try reflexivity.
  cbn [snd]. rewrite !conversion_output_app.
  rewrite (conversion_output_printf (map _ _)).
  - reflexivity.
  - apply Forall_map, Forall_true. intros; exact I.
Qed.

Lemma observe_main_detect_converted (env : Env) (a : Args) (input_file : string) :
  observe (main_detect env a input_file)
  = match converted env a input_file with
    | Some calls => (map (fun c => (arg_to a, c)) calls, RETURN_OK)
    | None => ([], RETURN_ERROR)
    end.
Proof.
  unfold main_detect, converted, target_of. cbv zeta.
  destruct (format_eqb _ FORMAT_UNKNOWN); [quiet|].
  match goal with
  | |- context [match ?target with inl _ => _ | inr _ => _ end] =>
      assert (Ht : match target with
                   | inl failure => conversion_output failure = []
                                    /\ target_of a (detect_format
                                         (option_map FGets_lines (open_old env input_file))) = None
                   | inr t => target_of a (detect_format
                                (option_map FGets_lines (open_old env input_file))) = Some t
                   end)
  end.
  { unfold target_of. destruct (arg_filetype a) as [ft|].
    - destruct (parse_filetype_string ft); [split| | | |]; reflexivity.
    - destruct (default_target _); [|split]; reflexivity. }
  unfold target_of in Ht.
  match goal with
  | |- context [match ?target with inl _ => _ | inr _ => _ end] =>
      destruct target as [failure|t]
  end.
  - destruct Ht as [Hf Ht]. rewrite Ht. unfold observe. cbn [fst snd].
    rewrite !conversion_output_app, !conversion_output_trace, Hf. reflexivity.
  - rewrite Ht.
    destruct (parse_makefile _ _ _) as [parsed|]; [|quiet].
    rewrite observe_after.
    unfold main_convert, convert_makefile, output_opens. cbv zeta.
    destruct (match arg_to a with Some f => open_new env f | None => true end);
      cbn [negb]; [|quiet].
    destruct (convert parsed t) as [calls|]; [|quiet].
    unfold observe. cbn [negb fst snd].
    rewrite ?conversion_output_app, ?conversion_output_trace, ?conversion_output_written.
    destruct (arg_to a); cbn [conversion_output flat_map app];
      rewrite ?app_nil_r; reflexivity.
Qed.

(** A run without its diagnostics. *)
Lemma observe_main (env : Env) (a : Args) :
  observe (main env a)
  = if arg_help a then ([], RETURN_OK)
    else if negb (rda a) then ([], RETURN_ERROR)
    else if negb (utility_library env) then ([], RETURN_OK)
    else match input_name env a with
         | None => ([], RETURN_ERROR)
         | Some input_file =>
             match converted env a input_file with
             | Some calls => (map (fun c => (arg_to a, c)) calls, RETURN_OK)
             | None => ([], RETURN_ERROR)
             end
         end.
Proof.
  unfold main, input_name. cbv zeta.
  destruct (arg_help a); [reflexivity|].
  destruct (rda a); cbn [negb]; [|reflexivity].
  destruct (utility_library env); cbn [negb]; [|quiet].
  destruct (arg_from a) as [input_file|].
  - rewrite observe_after, observe_main_detect_converted.
    rewrite !conversion_output_app, !conversion_output_trace.
    destruct (converted env a input_file); reflexivity.
  - pose proof (find_makefile_prints env) as Hp.
    destruct (find_makefile env) as [[found_file|] printed]; cbn [fst snd] in Hp |- *.
    + rewrite observe_after, observe_main_detect_converted.
      rewrite !conversion_output_app, !conversion_output_trace, Hp.
      destruct (converted env a found_file); reflexivity.
    + unfold observe. cbn [fst snd].
      rewrite !conversion_output_app, !conversion_output_trace, Hp. reflexivity.
Qed.








(** X6: the emitter writes to the stream TO names (standard output
    without TO) and nowhere else, and a run that ends with RETURN_ERROR has
    written nothing of the converted makefile. *)
Theorem emitter_writes_on_success (env : Env) (a : Args) :
  Forall (fun w => fst w = arg_to a) (conversion_output (fst (main env a)))
  /\ (snd (main env a) = RETURN_ERROR -> conversion_output (fst (main env a)) = []).
Proof.
  change (snd (main env a)) with (snd (observe (main env a))).
  change (conversion_output (fst (main env a))) with (fst (observe (main env a))).
  rewrite observe_main.
  destruct (arg_help a); [split; [constructor | reflexivity]|].
  destruct (negb (rda a)); [split; [constructor | reflexivity]|].
  destruct (negb (utility_library env)); [split; [constructor | reflexivity]|].
  destruct (input_name env a) as [input_file|]; [|split; [constructor | reflexivity]].
  destruct (converted env a input_file) as [calls|]; cbn [fst snd].
  - split; [|discriminate]. apply Forall_map, Forall_true. reflexivity.
  - split; [constructor | reflexivity].
Qed.



(** ** [map_command] *)




Lemma next_word_shorter (c : ascii) (r : string) :
  Ascii.eqb c SPACE = false ->
  String.length (skip_spaces (snd (scan_token (String c r)))) <= String.length r.
Proof.
  intros E.
  pose proof (skip_spaces_length (snd (scan_token (String c r)))) as H1.
  destruct (scan_token_progress (String c r) eq_refl E) as [_ H2].
  cbn [String.length] in H2. lia.
Qed.





Lemma wildcard_loop_end (fuel : nat) :
  forall s, String.length s <= fuel -> wildcard_loop fuel s = EmptyString.
Proof.
  induction fuel as [|fuel IH]; intros s H.
  - destruct s; [reflexivity | simpl in H; lia].
  - destruct s as [|c r]; [reflexivity|].
    cbn [wildcard_loop]. cbn [String.length] in H.
    destruct (Ascii.eqb c "*"%char || Ascii.eqb c "?"%char) eqn:E.
    + apply IH.
      assert (Es : Ascii.eqb c SPACE = false).
      { apply orb_true_iff in E as [E|E]; apply Ascii.eqb_eq in E; subst c; reflexivity. }
      pose proof (next_word_shorter c r Es). lia.
    + apply IH. lia.
Qed.

Lemma substring_all (s : string) : substring 0 (String.length s) s = s.
Proof. induction s as [|c r IH]; [reflexivity|]. simpl. rewrite IH. reflexivity. Qed.

(** X9: the SAS/C rewriting of a delete command keeps wildcard arguments.
    The loop that is commented as removing them only walks to the end of
    the command, so all of the arguments after the flags are copied, as in
    the DICE and Lattice branches. *)
Theorem sas_delete_keeps_wildcards (command : string) :
  sas_delete_arguments command = rm_arguments command.
Proof.
  unfold sas_delete_arguments. cbv zeta.
  rewrite wildcard_loop_end by lia. cbn [String.length].
  destruct (rm_arguments command) as [|c r] eqn:E; [reflexivity|].
  rewrite Nat.sub_0_r.
  destruct (0 <? String.length (String c r)) eqn:El.
  - apply substring_all.
  - apply Nat.ltb_ge in El. simpl in El. lia.
Qed.

(** X10: what [map_command] leaves alone.  The source dialect plays no
    part; towards GNU Make a command is copied, except that a command in
    which slink occurs becomes the fixed text cc -o program; and towards
    any dialect a command in which none of gcc, blink, slink and rm occurs
    is copied. *)
Theorem map_command_copies (command : string) (from to : MakefileFormat) :
  map_command command from to = map_command command FORMAT_UNKNOWN to
  /\ map_command command from FORMAT_GNU_MAKE
     = (if found (strstr command "slink") then "cc -o program" else command)
  /\ (found (strstr command "gcc") || found (strstr command "blink")
      || found (strstr command "slink") || found (strstr command "rm") = false ->
      map_command command from to = command).
Proof.
  split; [reflexivity|]. split.
  - unfold map_command. cbv zeta. cbn [format_eqb negb andb].
    rewrite !andb_false_r. cbn [or_next].
    destruct (found (strstr command "slink")); reflexivity.
  - intros H. apply orb_false_iff in H as [H Hrm].
    apply orb_false_iff in H as [H Hslink].
    apply orb_false_iff in H as [Hgcc Hblink].
    unfold map_command. cbv zeta. rewrite Hgcc, Hblink, Hslink, Hrm. reflexivity.
Qed.

(** ** Option mapping there and back *)

(** X11: a compiler option that the mapping from GNU Make to SAS/C changes
    comes back from the mapping from SAS/C to GNU Make, up to letter case:
    on the options it rewrites the second table is the inverse of the
    first. *)
Theorem gnu_sas_option_round_trip (opt : string) :
  let mapped := map_compiler_option opt FORMAT_GNU_MAKE FORMAT_SAS_C in
  mapped = opt
  \/ ieq opt (map_compiler_option mapped FORMAT_SAS_C FORMAT_GNU_MAKE) = true.
Proof.
  cbv zeta. rewrite (map_compiler_option_table opt FORMAT_GNU_MAKE FORMAT_SAS_C).
  assert (B1 : map_compiler_option "OPTIMIZE" FORMAT_SAS_C FORMAT_GNU_MAKE = "-O2")
    by (vm_compute; reflexivity).
  assert (B2 : map_compiler_option "DEBUG=L" FORMAT_SAS_C FORMAT_GNU_MAKE = "-g")
    by (vm_compute; reflexivity).
  assert (B3 : map_compiler_option "DATA=NEAR" FORMAT_SAS_C FORMAT_GNU_MAKE = "-m68000")
    by (vm_compute; reflexivity).
  assert (B4 : map_compiler_option "VERBOSE" FORMAT_SAS_C FORMAT_GNU_MAKE = "-v")
    by (vm_compute; reflexivity).
  assert (B5 : map_compiler_option "IGN=A" FORMAT_SAS_C FORMAT_GNU_MAKE = "-w")
    by (vm_compute; reflexivity).
  assert (B6 : map_compiler_option "OBJNAME" FORMAT_SAS_C FORMAT_GNU_MAKE = "-c")
    by (vm_compute; reflexivity).
  assert (B7 : map_compiler_option "PPONLY" FORMAT_SAS_C FORMAT_GNU_MAKE = "-E")
    by (vm_compute; reflexivity).
  assert (B8 : map_compiler_option "DISASM" FORMAT_SAS_C FORMAT_GNU_MAKE = "-S")
    by (vm_compute; reflexivity).
  unfold option_table, table_lookup, matches, for_target.
  destruct (ieq opt "-O2") eqn:E1; [right; cbn [apply_action]; rewrite B1; exact E1|].
  destruct (ieq opt "-g") eqn:E2; [right; cbn [apply_action]; rewrite B2; exact E2|].
  destruct (ieq opt "-m68000") eqn:E3; [right; cbn [apply_action]; rewrite B3; exact E3|].
  destruct (found (strstr opt "-D")); [left; reflexivity|].
  destruct (ieq opt "-v") eqn:E4; [right; cbn [apply_action]; rewrite B4; exact E4|].
  destruct (ieq opt "-w") eqn:E5; [right; cbn [apply_action]; rewrite B5; exact E5|].
  destruct (ieq opt "-c") eqn:E6; [right; cbn [apply_action]; rewrite B6; exact E6|].
  destruct (ieq opt "-E") eqn:E7; [right; cbn [apply_action]; rewrite B7; exact E7|].
  destruct (ieq opt "-S") eqn:E8; [right; cbn [apply_action]; rewrite B8; exact E8|].
  left. reflexivity.
Qed.

(** ** What the parsers keep *)

Lemma extends_refl (r : Rule) : extends r r.
Proof. split; [reflexivity|]. exists []. rewrite app_nil_r. reflexivity. Qed.

Lemma extends_trans (r1 r2 r3 : Rule) : extends r1 r2 -> extends r2 r3 -> extends r1 r3.
Proof.
  intros [H1 [c1 E1]] [H2 [c2 E2]]. split; [congruence|].
  exists (c1 ++ c2). rewrite E2, E1, app_assoc. reflexivity.
Qed.

Lemma extends_all (rs : list Rule) : Forall2 extends rs rs.
Proof. induction rs; constructor; [apply extends_refl | assumption]. Qed.

Lemma extends_insert (rs : list Rule) :
  forall (i : nat) (r r' : Rule),
    rs !! i = Some r -> extends r r' -> Forall2 extends rs (<[i := r']> rs).
Proof.
  induction rs as [|x rs IH]; intros [|i] r r' Hl He; try discriminate Hl.
  - injection Hl as ->. constructor; [exact He | apply extends_all].
  - constructor; [apply extends_refl | apply (IH i r r' Hl He)].
Qed.

Lemma extends_all_trans (a b : list Rule) :
  Forall2 extends a b -> forall c, Forall2 extends b c -> Forall2 extends a c.
Proof.
  induction 1 as [|x y a b Hxy _ IH]; intros c Hc; inversion Hc; subst; constructor.
  - eapply extends_trans; eassumption.
  - apply IH. assumption.
Qed.

Lemma grows_refl (m : Makefile) : grows m m.
Proof.
  repeat split.
  - exists []. rewrite app_nil_r. reflexivity.
  - exists (rules m), []. rewrite app_nil_r. split; [reflexivity | apply extends_all].
Qed.

Lemma grows_trans (m1 m2 m3 : Makefile) : grows m1 m2 -> grows m2 m3 -> grows m1 m3.
Proof.
  intros (F1 & N1 & [v1 V1] & (k1 & a1 & R1 & E1)) (F2 & N2 & [v2 V2] & (k2 & a2 & R2 & E2)).
  split; [congruence|]. split; [congruence|]. split.
  - exists (v1 ++ v2). rewrite V2, V1, app_assoc. reflexivity.
  - rewrite R1 in E2. apply Forall2_app_inv_l in E2 as (k2a & k2b & Ea & _ & ->).
    exists k2a, (k2b ++ a2). split; [rewrite R2, app_assoc; reflexivity|].
    apply (extends_all_trans _ _ E1 _ Ea).
Qed.

Lemma update_grows (m m' : Makefile) : update m m' -> grows m m'.
Proof.
  destruct 1 as [|t|v|r Hc Hr|idx cond text].
  - apply grows_refl.
  - unfold store_comment. destruct (_ <? _); [|apply grows_refl].
    repeat split; cbn.
    + exists []. rewrite app_nil_r. reflexivity.
    + exists (rules m), []. rewrite app_nil_r. split; [reflexivity | apply extends_all].
  - unfold add_variable. destruct (_ <? _); [|apply grows_refl].
    repeat split; cbn.
    + exists [v]. reflexivity.
    + exists (rules m), []. rewrite app_nil_r. split; [reflexivity | apply extends_all].
  - repeat split; cbn.
    + exists []. rewrite app_nil_r. reflexivity.
    + exists (rules m), [r]. split; [reflexivity | apply extends_all].
  - unfold add_command. destruct (rules m !! idx) as [r|] eqn:El; [|apply grows_refl].
    destruct (cond && _); [|apply grows_refl].
    repeat split; cbn.
    + exists []. rewrite app_nil_r. reflexivity.
    + exists (<[idx := push_command r text]> (rules m)), []. rewrite app_nil_r.
      split; [reflexivity|]. apply (extends_insert _ idx r _ El).
      split; [reflexivity|]. exists [mkCommand text false]. reflexivity.
Qed.

Section Growth.
Context {S : Type} (view : S -> Makefile) (step : S -> string -> S).
Hypothesis step_update : forall (st : S) (line : string), update (view st) (view (step st line)).

Lemma run_grows (lines : list string) :
  forall st : S, grows (view st) (view (fold_left step lines st)).
Proof.
  induction lines as [|l ls IH]; intros st; simpl; [apply grows_refl|].
  eapply grows_trans; [apply update_grows, step_update | apply IH].
Qed.
End Growth.

(** X12: reading on never takes back what a parser has stored.  After any
    further lines the model has the same format and file name, the
    variables it had, in their order, followed by the new ones, and the
    rules it had, each with its header unchanged and with commands added
    only at its end, followed by the new rules.  No variable is
    overwritten or merged with an earlier one of the same name. *)
Theorem parsers_only_add (lines more : list string) (m : Makefile) :
  grows (parse_gnu_makefile lines m) (parse_gnu_makefile (lines ++ more) m)
  /\ grows (parse_sas_makefile lines m) (parse_sas_makefile (lines ++ more) m)
  /\ grows (parse_dice_makefile lines m) (parse_dice_makefile (lines ++ more) m)
  /\ grows (parse_lattice_makefile lines m) (parse_lattice_makefile (lines ++ more) m).
Proof.
  unfold parse_gnu_makefile, parse_sas_makefile, parse_dice_makefile, parse_lattice_makefile.
  rewrite !fold_left_app.
  split; [|split; [|split]].
  - apply (run_grows mk gnu_step gnu_update).
  - apply (run_grows mk sas_step sas_update).
  - apply (run_grows mk dice_step dice_update).
  - apply (run_grows (fun st => mk (ps st)) lattice_step lattice_update).
Qed.

Lemma update_only_last_comment (m m' : Makefile) :
  update m m' -> only_last_comment m -> only_last_comment m'.
Proof.
  destruct 1 as [|t|v|r Hc Hr|idx cond text]; intros H; try exact H.
  - unfold store_comment. destruct (comment_count m <? MAX_COMMANDS) eqn:E; [|exact H].
    apply Nat.ltb_lt in E. unfold only_last_comment, comment_count in *. cbn.
    rewrite length_app, length_replicate. cbn. split; [lia|].
    intros i Hi. rewrite lookup_app_l by (rewrite length_replicate; lia).
    apply lookup_replicate_2. lia.
  - unfold add_variable. destruct (_ <? _); exact H.
  - unfold add_command. destruct (rules m !! idx); [|exact H].
    destruct (cond && _); exact H.
Qed.

(** X13: of the comment lines of the input at most the last one is in the
    model.  Every comment line replaces the comment array by an empty one
    and writes its own slot only, so all slots before the last counted one
    are empty; and at most 256 comments are counted. *)
Theorem only_last_comment_kept (lines : list string) (f : MakefileFormat) :
  only_last_comment (parse_gnu_makefile lines (empty_makefile f))
  /\ only_last_comment (parse_sas_makefile lines (empty_makefile f))
  /\ only_last_comment (parse_dice_makefile lines (empty_makefile f))
  /\ only_last_comment (parse_lattice_makefile lines (empty_makefile f)).
Proof.
  assert (H0 : only_last_comment (empty_makefile f)).
  { split; [unfold comment_count, MAX_COMMANDS; cbn; lia|].
    intros i Hi. unfold comment_count in Hi. cbn in Hi. lia. }
  unfold parse_gnu_makefile, parse_sas_makefile, parse_dice_makefile, parse_lattice_makefile.
  split; [|split; [|split]].
  - apply (fold_invariant (fun st => only_last_comment (mk st))); [|exact H0].
    intros st line. apply update_only_last_comment, gnu_update.
  - apply (fold_invariant (fun st => only_last_comment (mk st))); [|exact H0].
    intros st line. apply update_only_last_comment, sas_update.
  - apply (fold_invariant (fun st => only_last_comment (mk st))); [|exact H0].
    intros st line. apply update_only_last_comment, dice_update.
  - apply (fold_invariant (fun st => only_last_comment (mk (ps st)))); [|exact H0].
    intros st line. apply update_only_last_comment, lattice_update.
Qed.

(** ** The line feed of a line *)

Lemma last_char_cons (c : ascii) (s : string) :
  is_empty s = false -> last_char (String c s) = last_char s.
Proof. destruct s; [discriminate | reflexivity]. Qed.

Lemma last_char_nonempty (s : string) (x : ascii) : last_char s = Some x -> is_empty s = false.
Proof. destruct s; [discriminate | reflexivity]. Qed.

Lemma last_char_append (a b : string) :
  is_empty b = false -> last_char (a +:+ b) = last_char b.
Proof.
  intros Hb. induction a as [|c a IH]; [reflexivity|].
  rewrite append_cons, last_char_cons; [exact IH|].
  rewrite is_empty_append, Hb. apply andb_false_r.
Qed.

Lemma skip_whitespace_last (s : string) (x : ascii) :
  last_char s = Some x -> is_blank x = false -> last_char (skip_whitespace s) = Some x.
Proof.
  intros Hl Hx. induction s as [|c r IH]; [discriminate Hl|].
  cbn [skip_whitespace]. destruct (is_blank c) eqn:Ec; [|exact Hl].
  destruct r as [|b r'].
  - injection Hl as ->. congruence.
  - apply IH. exact Hl.
Qed.

Lemma trim_whitespace_last (s : string) (x : ascii) :
  last_char s = Some x -> is_blank x = false -> last_char (trim_whitespace s) = Some x.
Proof.
  intros Hl Hx. rewrite trim_as_rstrip.
  pose proof (skip_whitespace_last s x Hl Hx) as H.
  rewrite (rstrip_fixed _ x H Hx). exact H.
Qed.

Lemma after_char_last (t : string) (c x : ascii) :
  found (strchr t c) = true -> last_char t = Some x -> Ascii.eqb x c = false ->
  last_char (after_char t c) = Some x.
Proof.
  intros Hf Hl Hx. destruct (strchr_split t c Hf) as [E _].
  rewrite E, last_char_append in Hl by reflexivity.
  destruct (after_char t c) as [|b r].
  - injection Hl as ->. rewrite Ascii.eqb_refl in Hx. discriminate Hx.
  - exact Hl.
Qed.

Lemma strchr_tail_none (s p : string) (c : ascii) :
  strchr s NUL = None -> strchr s c = Some p -> strchr (tail p) NUL = None.
Proof.
  induction s as [|a r IH]; [discriminate|].
  cbn [strchr]. destruct (Ascii.eqb a NUL); [discriminate|]. intros Hn.
  destruct (Ascii.eqb a c); [|apply IH, Hn].
  intros [= <-]. exact Hn.
Qed.

Lemma after_char_c_string (t : string) (c : ascii) : c_string t -> c_string (after_char t c).
Proof.
  unfold c_string, after_char. intros H.
  destruct (strchr t c) as [p|] eqn:E; [|reflexivity].
  apply (strchr_tail_none t p c H E).
Qed.

(** The value of an assignment read from a line that ends with a line
    feed ends with that line feed, and the quote removal of the GNU parser
    finds no closing quote. *)
Lemma value_keeps_newline (line : string) :
  last_char line = Some NL -> is_assignment (trim_whitespace line) = true ->
  last_char (trim_whitespace (after_char (trim_whitespace line) "="%char)) = Some NL
  /\ strip_quotes (trim_whitespace (after_char (trim_whitespace line) "="%char))
     = trim_whitespace (after_char (trim_whitespace line) "="%char).
Proof.
  intros Hl Ha. unfold is_assignment in Ha. apply andb_true_iff in Ha as [Hf _].
  assert (H : last_char (trim_whitespace (after_char (trim_whitespace line) "="%char))
              = Some NL).
  { apply trim_whitespace_last; [|reflexivity].
    apply after_char_last; [exact Hf | | reflexivity].
    apply trim_whitespace_last; [exact Hl | reflexivity]. }
  split; [exact H|]. unfold strip_quotes. rewrite H. cbn. rewrite andb_false_r. reflexivity.
Qed.

Lemma value_c_string (line : string) :
  c_string line -> c_string (trim_whitespace (after_char (trim_whitespace line) "="%char)).
Proof. intros H. apply trim_c_string, after_char_c_string, trim_c_string, H. Qed.

Lemma variables_store_comment (m : Makefile) (t : string) :
  variables (store_comment m t) = variables m.
Proof. unfold store_comment. destruct (_ <? _); reflexivity. Qed.

Lemma variables_add_command (m : Makefile) (idx : nat) (cond : bool) (text : string) :
  variables (add_command m idx cond text) = variables m.
Proof.
  unfold add_command. destruct (rules m !! idx); [|reflexivity].
  destruct (cond && _); reflexivity.
Qed.

Lemma variables_open_rule (st : PState) (r : Rule) :
  variables (mk (open_rule st r)) = variables (mk st).
Proof. destruct (open_rule_cases st r) as [-> | ->]; reflexivity. Qed.

Lemma values_add_variable (P : string -> Prop) (m : Makefile) (v : Var) :
  Forall (fun v => P (value v)) (variables m) -> P (value v) ->
  Forall (fun v => P (value v)) (variables (add_variable m v)).
Proof.
  intros H Hv. unfold add_variable. destruct (_ <? _); [|exact H].
  cbn. apply Forall_app. split; [exact H|]. constructor; [exact Hv | constructor].
Qed.

Section Values.
Variable P : string -> Prop.
Variable line : string.
Hypothesis quoted_value :
  is_assignment (trim_whitespace line) = true ->
  P (strip_quotes (trim_whitespace (after_char (trim_whitespace line) "="%char))).
Hypothesis plain_value :
  is_assignment (trim_whitespace line) = true ->
  P (trim_whitespace (after_char (trim_whitespace line) "="%char)).

Lemma gnu_step_values (st : PState) :
  Forall (fun v => P (value v)) (variables (mk st)) ->
  Forall (fun v => P (value v)) (variables (mk (gnu_step st line))).
Proof.
  intros H. unfold gnu_step. cbv zeta. rewrite command_branch_unreachable.
  destruct (is_empty _); [exact H|].
  destruct (first_is _ _); [cbn; rewrite variables_store_comment; exact H|].
  destruct (is_assignment _) eqn:Ea.
  { cbn. apply values_add_variable; [exact H | apply quoted_value; reflexivity]. }
  destruct (found _); [rewrite variables_open_rule|]; exact H.
Qed.

Lemma sas_step_values (st : PState) :
  Forall (fun v => P (value v)) (variables (mk st)) ->
  Forall (fun v => P (value v)) (variables (mk (sas_step st line))).
Proof.
  intros H. unfold sas_step. cbv zeta. rewrite command_branch_unreachable.
  destruct (is_empty _); [exact H|].
  destruct (first_is _ _); [cbn; rewrite variables_store_comment; exact H|].
  destruct (is_assignment _) eqn:Ea.
  { cbn. apply values_add_variable; [exact H | apply plain_value; reflexivity]. }
  destruct (is_dot_rule _); [rewrite variables_open_rule; exact H|].
  destruct (found _); [rewrite variables_open_rule|]; exact H.
Qed.

Lemma dice_step_values (st : PState) :
  Forall (fun v => P (value v)) (variables (mk st)) ->
  Forall (fun v => P (value v)) (variables (mk (dice_step st line))).
Proof.
  intros H. unfold dice_step. cbv zeta. rewrite command_branch_unreachable.
  destruct (is_empty _); [exact H|].
  destruct (first_is _ _); [cbn; rewrite variables_store_comment; exact H|].
  destruct (is_assignment _) eqn:Ea.
  { cbn. apply values_add_variable; [exact H | apply plain_value; reflexivity]. }
  destruct (found (strstr _ _)); [rewrite variables_open_rule; exact H|].
  destruct (found _); [rewrite variables_open_rule|]; exact H.
Qed.
End Values.

Lemma fold_invariant_on {S : Type} (Q : string -> Prop) (P : S -> Prop)
    (step : S -> string -> S) :
  (forall st line, Q line -> P st -> P (step st line)) ->
  forall lines, Forall Q lines -> forall st, P st -> P (fold_left step lines st).
Proof.
  intros Hstep lines HQ. induction HQ as [|l ls Hl _ IH]; intros st H; simpl; auto.
Qed.

Ltac lattice_cases :=
  unfold lattice_process, lattice_command_or_with, keep_buffer, reset_buffer; cbv zeta;
  repeat match goal with
         | |- context [if ?c then _ else _] => destruct c
         | |- context [match in_rule ?p with _ => _ end] => destruct (in_rule p)
         | |- context [match current_rule ?p with _ => _ end] => destruct (current_rule p)
         end.

Lemma lattice_process_continuation (st : LState) :
  in_continuation (lattice_process st) = in_continuation st.
Proof. lattice_cases; reflexivity. Qed.

(** A buffer that ends with a line feed does not end with a backslash: it
    is read as a line of its own. *)
Lemma lattice_step_plain (st : LState) (line : string) :
  last_char line = Some NL -> in_continuation st = false ->
  lattice_step st line
  = lattice_process (mkLState (ps st) (in_with_block st) false line (String.length line)).
Proof.
  intros Hl Hc. unfold lattice_step. cbv zeta. rewrite Hl, Hc.
  cbn. rewrite andb_false_r. reflexivity.
Qed.

Lemma lattice_process_values (P : string -> Prop) (st : LState) :
  (is_assignment (trim_whitespace (full_line st)) = true ->
   P (trim_whitespace (after_char (trim_whitespace (full_line st)) "="%char))) ->
  Forall (fun v => P (value v)) (variables (mk (ps st))) ->
  Forall (fun v => P (value v)) (variables (mk (ps (lattice_process st)))).
Proof.
  intros Hv H. unfold lattice_process. cbv zeta.
  destruct (is_empty _); [destruct (in_with_block st); exact H|].
  destruct (first_is _ _); [cbn; rewrite variables_store_comment; exact H|].
  destruct (ieq _ _); [exact H|].
  destruct (is_assignment _) eqn:Ea.
  { cbn. apply values_add_variable; [exact H | apply Hv; reflexivity]. }
  destruct (is_dot_rule _); [cbn; rewrite variables_open_rule; exact H|].
  destruct (found (strchr _ _)); [cbn; rewrite variables_open_rule; exact H|].
  unfold lattice_command_or_with, reset_buffer. cbv zeta.
  repeat match goal with
         | |- context [if ?c then _ else _] => destruct c
         | |- context [match in_rule ?p with _ => _ end] => destruct (in_rule p)
         | |- context [match current_rule ?p with _ => _ end] => destruct (current_rule p)
         end; cbn; rewrite ?variables_add_command; exact H.
Qed.

(** X14: in a text file, where every line ends with a line feed, the line
    feed becomes part of every variable value: each value that any of the
    four parsers stores ends with it. *)
Theorem values_keep_newline (lines : list string) (f : MakefileFormat) :
  Forall (fun line => last_char line = Some NL) lines ->
  Forall (fun v => last_char (value v) = Some NL)
         (variables (parse_gnu_makefile lines (empty_makefile f)))
  /\ Forall (fun v => last_char (value v) = Some NL)
            (variables (parse_sas_makefile lines (empty_makefile f)))
  /\ Forall (fun v => last_char (value v) = Some NL)
            (variables (parse_dice_makefile lines (empty_makefile f)))
  /\ Forall (fun v => last_char (value v) = Some NL)
            (variables (parse_lattice_makefile lines (empty_makefile f))).
Proof.
  intros H.
  unfold parse_gnu_makefile, parse_sas_makefile, parse_dice_makefile, parse_lattice_makefile.
  split; [|split; [|split]].
  - apply (fold_invariant_on (fun line => last_char line = Some NL)
             (fun st => Forall (fun v => last_char (value v) = Some NL) (variables (mk st))));
      [|exact H|constructor].
    intros st line Hl. apply (gnu_step_values (fun s => last_char s = Some NL) line);
      intros Ha; destruct (value_keeps_newline line Hl Ha) as [Hv Hq];
      rewrite ?Hq; exact Hv.
  - apply (fold_invariant_on (fun line => last_char line = Some NL)
             (fun st => Forall (fun v => last_char (value v) = Some NL) (variables (mk st))));
      [|exact H|constructor].
    intros st line Hl. apply (sas_step_values (fun s => last_char s = Some NL) line);
      intros Ha; destruct (value_keeps_newline line Hl Ha) as [Hv Hq];
      rewrite ?Hq; exact Hv.
  - apply (fold_invariant_on (fun line => last_char line = Some NL)
             (fun st => Forall (fun v => last_char (value v) = Some NL) (variables (mk st))));
      [|exact H|constructor].
    intros st line Hl. apply (dice_step_values (fun s => last_char s = Some NL) line);
      intros Ha; destruct (value_keeps_newline line Hl Ha) as [Hv Hq];
      rewrite ?Hq; exact Hv.
  - apply (fold_invariant_on (fun line => last_char line = Some NL)
             (fun st => in_continuation st = false
                        /\ Forall (fun v => last_char (value v) = Some NL)
                                  (variables (mk (ps st)))));
      [|exact H|split; [reflexivity | constructor]].
    intros st line Hl [Hc Hv]. rewrite (lattice_step_plain st line Hl Hc).
    split; [apply lattice_process_continuation|].
    apply (lattice_process_values (fun s => last_char s = Some NL)); [|exact Hv].
    intros Ha. apply (value_keeps_newline line Hl Ha).
Qed.

Lemma values_keep_newline_witness :
  Forall (fun v => last_char (value v) = Some NL)
         (variables (parse_gnu_makefile (FGets_lines (ln "CC=gcc" +:+ ln "all: prog"))
                                        (empty_makefile FORMAT_GNU_MAKE))).
Proof.
  apply (values_keep_newline (FGets_lines (ln "CC=gcc" +:+ ln "all: prog")) FORMAT_GNU_MAKE).
  repeat constructor.
Defined.

(** ** The compiler name of a text file *)

Lemma last_char_lower (s : string) : last_char (lower s) = option_map tolower (last_char s).
Proof.
  induction s as [|c r IH]; [reflexivity|].
  destruct r as [|b r']; [reflexivity|]. exact IH.
Qed.

(** A string that ends with a line feed is none of the names it is
    compared with, when these do not end with a line feed. *)
Lemma ieq_newline (s k : string) :
  ends_with_newline s -> c_string k ->
  match last_char k with Some y => Ascii.eqb (tolower y) NL | None => false end = false ->
  ieq s k = false.
Proof.
  intros [Hs Hl] Hk Hy. destruct (ieq s k) eqn:E; [|reflexivity].
  apply (ieq_lower s k Hs Hk) in E.
  apply (f_equal last_char) in E. rewrite !last_char_lower, Hl in E.
  destruct (last_char k) as [y|]; [|discriminate E].
  injection E as E. rewrite <- E in Hy. discriminate Hy.
Qed.

Lemma variable_not_translated (source_format : MakefileFormat) (v : Var) :
  ends_with_newline (value v) ->
  is_translated_compiler_line (gnu_variable v) = false
  /\ is_translated_compiler_line (sas_variable source_format v) = false
  /\ is_translated_compiler_line (dice_variable v) = false
  /\ is_translated_compiler_line (lattice_variable v) = false.
Proof.
  intros H.
  unfold gnu_variable, sas_variable, dice_variable, lattice_variable, plain_variable.
  rewrite !(ieq_newline (value v) "sc" H eq_refl eq_refl).
  rewrite !(ieq_newline (value v) "lc" H eq_refl eq_refl).
  rewrite !(ieq_newline (value v) "dcc" H eq_refl eq_refl).
  rewrite !(ieq_newline (value v) "gcc" H eq_refl eq_refl).
  rewrite !(ieq_newline (value v) "cc" H eq_refl eq_refl).
  cbn [orb]. repeat split; by_cases.
Qed.

Lemma count_lines_none (kind : Call -> bool) (out : list Call) :
  Forall (fun c => kind c = false) out -> count_lines kind out = 0.
Proof.
  unfold count_lines. induction 1 as [|c out Hc _ IH]; [reflexivity|].
  simpl. rewrite Hc. exact IH.
Qed.

Lemma rule_not_translated (source_format : MakefileFormat) (rule : Rule) :
  Forall (fun c => is_translated_compiler_line c = false) (gnu_rule source_format rule)
  /\ Forall (fun c => is_translated_compiler_line c = false) (sas_rule source_format rule)
  /\ Forall (fun c => is_translated_compiler_line c = false) (dice_rule source_format rule)
  /\ Forall (fun c => is_translated_compiler_line c = false) (lattice_rule source_format rule).
Proof.
  assert (Hc : forall to, Forall (fun c => is_translated_compiler_line c = false)
                            (command_calls rule source_format to)).
  { intros to. unfold command_calls. induction (commands rule); constructor; auto. }
  unfold gnu_rule, sas_rule, dice_rule, lattice_rule,
         gnu_header, sas_header, dice_header, lattice_header.
  repeat split;
    repeat match goal with
           | |- context [if ?c then _ else _] => destruct c
           end;
    repeat (apply Forall_app; split); try apply Hc; repeat constructor.
Qed.

Lemma emitters_not_translated (m : Makefile) (out : list Call) (t : MakefileFormat) :
  Forall (fun v => ends_with_newline (value v)) (variables m) ->
  convert m t = Some out ->
  count_lines is_translated_compiler_line out = 0.
Proof.
  intros Hv Hc. apply count_lines_none.
  assert (Ha : Forall (fun c => is_translated_compiler_line c = false) (after_variables m)).
  { unfold after_variables. destruct (0 <? _); repeat constructor. }
  assert (Hvars : forall f : Var -> Call,
             (forall v, ends_with_newline (value v) -> is_translated_compiler_line (f v) = false) ->
             Forall (fun c => is_translated_compiler_line c = false) (map f (variables m))).
  { intros f Hf. induction Hv as [|v vs Hx _ IH]; constructor; auto. }
  assert (Hrules : forall g : Rule -> list Call,
             (forall r, Forall (fun c => is_translated_compiler_line c = false) (g r)) ->
             Forall (fun c => is_translated_compiler_line c = false) (flat_map g (rules m))).
  { intros g Hg. induction (rules m) as [|r rs IH]; [constructor|].
    cbn [flat_map]. apply Forall_app. split; [apply Hg | exact IH]. }
  destruct t; try discriminate Hc; injection Hc as <-;
    unfold convert_to_gnu_make, convert_to_sas_make, convert_to_dice_make,
           convert_to_lattice_make;
    repeat (apply Forall_app; split); try exact Ha;
    try (repeat constructor; fail).
  - apply Hvars. intros v H. apply (variable_not_translated (format m) v H).
  - apply Hrules. intros r. apply (rule_not_translated (format m) r).
  - apply Hvars. intros v H. apply (variable_not_translated (format m) v H).
  - apply Hrules. intros r. apply (rule_not_translated (format m) r).
  - apply Hvars. intros v H. apply (variable_not_translated (format m) v H).
  - apply Hrules. intros r. apply (rule_not_translated (format m) r).
  - apply Hvars. intros v H. apply (variable_not_translated (format m) v H).
  - apply Hrules. intros r. apply (rule_not_translated (format m) r).
Qed.

Lemma value_ends_with_newline (line : string) :
  ends_with_newline line -> is_assignment (trim_whitespace line) = true ->
  ends_with_newline (trim_whitespace (after_char (trim_whitespace line) "="%char))
  /\ ends_with_newline
       (strip_quotes (trim_whitespace (after_char (trim_whitespace line) "="%char))).
Proof.
  intros [Hc Hl] Ha. destruct (value_keeps_newline line Hl Ha) as [Hv Hq].
  rewrite Hq. split; (split; [apply value_c_string, Hc | exact Hv]).
Qed.

(** X15: for a text file, where every line ends with a line feed, no
    emitter replaces the compiler of a CC assignment: the value read is
    the name followed by the line feed, which is none of the names the
    emitters look for, so none of the lines CC = cc, CC = sc, CC = dcc and
    CC = lc is written, whichever parser read the file and whichever
    emitter writes it. *)
Theorem compiler_never_translated (lines : list string) (f target : MakefileFormat) :
  Forall ends_with_newline lines ->
  forall m : Makefile,
    In m [ parse_gnu_makefile lines (empty_makefile f);
           parse_sas_makefile lines (empty_makefile f);
           parse_dice_makefile lines (empty_makefile f);
           parse_lattice_makefile lines (empty_makefile f) ] ->
    forall out : list Call,
      convert m target = Some out ->
      count_lines is_translated_compiler_line out = 0.
Proof.
  intros H m Hm out Hout.
  apply (emitters_not_translated m out target); [|exact Hout].
  unfold parse_gnu_makefile, parse_sas_makefile, parse_dice_makefile,
         parse_lattice_makefile in Hm.
  cbn [In] in Hm. destruct Hm as [<-|[<-|[<-|[<-|[]]]]].
  - apply (fold_invariant_on ends_with_newline
             (fun st => Forall (fun v => ends_with_newline (value v)) (variables (mk st))));
      [|exact H|constructor].
    intros st line Hl. apply (gnu_step_values ends_with_newline line);
      intros Ha; apply (value_ends_with_newline line Hl Ha).
  - apply (fold_invariant_on ends_with_newline
             (fun st => Forall (fun v => ends_with_newline (value v)) (variables (mk st))));
      [|exact H|constructor].
    intros st line Hl. apply (sas_step_values ends_with_newline line);
      intros Ha; apply (value_ends_with_newline line Hl Ha).
  - apply (fold_invariant_on ends_with_newline
             (fun st => Forall (fun v => ends_with_newline (value v)) (variables (mk st))));
      [|exact H|constructor].
    intros st line Hl. apply (dice_step_values ends_with_newline line);
      intros Ha; apply (value_ends_with_newline line Hl Ha).
  - apply (fold_invariant_on ends_with_newline
             (fun st => in_continuation st = false
                        /\ Forall (fun v => ends_with_newline (value v))
                                  (variables (mk (ps st)))));
      [|exact H|split; [reflexivity | constructor]].
    intros st line Hl [Hc Hv]. rewrite (lattice_step_plain st line (proj2 Hl) Hc).
    split; [apply lattice_process_continuation|].
    apply (lattice_process_values ends_with_newline); [|exact Hv].
    intros Ha. apply (value_ends_with_newline line Hl Ha).
Qed.

Lemma compiler_never_translated_witness :
  count_lines is_translated_compiler_line
    (convert_to_sas_make
       (parse_gnu_makefile (FGets_lines (ln "CC=gcc" +:+ ln "all: prog"))
                           (empty_makefile FORMAT_GNU_MAKE))) = 0.
Proof.
  apply (compiler_never_translated (FGets_lines (ln "CC=gcc" +:+ ln "all: prog"))
           FORMAT_GNU_MAKE FORMAT_SAS_C ltac:(repeat constructor)
           (parse_gnu_makefile (FGets_lines (ln "CC=gcc" +:+ ln "all: prog"))
                               (empty_makefile FORMAT_GNU_MAKE))).
  - left. reflexivity.
  - reflexivity.
Defined.

(** ** Lattice command lines of a text file *)

Lemma rules_store_comment (m : Makefile) (t : string) : rules (store_comment m t) = rules m.
Proof. unfold store_comment. destruct (_ <? _); reflexivity. Qed.

Lemma rules_add_variable (m : Makefile) (v : Var) : rules (add_variable m v) = rules m.
Proof. unfold add_variable. destruct (_ <? _); reflexivity. Qed.

Lemma without_commands_open (st : PState) (r : Rule) :
  commands r = [] -> without_commands st -> without_commands (open_rule st r).
Proof.
  unfold without_commands. intros Hr H.
  destruct (open_rule_cases st r) as [-> | ->]; [exact H|].
  cbn. apply Forall_app. split; [exact H|]. constructor; [exact Hr | constructor].
Qed.

(** The loop body on a buffer that ends with a line feed: such a buffer is
    never the word WITH, so no WITH block opens, and as in the other
    parsers the test for an indented line is made on the trimmed line. *)
Lemma lattice_process_text (st : LState) :
  ends_with_newline (full_line st) -> in_with_block st = false ->
  without_commands (ps st) ->
  in_with_block (lattice_process st) = false /\ without_commands (ps (lattice_process st)).
Proof.
  intros [Hc Hl] Hb H.
  assert (Hw : ieq (trim_whitespace (full_line st)) "WITH" = false).
  { apply ieq_newline; [|reflexivity..]. split; [apply trim_c_string, Hc|].
    apply trim_whitespace_last; [exact Hl | reflexivity]. }
  pose proof (trim_whitespace_head (full_line st)) as Hh.
  unfold lattice_process, lattice_command_or_with, keep_buffer, reset_buffer. cbv zeta.
  rewrite Hw, Hh, Hb. unfold without_commands in *.
  destruct (is_empty _); [split; [reflexivity | exact H]|].
  destruct (first_is ";"%char _);
    [split; [reflexivity | cbn; rewrite rules_store_comment; exact H]|].
  destruct (is_assignment _); [split; [reflexivity | cbn; rewrite rules_add_variable; exact H]|].
  destruct (is_dot_rule _);
    [split; [reflexivity | cbn [ps]; apply without_commands_open; [reflexivity | exact H]]|].
  destruct (found (strchr _ _));
    [split; [reflexivity | cbn [ps]; apply without_commands_open; [reflexivity | exact H]]|].
  destruct (in_rule (ps st)), (current_rule (ps st)); split; try reflexivity; exact H.
Qed.

(** X16: of a text file, where every line ends with a line feed, the
    Lattice parser stores no command either.  A line is never read as the
    word WITH, so no WITH block opens; no line ends with a backslash, so no
    two lines are joined; and an indented line under a rule closes the
    rule. *)
Theorem lattice_text_file_has_no_commands (lines : list string) (f : MakefileFormat) :
  Forall ends_with_newline lines ->
  Forall (fun r => commands r = [])
         (rules (parse_lattice_makefile lines (empty_makefile f))).
Proof.
  intros H. unfold parse_lattice_makefile.
  apply (fold_invariant_on ends_with_newline
           (fun st => in_continuation st = false /\ in_with_block st = false
                      /\ without_commands (ps st)));
    [|exact H|repeat split; constructor].
  intros st line Hl (Hc & Hb & Hw). rewrite (lattice_step_plain st line (proj2 Hl) Hc).
  split; [apply lattice_process_continuation|].
  apply lattice_process_text; [exact Hl | exact Hb | exact Hw].
Qed.

Lemma lattice_text_file_has_no_commands_witness :
  Forall (fun r => commands r = [])
         (rules (parse_lattice_makefile
                   (FGets_lines (ln "prog: main.o" +:+ ln (tabbed "blink FROM main.o TO prog")
                                 +:+ ln "WITH" +:+ ln "lib.o"))
                   (empty_makefile FORMAT_LATTICE))).
Proof.
  apply (lattice_text_file_has_no_commands
           (FGets_lines (ln "prog: main.o" +:+ ln (tabbed "blink FROM main.o TO prog")
                         +:+ ln "WITH" +:+ ln "lib.o"))
           FORMAT_LATTICE).
  repeat constructor.
Defined.

(** ** Joined lines of the Lattice parser *)

Lemma chop_append (a : string) (c : ascii) : chop (a +:+ String c EmptyString) = a.
Proof.
  induction a as [|x r IH]; [reflexivity|].
  rewrite append_cons. destruct (r +:+ String c EmptyString) eqn:E.
  - destruct r; discriminate E.
  - change (chop (String x (String a s))) with (String x (chop (String a s))).
    rewrite IH. reflexivity.
Qed.

(** X17: a line that ends with a backslash is joined with the next one.
    When the buffer is empty, as it is at the start and after a line that
    reached the end of the loop body, the two rounds for a piece that ends with a
    backslash and the piece after it leave the parser in the state in
    which one round for the joined line leaves it. *)
Theorem lattice_continuation_joins (st : LState) (first second : string) :
  full_line st = EmptyString ->
  full_line_len st = 0 ->
  in_continuation st = false ->
  is_empty second = false ->
  match last_char second with Some c => Ascii.eqb c "\"%char | None => false end = false ->
  String.length first + String.length second < FULL_LINE_ROOM ->
  lattice_step (lattice_step st (first +:+ "\")) second
  = lattice_step st (first +:+ second).
Proof.
  intros Hf Hn Hc He Hs Hroom.
  pose proof (length_append first "\") as L1. cbn [String.length] in L1.
  pose proof (length_append first second) as L2.
  pose proof (chop_append first "\"%char) as C1.
  assert (E2 : last_char (first +:+ second) = last_char second)
    by (apply last_char_append, He).
  assert (Hlen : 0 < String.length second) by (destruct second; [discriminate He | cbn; lia]).
  unfold lattice_step at 2. cbv zeta.
  rewrite (last_char_append first "\" eq_refl). cbn [last_char].
  rewrite Ascii.eqb_refl, L1, Hn, C1, Hf, andb_true_r.
  replace (0 <? String.length first + 1) with true by (symmetry; apply Nat.ltb_lt; lia).
  replace (0 + (String.length first + 1) <? FULL_LINE_ROOM) with true
    by (symmetry; apply Nat.ltb_lt; lia).
  unfold lattice_step. cbv zeta. cbn [in_continuation full_line full_line_len ps in_with_block].
  rewrite E2, Hs, Hc, L2, !andb_false_r.
  replace (0 + (String.length first + 1 - 1) + String.length second <? FULL_LINE_ROOM)
    with true by (symmetry; apply Nat.ltb_lt; lia).
  rewrite append_nil.
  replace (0 + (String.length first + 1 - 1) + String.length second)
    with (String.length first + String.length second) by lia.
  reflexivity.
Qed.

Lemma lattice_continuation_joins_witness :
  lattice_step (lattice_step (lattice_start (empty_makefile FORMAT_LATTICE)) ("OBJS = a.o " +:+ "\"))
               "b.o"
  = lattice_step (lattice_start (empty_makefile FORMAT_LATTICE)) ("OBJS = a.o " +:+ "b.o").
Proof.
  apply (lattice_continuation_joins (lattice_start (empty_makefile FORMAT_LATTICE))
           "OBJS = a.o " "b.o" eq_refl eq_refl eq_refl eq_refl eq_refl).
  vm_compute. lia.
Defined.

(** ** Command lines of the output *)

Lemma count_lines_rules (kind : Call -> bool) (g : Rule -> list Call) (n : Rule -> nat)
    (rs : list Rule) :
  (forall r, count_lines kind (g r) = n r) ->
  count_lines kind (flat_map g rs) = list_sum (map n rs).
Proof.
  intros H. induction rs as [|r rs IH]; [reflexivity|].
  cbn [flat_map map list_sum]. rewrite count_lines_app, H, IH. reflexivity.
Qed.

Lemma list_sum_zero (rs : list Rule) : list_sum (map (fun _ : Rule => 0) rs) = 0.
Proof. induction rs as [|r rs IH]; [reflexivity | exact IH]. Qed.

Lemma list_sum_filter (once : Rule -> bool) (rs : list Rule) :
  list_sum (map (fun r => if once r then 1 else 0) rs) = length (List.filter once rs).
Proof.
  unfold list_sum. induction rs as [|r rs IH]; [reflexivity|].
  simpl. rewrite IH. destruct (once r); reflexivity.
Qed.

Lemma command_calls_lines (rule : Rule) (from to : MakefileFormat) :
  count_lines is_command_line (command_calls rule from to) = command_count rule
  /\ count_lines is_placeholder_line (command_calls rule from to) = 0.
Proof.
  unfold command_calls, command_count. split.
  - rewrite (count_lines_map _ _ true); reflexivity.
  - rewrite (count_lines_map _ _ false); reflexivity.
Qed.

Lemma header_lines (source_format : MakefileFormat) (rule : Rule) (kind : Call -> bool) :
  kind = is_command_line \/ kind = is_placeholder_line ->
  count_lines kind (gnu_header source_format rule) = 0
  /\ count_lines kind (sas_header source_format rule) = 0
  /\ count_lines kind (dice_header source_format rule) = 0
  /\ count_lines kind (lattice_header source_format rule) = 0.
Proof.
  unfold gnu_header, sas_header, dice_header, lattice_header.
  intros [-> | ->]; repeat split; by_cases.
Qed.

Lemma rule_command_lines (source_format : MakefileFormat) (rule : Rule) :
  (count_lines is_command_line (gnu_rule source_format rule) = command_count rule
   /\ count_lines is_placeholder_line (gnu_rule source_format rule) = 0)
  /\ (count_lines is_command_line (sas_rule source_format rule) = command_count rule
      /\ count_lines is_placeholder_line (sas_rule source_format rule)
         = if command_count rule =? 0 then 1 else 0)
  /\ (count_lines is_command_line (dice_rule source_format rule) = command_count rule
      /\ count_lines is_placeholder_line (dice_rule source_format rule) = 0)
  /\ (count_lines is_command_line (lattice_rule source_format rule) = command_count rule
      /\ count_lines is_placeholder_line (lattice_rule source_format rule) = 0).
Proof.
  destruct (header_lines source_format rule is_command_line (or_introl eq_refl))
    as (G1 & S1 & D1 & L1).
  destruct (header_lines source_format rule is_placeholder_line (or_intror eq_refl))
    as (G2 & S2 & D2 & L2).
  pose proof (fun to => proj1 (command_calls_lines rule source_format to)) as C1.
  pose proof (fun to => proj2 (command_calls_lines rule source_format to)) as C2.
  unfold gnu_rule, sas_rule, dice_rule, lattice_rule.
  rewrite !count_lines_app, G1, G2, D1, D2, L1, L2, S1, S2.
  destruct (command_count rule) as [|n] eqn:E; cbn [Nat.ltb Nat.leb Nat.eqb];
    rewrite ?count_lines_app, ?C1, ?C2, ?E; repeat split; try reflexivity; cbn; lia.
Qed.

(** X18: every emitter writes one command line for each command stored
    in the model, and the SAS/C emitter writes its placeholder line under
    exactly the rules that have no command; the other emitters write no
    placeholder. *)
Theorem emitted_command_lines (source : Makefile) :
  (count_lines is_command_line (convert_to_gnu_make source) = stored_commands source
   /\ count_lines is_placeholder_line (convert_to_gnu_make source) = 0)
  /\ (count_lines is_command_line (convert_to_sas_make source) = stored_commands source
      /\ count_lines is_placeholder_line (convert_to_sas_make source)
         = length (List.filter (fun r => command_count r =? 0) (rules source)))
  /\ (count_lines is_command_line (convert_to_dice_make source) = stored_commands source
      /\ count_lines is_placeholder_line (convert_to_dice_make source) = 0)
  /\ (count_lines is_command_line (convert_to_lattice_make source) = stored_commands source
      /\ count_lines is_placeholder_line (convert_to_lattice_make source) = 0).
Proof.
  pose proof (fun r => rule_command_lines (format source) r) as HR.
  assert (Ha : forall kind, kind = is_command_line \/ kind = is_placeholder_line ->
                 count_lines kind (after_variables source) = 0).
  { intros kind [-> | ->]; unfold after_variables; destruct (0 <? _); reflexivity. }
  assert (Hv : forall kind (f : Var -> Call),
             (forall v, kind (f v) = false) ->
             count_lines kind (map f (variables source)) = 0).
  { intros kind f Hf. rewrite (count_lines_map kind f false); [reflexivity | exact Hf]. }
  assert (Vc : forall v,
             is_command_line (gnu_variable v) = false
             /\ is_command_line (sas_variable (format source) v) = false
             /\ is_command_line (dice_variable v) = false
             /\ is_command_line (lattice_variable v) = false).
  { intros v. unfold gnu_variable, sas_variable, dice_variable, lattice_variable, plain_variable.
    repeat split; by_cases. }
  assert (Vp : forall v,
             is_placeholder_line (gnu_variable v) = false
             /\ is_placeholder_line (sas_variable (format source) v) = false
             /\ is_placeholder_line (dice_variable v) = false
             /\ is_placeholder_line (lattice_variable v) = false).
  { intros v. unfold gnu_variable, sas_variable, dice_variable, lattice_variable, plain_variable.
    repeat split; by_cases. }
  unfold convert_to_gnu_make, convert_to_sas_make, convert_to_dice_make,
         convert_to_lattice_make, stored_commands.
  rewrite !count_lines_app.
  rewrite !(Ha is_command_line (or_introl eq_refl)).
  rewrite !(Ha is_placeholder_line (or_intror eq_refl)).
  rewrite (Hv is_command_line gnu_variable) by apply Vc.
  rewrite (Hv is_command_line (sas_variable (format source))) by apply Vc.
  rewrite (Hv is_command_line dice_variable) by apply Vc.
  rewrite (Hv is_command_line lattice_variable) by apply Vc.
  rewrite (Hv is_placeholder_line gnu_variable) by apply Vp.
  rewrite (Hv is_placeholder_line (sas_variable (format source))) by apply Vp.
  rewrite (Hv is_placeholder_line dice_variable) by apply Vp.
  rewrite (Hv is_placeholder_line lattice_variable) by apply Vp.
  rewrite (count_lines_rules is_command_line (gnu_rule _) command_count) by apply HR.
  rewrite (count_lines_rules is_command_line (sas_rule _) command_count) by apply HR.
  rewrite (count_lines_rules is_command_line (dice_rule _) command_count) by apply HR.
  rewrite (count_lines_rules is_command_line (lattice_rule _) command_count) by apply HR.
  rewrite (count_lines_rules is_placeholder_line (gnu_rule _) (fun _ => 0)) by apply HR.
  rewrite (count_lines_rules is_placeholder_line (sas_rule _)
             (fun r => if command_count r =? 0 then 1 else 0)) by apply HR.
  rewrite (count_lines_rules is_placeholder_line (dice_rule _) (fun _ => 0)) by apply HR.
  rewrite (count_lines_rules is_placeholder_line (lattice_rule _) (fun _ => 0)) by apply HR.
  rewrite !list_sum_zero, list_sum_filter.
  repeat split; reflexivity.
Qed.

(** ** Assignments with a colon *)

Lemma variables_lattice_process_colon (st : LState) :
  found (strchr (trim_whitespace (full_line st)) ":"%char) = true ->
  variables (mk (ps (lattice_process st))) = variables (mk (ps st)).
Proof.
  intros H. unfold lattice_process, is_assignment. cbv zeta. rewrite H, andb_false_r.
  destruct (is_empty _); [destruct (in_with_block st); reflexivity|].
  destruct (first_is ";"%char _); [cbn; apply variables_store_comment|].
  destruct (ieq _ _); [reflexivity|].
  destruct (is_dot_rule _); cbn; apply variables_open_rule.
Qed.

(** X20: a line with a colon is never read as an assignment, in none of
    the four parsers: it leaves the variables as they are.  In the GNU
    parser such a line, unless it is a comment, is read as a rule header
    whose targets are the text in front of the first colon; this is what
    happens to an assignment written with [:=] and to one whose value
    names an Amiga volume or assign. *)
Theorem colon_line_is_no_assignment (st : PState) (line : string) :
  found (strchr (trim_whitespace line) ":"%char) = true ->
  variables (mk (gnu_step st line)) = variables (mk st)
  /\ variables (mk (sas_step st line)) = variables (mk st)
  /\ variables (mk (dice_step st line)) = variables (mk st)
  /\ (forall lst : LState,
        full_line lst = line ->
        variables (mk (ps (lattice_process lst))) = variables (mk (ps lst)))
  /\ (first_is "#"%char (trim_whitespace line) = false ->
      gnu_step st line
      = open_rule st (colon_rule (trim_whitespace line)
                                 (fun targets => found (strchr targets "%"%char)))).
Proof.
  intros H.
  assert (He : is_empty (trim_whitespace line) = false)
    by (destruct (trim_whitespace line); [discriminate H | reflexivity]).
  unfold gnu_step, sas_step, dice_step, is_assignment. cbv zeta.
  rewrite H, He, andb_false_r.
  split; [|split; [|split; [|split]]].
  - destruct (first_is _ _); [cbn; apply variables_store_comment | apply variables_open_rule].
  - destruct (first_is _ _); [cbn; apply variables_store_comment|].
    destruct (is_dot_rule _); apply variables_open_rule.
  - destruct (first_is _ _); [cbn; apply variables_store_comment|].
    destruct (found (strstr _ _)); apply variables_open_rule.
  - intros lst <-. apply variables_lattice_process_colon, H.
  - intros ->. reflexivity.
Qed.

Lemma colon_line_is_no_assignment_witness :
  gnu_step (start (empty_makefile FORMAT_GNU_MAKE)) (ln "CC := gcc")
  = open_rule (start (empty_makefile FORMAT_GNU_MAKE))
              (mkRule "CC" (ln "= gcc") [] false false).
Proof.
  apply (colon_line_is_no_assignment (start (empty_makefile FORMAT_GNU_MAKE))
           (ln "CC := gcc") eq_refl).
  reflexivity.
Defined.
